(** * Ops dashboard: normalization, consolidation and weekly ranking

    A shallow embedding of [ops_dashboard/normalization.py],
    [ops_dashboard/consolidation.py] and the ranking part of
    [ops_dashboard/reporting.py].

    Modelling conventions.
    - A Python [str] is a Rocq [string]; the model covers ASCII text, and a
      code unit above 127 is carried through unchanged (neither whitespace
      nor digit, untouched by [upper]/[lower]).
    - A cell of a DataFrame is a [value]: [None], a float NaN, a [bool], a
      [str], or any other object, which the code only ever reads through
      [str()] and [repr()].
    - A DataFrame is the list of its rows, in index order, over the columns
      the functions read after alias coalescing; a missing column of a frame
      is an absent ([None]) field.
    - A [Timestamp] is its number of nanoseconds since the epoch and [None]
      stands for [NaT]. pandas' [to_datetime] in its coercing mode is a
      parameter of the development.
    - A raised exception is the [Raise] outcome of a small error monad. *)

From Stdlib Require Import ZArith Lia Ascii String List Permutation.
From stdpp Require Import base decidable option list strings gmap sorting.

Local Open Scope string_scope.
Local Open Scope list_scope.
Local Open Scope Z_scope.

(** ** Python values and string primitives *)

Module Py.

Inductive value : Type :=
| VNone
| VNaN
| VBool (b : bool)
| VStr (s : string)
| VObj (str_text repr_text : string).

#[global] Instance value_eq_dec : EqDecision value.
Proof. solve_decision. Defined.

(** [value is None or (isinstance(value, float) and pd.isna(value))] *)
Definition is_none_or_nan (v : value) : bool :=
  match v with
  | VNone | VNaN => true
  | _ => false
  end.

(** [pd.notna(x)] on a scalar cell. *)
Definition notna (v : value) : bool := negb (is_none_or_nan v).

Definition code (c : ascii) : N := N_of_ascii c.

(** [str.isspace] on one ASCII character; [\s] of [re] reads the same table. *)
Definition isspace (c : ascii) : bool :=
  ((9 <=? code c) && (code c <=? 13) || (28 <=? code c) && (code c <=? 32))%N.

(** [\d] on ASCII. *)
Definition isdigit (c : ascii) : bool :=
  ((48 <=? code c) && (code c <=? 57))%N.

Definition upper_char (c : ascii) : ascii :=
  if ((97 <=? code c) && (code c <=? 122))%N then ascii_of_N (code c - 32) else c.

Definition lower_char (c : ascii) : ascii :=
  if ((65 <=? code c) && (code c <=? 90))%N then ascii_of_N (code c + 32) else c.

Fixpoint upper (s : string) : string :=
  match s with
  | EmptyString => EmptyString
  | String c r => String (upper_char c) (upper r)
  end.

Fixpoint lower (s : string) : string :=
  match s with
  | EmptyString => EmptyString
  | String c r => String (lower_char c) (lower r)
  end.

Fixpoint lstrip (s : string) : string :=
  match s with
  | EmptyString => EmptyString
  | String c r => if isspace c then lstrip r else s
  end.

Fixpoint rstrip (s : string) : string :=
  match s with
  | EmptyString => EmptyString
  | String c r =>
      match rstrip r with
      | EmptyString => if isspace c then EmptyString else String c EmptyString
      | r' => String c r'
      end
  end.

(** [s.strip()] *)
Definition strip (s : string) : string := rstrip (lstrip s).

Fixpoint contains_char (c : ascii) (s : string) : bool :=
  match s with
  | EmptyString => false
  | String d r => if decide (c = d) then true else contains_char c r
  end.

Definition hex_digit (n : N) : ascii :=
  if (n <? 10)%N then ascii_of_N (48 + n) else ascii_of_N (87 + n).

(** One character of [repr(s)] for the chosen quote. *)
Definition backslash : ascii := "092"%char.
Definition single_quote : ascii := "039"%char.
Definition double_quote : ascii := "034"%char.

Definition escaped (c : ascii) : string := String backslash (String c EmptyString).

Definition repr_char (quote c : ascii) : string :=
  if decide (c = quote) then escaped c
  else if decide (c = backslash) then escaped backslash
  else if decide (c = "009"%char) then escaped "t"
  else if decide (c = "010"%char) then escaped "n"
  else if decide (c = "013"%char) then escaped "r"
  else if ((code c <? 32) || (code c =? 127))%N then
    String backslash
      (String "x" (String (hex_digit (code c / 16))
                     (String (hex_digit (code c mod 16)) EmptyString)))
  else String c EmptyString.

Fixpoint repr_body (quote : ascii) (s : string) : string :=
  match s with
  | EmptyString => EmptyString
  | String c r => repr_char quote c +:+ repr_body quote r
  end.

(** [repr] of a [str]: single quotes, unless the text holds a single quote
    and no double quote. *)
Definition repr_str (s : string) : string :=
  let quote : ascii :=
    if contains_char single_quote s && negb (contains_char double_quote s)
    then double_quote else single_quote in
  String quote (repr_body quote s) +:+ String quote EmptyString.

(** [str(v)] *)
Definition str (v : value) : string :=
  match v with
  | VNone => "None"
  | VNaN => "nan"
  | VBool true => "True"
  | VBool false => "False"
  | VStr s => s
  | VObj s _ => s
  end.

(** [repr(v)], the [{v!r}] of an f-string. *)
Definition repr (v : value) : string :=
  match v with
  | VStr s => repr_str s
  | VObj _ r => r
  | _ => str v
  end.

(** [s.replace(L0T, LOT)] of line 79: every occurrence of the three
    characters L, zero, T, left to right, without overlap. *)
Fixpoint replace_L0T (s : string) : string :=
  match s with
  | EmptyString => EmptyString
  | String c r =>
      match r with
      | String c1 (String c2 r') =>
          if bool_decide (c = "L"%char) && bool_decide (c1 = "0"%char)
             && bool_decide (c2 = "T"%char)
          then String "L" (String "O" (String "T" (replace_L0T r')))
          else String c (replace_L0T r)
      | _ => String c (replace_L0T r)
      end
  end.

(** The literal prefix LOT of both patterns: the text after it. *)
Definition strip_LOT (s : string) : option string :=
  match s with
  | String a (String b (String c r)) =>
      if bool_decide (a = "L"%char) && bool_decide (b = "O"%char)
         && bool_decide (c = "T"%char)
      then Some r else None
  | _ => None
  end.

(** The class [[\s\-_]]. *)
Definition is_separator (c : ascii) : bool :=
  isspace c || bool_decide (c = "-"%char) || bool_decide (c = "_"%char).

(** [re.sub] of line 81, which replaces [[\s\-_]+] by the empty text: every
    run of separators is deleted. *)
Fixpoint remove_separators (s : string) : string :=
  match s with
  | EmptyString => EmptyString
  | String c r => if is_separator c then remove_separators r
                  else String c (remove_separators r)
  end.

Fixpoint all_chars (P : ascii -> bool) (s : string) : bool :=
  match s with
  | EmptyString => true
  | String c r => P c && all_chars P r
  end.

(** A text of exactly [n] digits. *)
Definition digits (n : nat) (s : string) : Prop :=
  String.length s = n ∧ all_chars isdigit s = true.

(** [\d{n}] at the head of [s]: the digits and the rest. *)
Fixpoint take_digits (n : nat) (s : string) : option (string * string) :=
  match n with
  | O => Some (EmptyString, s)
  | S n' =>
      match s with
      | EmptyString => None
      | String c r =>
          if isdigit c then
            match take_digits n' r with
            | Some (d, rest) => Some (String c d, rest)
            | None => None
            end
          else None
      end
  end.

(** Where [$] matches without [re.MULTILINE]: at the end of the text, or
    before a newline that ends it. *)
Definition at_dollar (s : string) : bool :=
  bool_decide (s = EmptyString) || bool_decide (s = String "010" EmptyString).

(** [re.sub] of line 83: [^LOT(\d{8})(\d{3})$] rewritten to [LOT-\1-\2]. *)
Definition restructure (s : string) : string :=
  match strip_LOT s with
  | Some r =>
      match take_digits 8 r with
      | Some (d8, r1) =>
          match take_digits 3 r1 with
          | Some (d3, r2) =>
              if at_dollar r2
              then String "L" (String "O" (String "T" (String "-"
                     (d8 +:+ String "-" (d3 +:+ r2)))))
              else s
          | None => s
          end
      | None => s
      end
  | None => s
  end.

(** The class [[-_ ]] of [LOT_PATTERN]. *)
Definition is_lot_sep (c : ascii) : bool :=
  bool_decide (c = "-"%char) || bool_decide (c = "_"%char) || bool_decide (c = " "%char).

(** [[-_ ]?]: greedy; giving the character back never helps, since a digit
    must follow. *)
Definition skip_lot_sep (s : string) : string :=
  match s with
  | String c r => if is_lot_sep c then r else s
  | EmptyString => EmptyString
  end.

(** [LOT[-_ ]?(\d{8})[-_ ]?(\d{3})] matched at the head of [s]: the two
    groups. *)
Definition match_lot_here (s : string) : option (string * string) :=
  match strip_LOT s with
  | Some r =>
      match take_digits 8 (skip_lot_sep r) with
      | Some (d8, r1) =>
          match take_digits 3 (skip_lot_sep r1) with
          | Some (d3, _) => Some (d8, d3)
          | None => None
          end
      | None => None
      end
  | None => None
  end.

(** [LOT_PATTERN.search(s)]: the leftmost position where the pattern
    matches. *)
Fixpoint search_lot (s : string) : option (string * string) :=
  match match_lot_here s with
  | Some g => Some g
  | None =>
      match s with
      | EmptyString => None
      | String _ r => search_lot r
      end
  end.

End Py.

(** ** normalization.py *)

Module normalization.
Import Py.

Record LotNormalization : Type := mkLotNormalization {
  canonical_lot_id : option string;
  status : string;
  reason : option string
}.

(** A tz-naive [pd.Timestamp], in nanoseconds since 1970-01-01. *)
Definition Timestamp : Type := Z.

Definition ns_per_day : Z := 86400000000000.

(** [Timestamp.normalize()]: midnight of the same day. *)
Definition ts_normalize (t : Timestamp) : Timestamp := t - t mod ns_per_day.

Section parse_mixed_date.
(** [pd.to_datetime(value, errors=coerce, utc=False)] on one cell. *)
Variable to_datetime : value -> option Timestamp.

Definition parse_mixed_date (v : value) : option Timestamp * option string :=
  if is_none_or_nan v then (None, Some "Date is empty")
  else
    match to_datetime v with
    | None => (None, Some ("Unparseable date value: " +:+ repr v))
    | Some parsed => (Some (ts_normalize parsed), None)
    end.
End parse_mixed_date.

Section parse_mixed_date_raising.
(** Line 49 calls [pd.to_datetime] with no handler around it: the call
    either raises ([inl], with the exception) or returns a timestamp or
    [NaT], and what it raises leaves [parse_mixed_date] as it is. The
    definition above is this one for a call that always returns. *)
Context {E : Type}.
Variable to_datetime : value -> E + option Timestamp.

End parse_mixed_date_raising.

(** The canonical text line 88 builds from the two groups of the match. *)
Definition canonical (d8 d3 : string) : string :=
  String "L" (String "O" (String "T" (String "-" (d8 +:+ String "-" d3)))).

(** The compacted text the pattern is tried on (lines 74 to 81). *)
Definition compact_of (raw_text : string) : string :=
  remove_separators (replace_L0T raw_text).

Definition normalize_lot_id (raw_lot_id : value) : LotNormalization :=
  if is_none_or_nan raw_lot_id then
    mkLotNormalization None "needs_review" (Some "Lot ID is empty")
  else
    let raw_text := upper (strip (str raw_lot_id)) in
    if decide (raw_text = EmptyString) then
      mkLotNormalization None "needs_review" (Some "Lot ID is blank")
    else
      let corrected := replace_L0T raw_text in
      let compact := remove_separators corrected in
      let structured := restructure compact in
      match search_lot structured with
      | None =>
          mkLotNormalization None "needs_review"
            (Some ("Lot ID does not match expected pattern: " +:+ repr raw_lot_id))
      | Some (g1, g2) =>
          mkLotNormalization (Some (canonical g1 g2)) "ok" None
      end.

(** [truthy_issue_flag] *)
Definition truthy_issue_flag (v : value) : bool :=
  match v with
  | VBool b => b
  | VNone | VNaN => false
  | _ =>
      let normalized := lower (strip (str v)) in
      bool_decide (normalized ∈ ["yes"; "y"; "true"; "t"; "1"])
  end.

End normalization.


(** ** Outcomes of code that may raise *)

Module Exn.

Inductive exn : Type :=
| KeyError (missing : list string).

Inductive result (A : Type) : Type :=
| Ok (a : A)
| Raise (e : exn).
Arguments Ok {A} a.
Arguments Raise {A} e.

#[global] Instance result_ret : MRet result := fun A a => Ok a.

#[global] Instance result_bind : MBind result := fun A B k m =>
  match m with
  | Ok a => k a
  | Raise e => Raise e
  end.

#[global] Instance result_fmap : FMap result := fun A B f m =>
  match m with
  | Ok a => Ok (f a)
  | Raise e => Raise e
  end.

End Exn.

(** ** Frames and the pandas operations the pipeline uses *)

Module Frame.

Section sort_values.
Context {A : Type} (le : A -> A -> bool).

Fixpoint insert_sorted (x : A) (l : list A) : list A :=
  match l with
  | [] => [x]
  | y :: ys => if le x y then x :: l else y :: insert_sorted x ys
  end.

(** [DataFrame.sort_values] on several columns: a stable sort, so rows
    with equal keys keep their index order. [le x y] reads: [x] does not
    sort after [y]. *)
Fixpoint sort_values (l : list A) : list A :=
  match l with
  | [] => []
  | x :: xs => insert_sorted x (sort_values xs)
  end.
End sort_values.

Section drop_duplicates.
Context {A K : Type} `{EqDecision K} (key : A -> K).

Fixpoint drop_duplicates_from (seen : list K) (l : list A) : list A :=
  match l with
  | [] => []
  | x :: xs =>
      if decide (key x ∈ seen) then drop_duplicates_from seen xs
      else x :: drop_duplicates_from (key x :: seen) xs
  end.

(** [drop_duplicates(subset=key, keep=first)] *)
Definition drop_duplicates (l : list A) : list A := drop_duplicates_from [] l.
End drop_duplicates.

(** A column of text with nulls, ascending, nulls last. *)
Definition text_le (a b : option string) : bool :=
  match a, b with
  | Some x, Some y => String.leb x y
  | Some _, None => true
  | None, Some _ => false
  | None, None => true
  end.

(** A column of numbers or timestamps with nulls, descending, nulls last. *)
Definition desc_le (a b : option Z) : bool :=
  match a, b with
  | Some x, Some y => bool_decide (y ≤ x)
  | Some _, None => true
  | None, Some _ => false
  | None, None => true
  end.

(** [sorted(s)] of a set of strings. *)
Definition sorted_strings (s : gset string) : list string :=
  merge_sort String.le (elements s).

End Frame.

(** ** consolidation.py *)

Module consolidation.
Import Py Exn Frame.
Import normalization (Timestamp, ts_normalize, parse_mixed_date,
                      normalize_lot_id, truthy_issue_flag).

(** The traceability columns the loader attaches to every row. *)
Record source_ref : Type := mkSource {
  source_file : string;
  source_sheet : string;
  source_row : Z
}.

#[global] Instance source_ref_eq_dec : EqDecision source_ref.
Proof. solve_decision. Defined.

(** The columns of a production frame the pipeline reads, as
    [_coalesce_column] hands them over. *)
Record production_input : Type := mkProductionInput {
  pi_source : source_ref;
  pi_raw_lot_id : value;
  pi_production_line : option string;
  pi_primary_issue : option string;
  pi_line_issue : value;
  pi_production_date : value;
  pi_normalized_lot_id : value
}.

Record shipping_input : Type := mkShippingInput {
  si_source : source_ref;
  si_raw_lot_id : value;
  si_ship_status : option string;
  si_ship_date : value;
  si_normalized_lot_id : value
}.

(** The derived columns both preparation functions compute the same way
    (lines 49 to 77 and 96 to 123); [parsed_date] is the column
    [production_date], respectively [ship_date]. *)
Record quality : Type := mkQuality {
  parsed_date : option Timestamp;
  date_error_reason : option string;
  canonical_lot_id : option string;
  lot_normalization_status : string;
  lot_error_reason : option string;
  needs_review : bool;
  review_reason : string
}.

#[global] Instance quality_eq_dec : EqDecision quality.
Proof. solve_decision. Defined.

Record production_row : Type := mkProductionRow {
  p_source : source_ref;
  p_raw_lot_id : value;
  production_line : option string;
  primary_issue : option string;
  line_issue : bool;
  production_date_raw : value;
  p_provided_normalized_lot_id : value;
  p_quality : quality
}.

Record shipping_row : Type := mkShippingRow {
  s_source : source_ref;
  s_raw_lot_id : value;
  ship_status : string;
  ship_date_raw : value;
  s_provided_normalized_lot_id : value;
  s_quality : quality
}.

#[global] Instance production_row_eq_dec : EqDecision production_row.
Proof. solve_decision. Defined.

#[global] Instance shipping_row_eq_dec : EqDecision shipping_row.
Proof. solve_decision. Defined.

Definition production_date (r : production_row) : option Timestamp :=
  parsed_date (p_quality r).
Definition ship_date (r : shipping_row) : option Timestamp :=
  parsed_date (s_quality r).
Definition p_lot (r : production_row) : option string :=
  canonical_lot_id (p_quality r).
Definition s_lot (r : shipping_row) : option string :=
  canonical_lot_id (s_quality r).

Definition ambiguity_message : string :=
  "Ambiguous lot match: provided normalized_lot_id conflicts with raw lot normalization".

Definition no_match_message : string := "No matching shipping lot found".

(** [Series.fillna] with the empty text. *)
Definition fillna_empty (o : option string) : string := default EmptyString o.

Section prepare.
Variable to_datetime : value -> option Timestamp.

(** One row of the derived columns. *)
Definition derive_quality (date_raw raw_lot provided_raw : value) : quality :=
  let '(parsed, date_error) := parse_mixed_date to_datetime date_raw in
  let normalized := normalize_lot_id raw_lot in
  let canonical := normalization.canonical_lot_id normalized in
  let lot_status := normalization.status normalized in
  let lot_reason := normalization.reason normalized in
  let needs := bool_decide (is_Some date_error)
               || negb (bool_decide (lot_status = "ok")) in
  let review := fillna_empty date_error +:+ fillna_empty lot_reason in
  let provided :=
    if notna provided_raw
    then normalization.canonical_lot_id (normalize_lot_id provided_raw)
    else None in
  let mismatch := bool_decide (is_Some provided)
                  && bool_decide (is_Some canonical)
                  && negb (bool_decide (provided = canonical)) in
  {| parsed_date := parsed;
     date_error_reason := date_error;
     canonical_lot_id := canonical;
     lot_normalization_status := lot_status;
     lot_error_reason := lot_reason;
     needs_review := if mismatch then true else needs;
     review_reason := if mismatch then ambiguity_message else review |}.

Definition prepare_production_row (r : production_input) : production_row :=
  {| p_source := pi_source r;
     p_raw_lot_id := pi_raw_lot_id r;
     production_line := pi_production_line r;
     primary_issue := pi_primary_issue r;
     line_issue := truthy_issue_flag (pi_line_issue r);
     production_date_raw := pi_production_date r;
     p_provided_normalized_lot_id := pi_normalized_lot_id r;
     p_quality := derive_quality (pi_production_date r) (pi_raw_lot_id r)
                                 (pi_normalized_lot_id r) |}.

Definition _prepare_production (df : list production_input) : list production_row :=
  prepare_production_row <$> df.

Definition prepare_shipping_row (r : shipping_input) : shipping_row :=
  {| s_source := si_source r;
     s_raw_lot_id := si_raw_lot_id r;
     ship_status := default "On Hold" (si_ship_status r);
     ship_date_raw := si_ship_date r;
     s_provided_normalized_lot_id := si_normalized_lot_id r;
     s_quality := derive_quality (si_ship_date r) (si_raw_lot_id r)
                                 (si_normalized_lot_id r) |}.

Definition _prepare_shipping (df : list shipping_input) : list shipping_row :=
  prepare_shipping_row <$> df.
End prepare.

(** The order of [sort_values([canonical_lot_id, ship_date],
    ascending=[True, False])], nulls last in either column. *)
Definition latest_le (a b : shipping_row) : bool :=
  if decide (s_lot a = s_lot b) then desc_le (ship_date a) (ship_date b)
  else text_le (s_lot a) (s_lot b).

Definition _latest_shipping_by_lot (shipping : list shipping_row) : list shipping_row :=
  let valid := filter (fun r => is_Some (s_lot r)) shipping in
  let valid := sort_values latest_le valid in
  drop_duplicates s_lot valid.

Record conflict_record : Type := mkConflict {
  conflict_lot : string;
  conflict_production_lines : list string;
  conflict_ship_statuses : list string;
  production_sources : list source_ref;
  shipping_sources : list source_ref
}.

(** [by_lot.get_group(lot) if lot in by_lot.groups else pd.DataFrame()]:
    [None] is the frame without columns. *)
Definition group_or_empty {A : Type} (lot_of : A -> option string)
    (rows : list A) (lot : string) : option (list A) :=
  match filter (fun r => lot_of r = Some lot) rows with
  | [] => None
  | g => Some g
  end.

(** [rows[[source_file, source_sheet, source_row]].drop_duplicates()
    .to_dict(records)]; selecting the columns of a frame that has none
    raises [KeyError]. *)
Definition source_records {A : Type} (src : A -> source_ref)
    (rows : option (list A)) : result (list source_ref) :=
  match rows with
  | None => Raise (KeyError ["source_file"; "source_sheet"; "source_row"])
  | Some g => Ok (drop_duplicates id (src <$> g))
  end.

Definition lot_ids (production : list production_row)
    (shipping : list shipping_row) : list string :=
  sorted_strings (list_to_set (omap p_lot production)
                  ∪ list_to_set (omap s_lot shipping)).

(** The body of the loop of [_detect_conflicts] for one lot. *)
Definition conflict_of_lot (production : list production_row)
    (shipping : list shipping_row) (lot_id : string)
    : result (option conflict_record) :=
  let prod_rows := group_or_empty p_lot production lot_id in
  let ship_rows := group_or_empty s_lot shipping lot_id in
  let prod_lines : gset string :=
    list_to_set (omap production_line (default [] prod_rows)) in
  let ship_statuses : gset string :=
    list_to_set (ship_status <$> default [] ship_rows) in
  if bool_decide (1 < size prod_lines)%nat || bool_decide (1 < size ship_statuses)%nat
  then
    ps ← source_records p_source prod_rows;
    ss ← source_records s_source ship_rows;
    Ok (Some {| conflict_lot := lot_id;
                conflict_production_lines := sorted_strings prod_lines;
                conflict_ship_statuses := sorted_strings ship_statuses;
                production_sources := ps;
                shipping_sources := ss |})
  else Ok None.

Fixpoint conflicts_over (production : list production_row)
    (shipping : list shipping_row) (lots : list string)
    : result (list conflict_record) :=
  match lots with
  | [] => Ok []
  | lot_id :: rest =>
      rec ← conflict_of_lot production shipping lot_id;
      records ← conflicts_over production shipping rest;
      Ok (option_list rec ++ records)%list
  end.

Definition _detect_conflicts (production : list production_row)
    (shipping : list shipping_row) : result (list conflict_record) :=
  conflicts_over production shipping (lot_ids production shipping).

(** A row of the joined frame. [raw_lot_aliases] is [None] in a frame that
    has no such column. *)
Record consolidated_row : Type := mkConsolidated {
  c_production : production_row;
  c_ship_status : option string;
  c_ship_date : option Timestamp;
  shipping_source : option source_ref;
  shipping_raw_lot_id : option value;
  shipping_match_status : string;
  c_needs_review : bool;
  c_review_reason : string;
  is_problematic_but_shipped : bool;
  has_conflict : bool;
  raw_lot_aliases : option (list string)
}.

Definition c_lot (r : consolidated_row) : option string := p_lot (c_production r).

Record ConsolidationResult : Type := mkConsolidationResult {
  production : list production_row;
  shipping : list shipping_row;
  consolidated : list consolidated_row;
  flagged_rows : list consolidated_row;
  conflict_rows : list conflict_record
}.

(** [production.merge(shipping_latest[...], on=canonical_lot_id, how=left)]:
    every left row, once per right row with an equal key (null keys equal
    each other), or once with null right columns. *)
Definition merge_left (production : list production_row)
    (latest : list shipping_row) : list (production_row * option shipping_row) :=
  p ← production;
  match filter (fun s => s_lot s = p_lot p) latest with
  | [] => [(p, None)]
  | ms => (fun s => (p, Some s)) <$> ms
  end.

(** Lines 224 to 237 on one joined row. *)
Definition finalize_row (conflict_lots : list string)
    (pr : production_row * option shipping_row) : consolidated_row :=
  let '(p, s) := pr in
  let status := ship_status <$> s in
  let match_status := if bool_decide (is_Some status) then "matched" else "unmatched" in
  let q := p_quality p in
  {| c_production := p;
     c_ship_status := status;
     c_ship_date := s ≫= ship_date;
     shipping_source := s_source <$> s;
     shipping_raw_lot_id := s_raw_lot_id <$> s;
     shipping_match_status := match_status;
     c_needs_review := needs_review q || bool_decide (match_status = "unmatched");
     c_review_reason :=
       if bool_decide (0 < String.length (review_reason q))%nat
       then review_reason q else no_match_message;
     is_problematic_but_shipped :=
       line_issue p && bool_decide (status ∈ [Some "Shipped"; Some "Partial"]);
     has_conflict :=
       match conflict_lots, p_lot p with
       | [], _ => false
       | _, None => false
       | lots, Some l => bool_decide (l ∈ lots)
       end;
     raw_lot_aliases := None |}.

(** [alias_lookup[lot].add(str(raw))] *)
Definition add_alias (lookup : gmap string (gset string))
    (lot : option string) (raw : value) : gmap string (gset string) :=
  match lot with
  | Some l => <[l := default ∅ (lookup !! l) ∪ {[str raw]}]> lookup
  | None => lookup
  end.

Definition alias_lookup_of (production : list production_row)
    (shipping : list shipping_row) : gmap string (gset string) :=
  let after_production :=
    foldl (fun m r => add_alias m (p_lot r) (p_raw_lot_id r)) ∅ production in
  foldl (fun m r => add_alias m (s_lot r) (s_raw_lot_id r)) after_production shipping.

(** [sorted(alias_lookup.get(lot, set()))] *)
Definition aliases_of (lookup : gmap string (gset string))
    (lot : option string) : list string :=
  sorted_strings (default ∅ (lot ≫= fun l => lookup !! l)).

Definition with_aliases (lookup : gmap string (gset string))
    (r : consolidated_row) : consolidated_row :=
  {| c_production := c_production r;
     c_ship_status := c_ship_status r;
     c_ship_date := c_ship_date r;
     shipping_source := shipping_source r;
     shipping_raw_lot_id := shipping_raw_lot_id r;
     shipping_match_status := shipping_match_status r;
     c_needs_review := c_needs_review r;
     c_review_reason := c_review_reason r;
     is_problematic_but_shipped := is_problematic_but_shipped r;
     has_conflict := has_conflict r;
     raw_lot_aliases := Some (aliases_of lookup (c_lot r)) |}.

Section consolidate.
Variable to_datetime : value -> option Timestamp.

Definition consolidate_logs (production_df : list production_input)
    (shipping_df : list shipping_input) (include_flagged : bool)
    : result ConsolidationResult :=
  let production := _prepare_production to_datetime production_df in
  let shipping := _prepare_shipping to_datetime shipping_df in
  let shipping_latest := _latest_shipping_by_lot shipping in
  let joined := merge_left production shipping_latest in
  conflict_rows ← _detect_conflicts production shipping;
  let conflict_lots := conflict_lot <$> conflict_rows in
  let consolidated := finalize_row conflict_lots <$> joined in
  let flagged_rows := filter (fun r => c_needs_review r = true) consolidated in
  let consolidated :=
    if include_flagged then consolidated
    else filter (fun r => c_needs_review r = false) consolidated in
  let alias_lookup := alias_lookup_of production shipping in
  let consolidated := with_aliases alias_lookup <$> consolidated in
  Ok {| production := production;
        shipping := shipping;
        consolidated := consolidated;
        flagged_rows := flagged_rows;
        conflict_rows := conflict_rows |}.
End consolidate.

End consolidation.

(** ** reporting.py: week bounds and the weekly summary *)

Module reporting.
Import Py Frame consolidation.
Import normalization (Timestamp, ts_normalize, ns_per_day).

(** [Timestamp.weekday()]: Monday is 0; 1970-01-01 was a Thursday. *)
Definition weekday (t : Timestamp) : Z := (t / ns_per_day + 3) mod 7.

Definition week_bounds (anchor_date : Timestamp) : Timestamp * Timestamp :=
  let normalized := ts_normalize anchor_date in
  let start := normalized - weekday normalized * ns_per_day in
  let end_ := start + 6 * ns_per_day in
  (start, end_).

Record AppConfig : Type := mkAppConfig {
  issue_rule_text : string;
  not_found_shipping_label : string;
  comparison_period_days : Z
}.

Record ranking_row : Type := mkRanking {
  rk_production_line : option string;
  issue_count : nat;
  total_rows : nat;
  unique_lots : nat
}.

Record trending_row : Type := mkTrending {
  issue_category : string;
  current_count : Z;
  previous_count : Z;
  delta : Z;
  direction : string
}.

Record WeeklySummaryResult : Type := mkWeeklySummary {
  week_start : Timestamp;
  week_end : Timestamp;
  ranking : list ranking_row;
  trending : list trending_row
}.

Definition c_line (r : consolidated_row) : option string :=
  production_line (c_production r).
Definition c_issue (r : consolidated_row) : bool :=
  line_issue (c_production r).

(** [(df[production_date] >= lo) & (df[production_date] <= hi)]; a
    comparison with [NaT] is false. *)
Definition in_window (lo hi : Timestamp) (r : consolidated_row) : bool :=
  match production_date (c_production r) with
  | Some d => bool_decide (lo ≤ d) && bool_decide (d ≤ hi)
  | None => false
  end.

(** The keys of [groupby(production_line, dropna=False)], in the order
    the grouped frame lists them: ascending, the null key last. *)
Definition line_keys (rows : list consolidated_row) : list (option string) :=
  sort_values text_le (drop_duplicates id (c_line <$> rows)).

(** The three aggregates of one group. *)
Definition aggregate_line (rows : list consolidated_row)
    (line : option string) : ranking_row :=
  let group := filter (fun r => c_line r = line) rows in
  {| rk_production_line := line;
     issue_count := length (filter (fun r => c_issue r = true) group);
     total_rows := length group;
     unique_lots := size (list_to_set (omap c_lot group) : gset string) |}.

(** [sort_values([issue_count, total_rows, production_line],
    ascending=[False, False, True])] *)
Definition ranking_le (a b : ranking_row) : bool :=
  if decide (issue_count a = issue_count b) then
    if decide (total_rows a = total_rows b) then
      text_le (rk_production_line a) (rk_production_line b)
    else bool_decide (total_rows b < total_rows a)%nat
  else bool_decide (issue_count b < issue_count a)%nat.

Definition ranking_of (current : list consolidated_row) : list ranking_row :=
  sort_values ranking_le (aggregate_line current <$> line_keys current).

(** [primary_issue.fillna(Unspecified)] on the rows with an issue. *)
Definition issue_categories (rows : list consolidated_row) : list string :=
  (fun r => default "Unspecified" (primary_issue (c_production r)))
    <$> filter (fun r => c_issue r = true) rows.

Definition count_of (c : string) (l : list string) : Z :=
  Z.of_nat (length (filter (fun x => x = c) l)).

Definition trending_row_of (cur prev : list string) (c : string) : trending_row :=
  let d := count_of c cur - count_of c prev in
  {| issue_category := c;
     current_count := count_of c cur;
     previous_count := count_of c prev;
     delta := d;
     direction := if bool_decide (0 < d) then "up"
                  else if bool_decide (d < 0) then "down" else "flat" |}.

(** [sort_values([current_count, delta, issue_category],
    ascending=[False, False, True])] *)
Definition trending_le (a b : trending_row) : bool :=
  if decide (current_count a = current_count b) then
    if decide (delta a = delta b) then String.leb (issue_category a) (issue_category b)
    else bool_decide (delta b < delta a)
  else bool_decide (current_count b < current_count a).

Definition trending_of (current previous : list consolidated_row) : list trending_row :=
  let cur := issue_categories current in
  let prev := issue_categories previous in
  sort_values trending_le
    (trending_row_of cur prev <$> drop_duplicates id (cur ++ prev)%list).

Definition weekly_summary (config : AppConfig)
    (consolidated : list consolidated_row) (anchor_date : Timestamp)
    : WeeklySummaryResult :=
  let '(week_start, week_end) := week_bounds anchor_date in
  let prev_start := week_start - comparison_period_days config * ns_per_day in
  let prev_end := week_end - comparison_period_days config * ns_per_day in
  let current := filter (fun r => in_window week_start week_end r = true) consolidated in
  let previous := filter (fun r => in_window prev_start prev_end r = true) consolidated in
  {| week_start := week_start;
     week_end := week_end;
     ranking := ranking_of current;
     trending := trending_of current previous |}.

(** A row of the frame [drill_down_by_line] returns: the consolidated row
    and the two display columns. *)
Record line_drill_row : Type := mkLineDrill {
  ld_row : consolidated_row;
  ld_shipping_status_display : string;
  latest_ship_date_display : option Timestamp
}.

(** A row of the frame [drill_down_by_category] returns: the consolidated
    row, the display column and the recomputed flag. *)
Record category_drill_row : Type := mkCategoryDrill {
  cd_row : consolidated_row;
  cd_shipping_status_display : string;
  cd_is_problematic_but_shipped : bool
}.

(** [sort_values([production_date, canonical_lot_id],
    ascending=[False, True])] *)
Definition drill_le (a b : consolidated_row) : bool :=
  if decide (production_date (c_production a) = production_date (c_production b))
  then text_le (c_lot a) (c_lot b)
  else desc_le (production_date (c_production a)) (production_date (c_production b)).

(** [rows[ship_status].fillna(label)] *)
Definition status_display (config : AppConfig) (r : consolidated_row) : string :=
  default (not_found_shipping_label config) (c_ship_status r).

Definition drill_down_by_line (config : AppConfig)
    (consolidated : list consolidated_row) (line_name : string)
    (anchor_date : Timestamp) : list line_drill_row :=
  let '(week_start, week_end) := week_bounds anchor_date in
  let rows :=
    filter (fun r => c_line r = Some line_name
                     ∧ in_window week_start week_end r = true
                     ∧ c_issue r = true) consolidated in
  let rows :=
    (fun r => {| ld_row := r;
                 ld_shipping_status_display := status_display config r;
                 latest_ship_date_display := c_ship_date r |}) <$> rows in
  sort_values (fun a b => drill_le (ld_row a) (ld_row b)) rows.

(** [primary_issue.fillna(Unspecified)] *)
Definition c_category (r : consolidated_row) : string :=
  default "Unspecified" (primary_issue (c_production r)).

Definition drill_down_by_category (config : AppConfig)
    (consolidated : list consolidated_row) (category : string)
    (anchor_date : Timestamp) (include_previous_period : bool)
    : list category_drill_row :=
  let '(week_start, week_end) := week_bounds anchor_date in
  let frame :=
    if include_previous_period then
      let prev_start := week_start - comparison_period_days config * ns_per_day in
      filter (fun r => in_window prev_start week_end r = true) consolidated
    else filter (fun r => in_window week_start week_end r = true) consolidated in
  let rows :=
    filter (fun r => c_issue r = true ∧ c_category r = category) frame in
  let rows :=
    (fun r => {| cd_row := r;
                 cd_shipping_status_display := status_display config r;
                 cd_is_problematic_but_shipped :=
                   bool_decide (status_display config r ∈ ["Shipped"; "Partial"]) |})
      <$> rows in
  sort_values (fun a b => drill_le (cd_row a) (cd_row b)) rows.

End reporting.

(** ** io.py: column names *)

Module io.
Import Py.

(** [s.replace(old, new)] for single characters. *)
Fixpoint replace_char (old new : ascii) (s : string) : string :=
  match s with
  | EmptyString => EmptyString
  | String c r =>
      String (if decide (c = old) then new else c) (replace_char old new r)
  end.

(** The name [_normalize_columns] gives one column:
    [str(col).strip().lower()] with spaces and slashes turned into
    underscores. *)
Definition normalize_column (col : value) : string :=
  replace_char "/" "_" (replace_char " " "_" (lower (strip (str col)))).

Definition _normalize_columns (columns : list value) : list string :=
  normalize_column <$> columns.

(** The image of a text under a map of its characters: [lower], [upper]
    and the single-character [replace] all have this shape. *)
Fixpoint map_chars (f : ascii -> ascii) (s : string) : string :=
  match s with
  | EmptyString => EmptyString
  | String c r => String (f c) (map_chars f r)
  end.

(** What the three character maps of [_normalize_columns] do to one
    character. *)
Definition column_char (c : ascii) : ascii :=
  let c := lower_char c in
  let c := if decide (c = " "%char) then "_"%char else c in
  if decide (c = "/"%char) then "_"%char else c.

(** A character a normalized column name can hold. *)
Definition clean_char (c : ascii) : bool :=
  negb (bool_decide (c = " "%char)) && negb (bool_decide (c = "/"%char))
  && bool_decide (lower_char c = c).

End io.

(** ** A date reader for running the pipeline on tables *)

Module dates.
Import Py.
Import normalization (Timestamp, ns_per_day).

(** Days from 1970-01-01 to a date of the proleptic Gregorian calendar. *)
Definition days_from_civil (y m d : Z) : Z :=
  let y' := if m <=? 2 then y - 1 else y in
  let era := y' / 400 in
  let yoe := y' - era * 400 in
  let mp := if 2 <? m then m - 3 else m + 9 in
  let doy := (153 * mp + 2) / 5 + d - 1 in
  let doe := yoe * 365 + yoe / 4 - yoe / 100 + doy in
  era * 146097 + doe - 719468.

Definition is_leap (y : Z) : bool :=
  ((y mod 4 =? 0) && negb (y mod 100 =? 0)) || (y mod 400 =? 0).

Definition days_in_month (y m : Z) : Z :=
  if m =? 2 then (if is_leap y then 29 else 28)
  else if (m =? 4) || (m =? 6) || (m =? 9) || (m =? 11) then 30 else 31.

Definition midnight (y m d : Z) : option Timestamp :=
  if (1 <=? m) && (m <=? 12) && (1 <=? d) && (d <=? days_in_month y m)
  then Some (days_from_civil y m d * ns_per_day) else None.

Fixpoint number_from (acc : Z) (s : string) : option Z :=
  match s with
  | EmptyString => Some acc
  | String c r =>
      if isdigit c then number_from (10 * acc + Z.of_N (code c - 48)) r else None
  end.

Definition number (s : string) : option Z :=
  match s with
  | EmptyString => None
  | _ => number_from 0 s
  end.

Definition field (start len : nat) (s : string) : option Z :=
  number (String.substring start len s).

Definition char_at (i : nat) (s : string) : option ascii := String.get i s.

(** Reads the three layouts of the test fixtures, [YYYY-MM-DD],
    [MM/DD/YYYY] and [YYYY/MM/DD], as [pd.to_datetime] does; every other
    cell is [NaT] here. It instantiates the parameter [to_datetime] where
    the pipeline is run on a concrete table. *)
Definition to_datetime (v : value) : option Timestamp :=
  match v with
  | VStr s =>
      if bool_decide (String.length s = 10%nat) then
        if bool_decide (char_at 4 s = Some "-"%char ∧ char_at 7 s = Some "-"%char)
           || bool_decide (char_at 4 s = Some "/"%char ∧ char_at 7 s = Some "/"%char)
        then
          y ← field 0 4 s; m ← field 5 2 s; d ← field 8 2 s; midnight y m d
        else if bool_decide (char_at 2 s = Some "/"%char ∧ char_at 5 s = Some "/"%char)
        then
          m ← field 0 2 s; d ← field 3 2 s; y ← field 6 4 s; midnight y m d
        else None
      else None
  | _ => None
  end.

End dates.


(** ** The selection and membership notions the claims are stated with *)

Module selection.
Import Py Frame consolidation.
Import normalization (Timestamp).

(** The first row of a frame with a given key. *)
Definition first_by {A K : Type} `{EqDecision K} (key : A -> K) (k : K)
    (l : list A) : option A :=
  head (filter (fun x => key x = k) l).

(** The order on parsed dates the claims use: an absent date ranks lowest. *)
Definition date_le (a b : option Timestamp) : Prop :=
  match a, b with
  | None, _ => True
  | Some _, None => False
  | Some x, Some y => x <= y
  end.

Definition date_lt (a b : option Timestamp) : Prop := ¬ date_le b a.

(** The latest row of a lot, read off the frame from its last row to its
    first: an earlier row replaces the candidate when its date is not
    smaller, so among the rows with the greatest date the earliest stays. *)
Fixpoint latest_of_lot (lot : option string) (rows : list shipping_row)
    : option shipping_row :=
  match rows with
  | [] => None
  | x :: xs =>
      if decide (s_lot x = lot) then
        match latest_of_lot lot xs with
        | Some y => if desc_le (ship_date x) (ship_date y) then Some x else Some y
        | None => Some x
        end
      else latest_of_lot lot xs
  end.

(** The shipping row the join attaches to a lot: the latest one of the
    shipping frame, and none for a row without a lot. *)
Definition join_target (shipping : list shipping_row) (lot : option string)
    : option shipping_row :=
  lot ≫= fun l => latest_of_lot (Some l) shipping.

(** What the join did to a consolidated row, read against the shipping
    frame: either it attached the latest shipping row of the lot, or it
    found none and marked the row for review. *)
Definition joined_to_latest (shipping : list shipping_row)
    (r : consolidated_row) : Prop :=
  (shipping_match_status r = "matched"
   ∧ is_Some (c_lot r)
   ∧ exists s before after,
       shipping = before ++ s :: after
       ∧ s_lot s = c_lot r
       ∧ c_ship_status r = Some (ship_status s)
       ∧ c_ship_date r = ship_date s
       ∧ shipping_source r = Some (s_source s)
       ∧ shipping_raw_lot_id r = Some (s_raw_lot_id s)
       ∧ (forall s', s' ∈ before -> s_lot s' = s_lot s ->
                     date_lt (ship_date s') (ship_date s))
       ∧ (forall s', s' ∈ after -> s_lot s' = s_lot s ->
                     date_le (ship_date s') (ship_date s)))
  ∨ (shipping_match_status r = "unmatched"
     ∧ c_needs_review r = true
     ∧ c_ship_status r = None ∧ c_ship_date r = None
     ∧ shipping_source r = None ∧ shipping_raw_lot_id r = None
     ∧ forall s, s ∈ shipping -> is_Some (c_lot r) -> s_lot s <> c_lot r).

(** A lot is conflicted when its production rows name more than one
    production line, or its shipping rows more than one status. *)
Definition conflicted (production : list production_row)
    (shipping : list shipping_row) (lot : string) : Prop :=
  (1 < size (list_to_set
               (omap production_line
                  (filter (fun r => p_lot r = Some lot) production))
             : gset string))%nat
  ∨ (1 < size (list_to_set
                 (ship_status <$> filter (fun r => s_lot r = Some lot) shipping)
               : gset string))%nat.

#[global] Instance conflicted_dec production shipping lot :
  Decision (conflicted production shipping lot).
Proof. unfold conflicted. apply _. Defined.

(** What the ambiguity check of lines 73 to 77 and 120 to 123 leaves in
    the derived columns [q] of a row whose supplied normalized lot value
    is [provided_raw]. When the supplied value and the raw lot id both
    have a canonical id and the two differ, the row needs review, its
    reason is the ambiguity message alone, and there is no lot error to
    replace. When the raw lot id has no canonical id, nothing is compared:
    the row needs review for its lot error and keeps the reasons gathered
    before. The ambiguity message is the reason in the first case only. *)
Definition ambiguity_rule (provided_raw : value) (q : quality) : Prop :=
  (forall provided computed,
      normalization.canonical_lot_id (normalization.normalize_lot_id provided_raw)
      = Some provided ->
      canonical_lot_id q = Some computed ->
      provided <> computed ->
      needs_review q = true
      ∧ review_reason q = ambiguity_message
      ∧ lot_error_reason q = None)
  ∧ (canonical_lot_id q = None ->
     needs_review q = true
     ∧ is_Some (lot_error_reason q)
     ∧ review_reason q
       = fillna_empty (date_error_reason q) +:+ fillna_empty (lot_error_reason q))
  ∧ (review_reason q = ambiguity_message
     <-> exists provided computed,
           normalization.canonical_lot_id
             (normalization.normalize_lot_id provided_raw) = Some provided
           ∧ canonical_lot_id q = Some computed
           ∧ provided <> computed).

(** A column of text in ascending order, a null after every text. *)
Definition line_le (a b : option string) : Prop :=
  match a, b with
  | Some x, Some y => String.le x y
  | _, None => True
  | None, Some _ => False
  end.

(** The order of the ranking: more issues first, then more rows, then the
    line name. *)
Definition ranks_before (a b : reporting.ranking_row) : Prop :=
  (reporting.issue_count b < reporting.issue_count a)%nat
  ∨ (reporting.issue_count a = reporting.issue_count b
     ∧ ((reporting.total_rows b < reporting.total_rows a)%nat
        ∨ (reporting.total_rows a = reporting.total_rows b
           ∧ line_le (reporting.rk_production_line a)
                     (reporting.rk_production_line b)))).

(** The order of the trend table: the greater current count first, then
    the greater delta, then the category name. *)
Definition trends_before (a b : reporting.trending_row) : Prop :=
  reporting.current_count b < reporting.current_count a
  ∨ (reporting.current_count a = reporting.current_count b
     ∧ (reporting.delta b < reporting.delta a
        ∨ (reporting.delta a = reporting.delta b
           ∧ String.le (reporting.issue_category a) (reporting.issue_category b)))).

(** The order of the drill-down views: the later production date first,
    then the canonical lot id. *)
Definition drills_before (a b : consolidated_row) : Prop :=
  date_lt (production_date (c_production b)) (production_date (c_production a))
  ∨ (production_date (c_production a) = production_date (c_production b)
     ∧ line_le (c_lot a) (c_lot b)).

(** The issue rows of a category with a production date in a window. *)
Definition issues_of (rows : list consolidated_row) (lo hi : Timestamp)
    (category : string) : list consolidated_row :=
  filter (fun r => reporting.in_window lo hi r = true
                   ∧ reporting.c_issue r = true
                   ∧ reporting.c_category r = category) rows.

End selection.

(** ** The tables of tests/conftest.py and small variations of them *)

Module fixtures.
Import Py consolidation.

Definition prod_ref (row : Z) : source_ref := mkSource "prod.xlsx" "Production" row.
Definition ship_ref (row : Z) : source_ref := mkSource "ship.xlsx" "Shipping" row.

(** [production_df] *)
Definition production_df : list production_input :=
  [ mkProductionInput (prod_ref 2) (VStr " LOT_20260202-001 ") (Some "Line 1")
      (Some "Tool wear") (VStr "Yes") (VStr "2026-02-02") VNone;
    mkProductionInput (prod_ref 3) (VStr "L0T-20260203-001") (Some "Line 2")
      None (VStr "No") (VStr "02/03/2026") VNone;
    mkProductionInput (prod_ref 4) (VStr "LOT20260204001") (Some "Line 1")
      (Some "Sensor fault") (VStr "1") (VStr "2026/02/04") VNone;
    mkProductionInput (prod_ref 5) (VStr "BADLOT") (Some "Line 3")
      (Some "Material shortage") (VStr "Yes") (VStr "bad-date") VNone ].

(** [shipping_df] *)
Definition shipping_df : list shipping_input :=
  [ mkShippingInput (ship_ref 2) (VStr "LOT-20260202-001") (Some "Shipped")
      (VStr "2026-02-05") VNone;
    mkShippingInput (ship_ref 3) (VStr "LOT-20260203-001") (Some "On Hold")
      (VStr "2026-02-06") VNone;
    mkShippingInput (ship_ref 4) (VStr "LOT-20260203-001") (Some "Partial")
      (VStr "2026-02-07") VNone;
    mkShippingInput (ship_ref 5) (VStr "LOT-20260208-001") (Some "Shipped")
      (VStr "not-a-date") VNone ].

(** One clean production row and the shipping row of its lot. *)
Definition one_production : list production_input :=
  [ mkProductionInput (prod_ref 2) (VStr "LOT-20260202-001") (Some "Line 1")
      (Some "Tool wear") (VStr "Yes") (VStr "2026-02-02") VNone ].

Definition one_shipping : list shipping_input :=
  [ mkShippingInput (ship_ref 2) (VStr "LOT-20260202-001") (Some "Shipped")
      (VStr "2026-02-05") VNone ].

(** A lot with two shipping statuses and no production row. *)
Definition shipping_only_conflict : list shipping_input :=
  [ mkShippingInput (ship_ref 2) (VStr "LOT-20260203-001") (Some "On Hold")
      (VStr "2026-02-06") VNone;
    mkShippingInput (ship_ref 3) (VStr "LOT-20260203-001") (Some "Partial")
      (VStr "2026-02-07") VNone ].

(** One lot shipped four times: without a date, early, and twice on the
    latest day. *)
Definition tied_shipping : list shipping_input :=
  [ mkShippingInput (ship_ref 2) (VStr "LOT-20260203-001") (Some "On Hold")
      (VStr "not-a-date") VNone;
    mkShippingInput (ship_ref 3) (VStr "LOT-20260203-001") (Some "On Hold")
      (VStr "2026-02-06") VNone;
    mkShippingInput (ship_ref 4) (VStr "LOT_20260203_001") (Some "Partial")
      (VStr "2026-02-07") VNone;
    mkShippingInput (ship_ref 5) (VStr "LOT20260203001") (Some "Shipped")
      (VStr "02/07/2026") VNone;
    mkShippingInput (ship_ref 6) (VStr "no lot") (Some "Shipped")
      (VStr "2026-02-09") VNone ].

(** A raw lot id, a supplied normalized id of another lot, and a date that
    does not parse. *)
Definition ambiguous_production : production_input :=
  mkProductionInput (prod_ref 2) (VStr "LOT-20260202-001") (Some "Line 1")
    None (VStr "No") (VStr "bad-date") (VStr "LOT-20260202-002").

Definition ambiguous_shipping : shipping_input :=
  mkShippingInput (ship_ref 2) (VStr "LOT-20260202-001") None
    (VStr "bad-date") (VStr "LOT-20260202-002").

(** A raw lot id that does not normalize, beside a supplied normalized id
    that does. *)
Definition unresolved_production : production_input :=
  mkProductionInput (prod_ref 2) (VStr "BADLOT") (Some "Line 1")
    None (VStr "No") (VStr "2026-02-02") (VStr "LOT-20260202-002").

Definition unresolved_shipping : shipping_input :=
  mkShippingInput (ship_ref 2) (VStr "BADLOT") None
    (VStr "2026-02-05") (VStr "LOT-20260202-002").

(** Two production rows of the week of 2026-02-04 without a production
    line, one with an issue, and one row of Line 1; all three shipped. *)
Definition lineless_production : list production_input :=
  [ mkProductionInput (prod_ref 2) (VStr "LOT-20260202-001") None
      (Some "Tool wear") (VStr "Yes") (VStr "2026-02-02") VNone;
    mkProductionInput (prod_ref 3) (VStr "LOT-20260203-001") (Some "Line 1")
      None (VStr "Yes") (VStr "2026-02-03") VNone;
    mkProductionInput (prod_ref 4) (VStr "LOT-20260202-001") None
      None (VStr "No") (VStr "2026-02-04") VNone ].

Definition lineless_shipping : list shipping_input :=
  [ mkShippingInput (ship_ref 2) (VStr "LOT-20260202-001") (Some "Shipped")
      (VStr "2026-02-05") VNone;
    mkShippingInput (ship_ref 3) (VStr "LOT-20260203-001") (Some "Shipped")
      (VStr "2026-02-06") VNone ].

(** 2026-02-04, the anchor date of the tests. *)
Definition anchor : normalization.Timestamp := 1770163200000000000.

(** The consolidated frame of the lineless tables. *)
Definition lineless_consolidated : list consolidated_row :=
  match consolidate_logs dates.to_datetime lineless_production
          lineless_shipping false with
  | Exn.Ok res => consolidated res
  | Exn.Raise _ => []
  end.

(** The configuration of the tests. *)
Definition test_config : reporting.AppConfig :=
  reporting.mkAppConfig "Test rule" "Not Shipped Yet" 7.

End fixtures.

(** * Properties *)

Import Py Exn Frame normalization consolidation reporting selection fixtures.

(** ** Strings *)

Section string_facts.

Lemma append_cons c s t : String c s +:+ t = String c (s +:+ t).
Proof. reflexivity. Qed.

Lemma append_nil_l t : EmptyString +:+ t = t.
Proof. reflexivity. Qed.

Lemma append_nil_r s : s +:+ EmptyString = s.
Proof. induction s as [|c s IH]; [done|]. by rewrite append_cons, IH. Qed.

Lemma append_assoc s t u : (s +:+ t) +:+ u = s +:+ (t +:+ u).
Proof. induction s as [|c s IH]; [done|]. by rewrite !append_cons, IH. Qed.

Lemma all_chars_app P s t :
  all_chars P (s +:+ t) = all_chars P s && all_chars P t.
Proof.
  induction s as [|c s IH]; [done|].
  rewrite append_cons. simpl. by rewrite IH, andb_assoc.
Qed.

Lemma all_chars_impl (P Q : ascii -> bool) s :
  (forall c, P c = true -> Q c = true) ->
  all_chars P s = true -> all_chars Q s = true.
Proof.
  intros HPQ. induction s as [|c s IH]; [done|]. simpl.
  intros [Hc Hs]%andb_true_iff. rewrite (HPQ _ Hc). simpl. auto.
Qed.

(** A fact about one character, settled on each of the 256 codes. *)
Ltac by_ascii_cases c :=
  destruct c as [[] [] [] [] [] [] [] []]; vm_compute; congruence.

Lemma digit_not_space c : isdigit c = true -> isspace c = false.
Proof. by_ascii_cases c. Qed.

Lemma digit_not_separator c : isdigit c = true -> is_separator c = false.
Proof. by_ascii_cases c. Qed.

Lemma digit_not_lot_sep c : isdigit c = true -> is_lot_sep c = false.
Proof. by_ascii_cases c. Qed.

Lemma digit_upper c : isdigit c = true -> upper_char c = c.
Proof. by_ascii_cases c. Qed.

Lemma digit_not_L c : isdigit c = true -> c <> "L"%char.
Proof. intros H ->. vm_compute in H. congruence. Qed.

Lemma separator_upper c : is_separator c = true -> upper_char c = c.
Proof. by_ascii_cases c. Qed.

Lemma separator_not_L c : is_separator c = true -> c <> "L"%char.
Proof. intros H ->. vm_compute in H. congruence. Qed.

Lemma space_separator c : isspace c = true -> is_separator c = true.
Proof. unfold is_separator. by intros ->. Qed.

(** *** [take_digits] *)

Lemma take_digits_app n d r :
  digits n d -> take_digits n (d +:+ r) = Some (d, r).
Proof.
  intros [Hlen Hd]. revert n Hlen Hd.
  induction d as [|c d IH]; intros n Hlen Hd; simpl in Hlen; subst n; [done|].
  simpl in Hd. apply andb_true_iff in Hd as [Hc Hd].
  rewrite append_cons. simpl. rewrite Hc.
  by rewrite (IH (String.length d)).
Qed.

Lemma take_digits_all n d : digits n d -> take_digits n d = Some (d, EmptyString).
Proof. intros H. rewrite <- (append_nil_r d) at 1. by apply take_digits_app. Qed.

Lemma take_digits_spec n s d r :
  take_digits n s = Some (d, r) -> s = d +:+ r ∧ digits n d.
Proof.
  revert s d r. induction n as [|n IH]; intros s d r; simpl.
  { intros [= <- <-]. by repeat split. }
  destruct s as [|c s]; [done|].
  destruct (isdigit c) eqn:Hc; [|done].
  destruct (take_digits n s) as [[d' r']|] eqn:Ht; [|done].
  intros [= <- <-]. apply IH in Ht as [-> [Hlen Hd]].
  repeat split; simpl; [by rewrite Hlen|by rewrite Hc, Hd].
Qed.

(** *** The prefix and the two patterns *)

#[local] Arguments take_digits : simpl never.

Lemma strip_LOT_Some s r :
  strip_LOT s = Some r <-> s = String "L" (String "O" (String "T" r)).
Proof.
  split.
  - destruct s as [|a [|b [|c s]]]; simpl; try done.
    repeat case_bool_decide; simpl; try done. intros [= ->]. by subst.
  - intros ->. reflexivity.
Qed.

Lemma skip_lot_sep_digits d r :
  d <> EmptyString -> all_chars isdigit d = true -> skip_lot_sep (d +:+ r) = d +:+ r.
Proof.
  destruct d as [|c d]; [done|]. intros _. simpl.
  intros [Hc _]%andb_true_iff. rewrite append_cons. simpl.
  by rewrite (digit_not_lot_sep _ Hc).
Qed.

Lemma digits_nonempty n d : digits (S n) d -> d <> EmptyString.
Proof. intros [Hlen _] ->. done. Qed.

Lemma match_lot_here_canonical d8 d3 :
  digits 8 d8 -> digits 3 d3 ->
  match_lot_here (canonical d8 d3) = Some (d8, d3).
Proof.
  intros H8 H3. unfold match_lot_here, canonical. simpl.
  rewrite (take_digits_app 8 d8 _ H8). simpl.
  by rewrite (take_digits_all 3 d3 H3).
Qed.

Lemma search_lot_canonical d8 d3 :
  digits 8 d8 -> digits 3 d3 ->
  search_lot (canonical d8 d3) = Some (d8, d3).
Proof.
  intros H8 H3. pose proof (match_lot_here_canonical d8 d3 H8 H3) as Hm.
  unfold canonical in *. simpl search_lot. by rewrite Hm.
Qed.

Lemma match_lot_here_digits s g1 g2 :
  match_lot_here s = Some (g1, g2) -> digits 8 g1 ∧ digits 3 g2.
Proof.
  unfold match_lot_here. destruct (strip_LOT s) as [r|]; [|done].
  destruct (take_digits 8 _) as [[d8 r1]|] eqn:H8; [|done].
  destruct (take_digits 3 _) as [[d3 r2]|] eqn:H3; [|done].
  intros [= <- <-]. apply take_digits_spec in H8, H3. tauto.
Qed.

Lemma search_lot_digits s g1 g2 :
  search_lot s = Some (g1, g2) -> digits 8 g1 ∧ digits 3 g2.
Proof.
  induction s as [|c s IH]; simpl; [done|].
  destruct (match_lot_here (String c s)) as [g|] eqn:Hm; [|done].
  intros [= ->]. by apply match_lot_here_digits in Hm.
Qed.

Lemma restructure_compact d8 d3 :
  digits 8 d8 -> digits 3 d3 ->
  restructure (String "L" (String "O" (String "T" (d8 +:+ d3)))) = canonical d8 d3.
Proof.
  intros H8 H3. unfold restructure. simpl strip_LOT. cbv beta iota.
  rewrite (take_digits_app 8 d8 _ H8), (take_digits_all 3 d3 H3).
  simpl. by rewrite append_nil_r.
Qed.

End string_facts.

(** ** normalize_lot_id *)

Section normalization_facts.

#[local] Arguments take_digits : simpl never.

Lemma lstrip_app_nonspace a c x :
  isspace c = false -> lstrip (a +:+ String c x) = lstrip a +:+ String c x.
Proof.
  intros Hc. induction a as [|d a IH]; simpl.
  - by rewrite Hc.
  - by destruct (isspace d).
Qed.

Lemma rstrip_cons_nonspace c r :
  isspace c = false -> rstrip (String c r) = String c (rstrip r).
Proof. intros Hc. simpl. rewrite Hc. by destruct (rstrip r). Qed.

Lemma rstrip_app s t :
  rstrip t <> EmptyString -> rstrip (s +:+ t) = s +:+ rstrip t.
Proof.
  intros Ht. induction s as [|c s IH]; [done|].
  rewrite !append_cons. simpl. rewrite IH.
  destruct (s +:+ rstrip t) eqn:E; [|done].
  destruct s; [|done]. rewrite append_nil_l in E. done.
Qed.

Lemma all_chars_lstrip P s :
  all_chars P s = true -> all_chars P (lstrip s) = true.
Proof.
  induction s as [|c s IH]; [done|]. simpl.
  intros H. destruct (isspace c); [|done].
  apply andb_true_iff in H as [_ H]. auto.
Qed.

Lemma all_chars_rstrip P s :
  all_chars P s = true -> all_chars P (rstrip s) = true.
Proof.
  induction s as [|c s IH]; [done|]. simpl.
  intros [Hc Hs]%andb_true_iff. specialize (IH Hs).
  destruct (rstrip s) eqn:E.
  - destruct (isspace c); [done|]. simpl. by rewrite Hc.
  - simpl in *. by rewrite Hc, IH.
Qed.

Lemma remove_separators_app s t :
  remove_separators (s +:+ t) = remove_separators s +:+ remove_separators t.
Proof.
  induction s as [|c s IH]; [done|]. rewrite append_cons. simpl.
  destruct (is_separator c); [done|]. by rewrite append_cons, IH.
Qed.

Lemma remove_separators_all_sep s :
  all_chars is_separator s = true -> remove_separators s = EmptyString.
Proof.
  induction s as [|c s IH]; [done|]. simpl.
  intros [-> Hs]%andb_true_iff. auto.
Qed.

Lemma remove_separators_digits s :
  all_chars isdigit s = true -> remove_separators s = s.
Proof.
  induction s as [|c s IH]; [done|]. simpl.
  intros [Hc Hs]%andb_true_iff.
  by rewrite (digit_not_separator _ Hc), IH.
Qed.

Lemma remove_separators_rstrip s :
  remove_separators (rstrip s) = remove_separators s.
Proof.
  induction s as [|c s IH]; [done|]. simpl.
  destruct (rstrip s) eqn:E.
  - simpl in IH. rewrite <- IH.
    destruct (isspace c) eqn:Hc.
    + by rewrite (space_separator _ Hc).
    + simpl. by destruct (is_separator c).
  - change (remove_separators (String c (String a s0))) with
      (if is_separator c then remove_separators (String a s0)
       else String c (remove_separators (String a s0))).
    by rewrite IH.
Qed.

Lemma sep_or_digit_of_compact s :
  all_chars isdigit (remove_separators s) = true ->
  all_chars (fun c => is_separator c || isdigit c) s = true.
Proof.
  induction s as [|c s IH]; [done|]. simpl.
  destruct (is_separator c); simpl; [done|].
  intros [-> Hs]%andb_true_iff. auto.
Qed.

Lemma upper_app s t : upper (s +:+ t) = upper s +:+ upper t.
Proof.
  induction s as [|c s IH]; [done|]. rewrite append_cons. simpl.
  by rewrite IH.
Qed.

Lemma upper_fixed s :
  all_chars (fun c => is_separator c || isdigit c) s = true -> upper s = s.
Proof.
  induction s as [|c s IH]; [done|]. simpl.
  intros [Hc Hs]%andb_true_iff. rewrite (IH Hs). f_equal.
  apply orb_true_iff in Hc as [Hc|Hc];
    [by apply separator_upper|by apply digit_upper].
Qed.

Lemma replace_L0T_cons_ne c r :
  c <> "L"%char -> replace_L0T (String c r) = String c (replace_L0T r).
Proof.
  intros Hc. destruct r as [|c1 [|c2 r]]; simpl; try done.
  by rewrite (bool_decide_eq_false_2 _ Hc).
Qed.

Lemma replace_L0T_fixed s :
  all_chars (fun c => is_separator c || isdigit c) s = true -> replace_L0T s = s.
Proof.
  induction s as [|c s IH]; [done|].
  intros H. pose proof H as H'. simpl in H'.
  apply andb_true_iff in H' as [Hc Hs].
  rewrite replace_L0T_cons_ne, (IH Hs); [done|].
  apply orb_true_iff in Hc as [Hc|Hc];
    [by apply separator_not_L|by apply digit_not_L].
Qed.

Lemma replace_L0T_app_fixed a x :
  all_chars (fun c => is_separator c || isdigit c) a = true ->
  replace_L0T (a +:+ x) = a +:+ replace_L0T x.
Proof.
  induction a as [|c a IH]; [done|].
  intros H. simpl in H. apply andb_true_iff in H as [Hc Ha].
  rewrite !append_cons, replace_L0T_cons_ne, (IH Ha); [done|].
  apply orb_true_iff in Hc as [Hc|Hc];
    [by apply separator_not_L|by apply digit_not_L].
Qed.

(** Whenever the compacted text is exactly LOT and eleven digits, the id is
    accepted and rebuilt with the canonical separators. *)
Lemma normalize_of_compact raw d8 d3 :
  is_none_or_nan raw = false ->
  digits 8 d8 -> digits 3 d3 ->
  compact_of (upper (strip (str raw)))
    = String "L" (String "O" (String "T" (d8 +:+ d3))) ->
  normalize_lot_id raw = mkLotNormalization (Some (canonical d8 d3)) "ok" None.
Proof.
  intros Hnull H8 H3 Hc. unfold normalize_lot_id. rewrite Hnull.
  case_decide as Hblank.
  { rewrite Hblank in Hc. done. }
  fold (compact_of (upper (strip (str raw)))). rewrite Hc.
  by rewrite (restructure_compact _ _ H8 H3), (search_lot_canonical _ _ H8 H3).
Qed.

(** The prefix, written correctly or with a zero, between any separators. *)
Lemma normalize_variant a p b d8 d3 :
  p = "LOT" ∨ p = "L0T" ->
  all_chars is_separator a = true ->
  remove_separators b = d8 +:+ d3 ->
  digits 8 d8 -> digits 3 d3 ->
  normalize_lot_id (VStr (a +:+ p +:+ b))
    = mkLotNormalization (Some (canonical d8 d3)) "ok" None.
Proof.
  intros Hp Ha Hb H8 H3. apply normalize_of_compact; [done..|].
  assert (Hd : all_chars isdigit (d8 +:+ d3) = true).
  { rewrite all_chars_app. destruct H8 as [_ ->], H3 as [_ ->]. done. }
  assert (Hb' : all_chars (fun c => is_separator c || isdigit c) (rstrip b) = true).
  { apply all_chars_rstrip, sep_or_digit_of_compact. by rewrite Hb. }
  assert (Ha' : all_chars (fun c => is_separator c || isdigit c) (lstrip a) = true).
  { apply all_chars_lstrip. eapply all_chars_impl; [|exact Ha].
    by intros c ->. }
  assert (Hstrip : strip (a +:+ p +:+ b) = lstrip a +:+ p +:+ rstrip b).
  { unfold strip. destruct Hp as [-> | ->].
    - change (a +:+ "LOT" +:+ b) with (a +:+ String "L" (String "O" (String "T" b))).
      rewrite lstrip_app_nonspace by done. rewrite rstrip_app.
      + by rewrite !rstrip_cons_nonspace by done.
      + by rewrite !rstrip_cons_nonspace by done.
    - change (a +:+ "L0T" +:+ b) with (a +:+ String "L" (String "0" (String "T" b))).
      rewrite lstrip_app_nonspace by done. rewrite rstrip_app.
      + by rewrite !rstrip_cons_nonspace by done.
      + by rewrite !rstrip_cons_nonspace by done. }
  simpl str. rewrite Hstrip, !upper_app.
  rewrite (upper_fixed _ Ha'), (upper_fixed _ Hb').
  unfold compact_of. rewrite (replace_L0T_app_fixed _ _ Ha').
  assert (Hrep : replace_L0T (upper p +:+ rstrip b)
                 = String "L" (String "O" (String "T" (rstrip b)))).
  { destruct Hp as [-> | ->].
    - change (upper "LOT" +:+ rstrip b)
        with (String "L" (String "O" (String "T" (rstrip b)))).
      change (replace_L0T (String "L" (String "O" (String "T" (rstrip b)))))
        with (String "L" (replace_L0T (String "O" (String "T" (rstrip b))))).
      rewrite !replace_L0T_cons_ne by done.
      by rewrite (replace_L0T_fixed _ Hb').
    - change (upper "L0T" +:+ rstrip b)
        with (String "L" (String "0" (String "T" (rstrip b)))).
      simpl. by rewrite (replace_L0T_fixed _ Hb'). }
  rewrite Hrep, remove_separators_app.
  rewrite remove_separators_all_sep.
  - rewrite append_nil_l. simpl. by rewrite remove_separators_rstrip, Hb.
  - by apply all_chars_lstrip.
Qed.

Lemma normalize_canonical d8 d3 :
  digits 8 d8 -> digits 3 d3 ->
  normalize_lot_id (VStr (canonical d8 d3))
    = mkLotNormalization (Some (canonical d8 d3)) "ok" None.
Proof.
  intros H8 H3.
  change (canonical d8 d3)
    with (EmptyString +:+ "LOT" +:+ String "-" (d8 +:+ String "-" d3)) at 1.
  apply normalize_variant; [by left|done| |done..].
  simpl. rewrite remove_separators_app. simpl.
  destruct H8 as [_ H8], H3 as [_ H3].
  by rewrite !remove_separators_digits.
Qed.

Lemma separator_upper_iff c : is_separator (upper_char c) = is_separator c.
Proof. destruct c as [[] [] [] [] [] [] [] []]; vm_compute; reflexivity. Qed.

Lemma remove_separators_upper s :
  remove_separators (upper s) = upper (remove_separators s).
Proof.
  induction s as [|c s IH]; [done|]. simpl. rewrite separator_upper_iff.
  destruct (is_separator c); [done|]. simpl. by rewrite IH.
Qed.

Lemma remove_separators_lstrip s :
  remove_separators (lstrip s) = remove_separators s.
Proof.
  induction s as [|c s IH]; [done|]. simpl.
  destruct (isspace c) eqn:Hc; [|done].
  by rewrite (space_separator _ Hc).
Qed.

Lemma remove_separators_strip s :
  remove_separators (strip s) = remove_separators s.
Proof. unfold strip. by rewrite remove_separators_rstrip, remove_separators_lstrip. Qed.

(** A character that survives compaction stands in the text after a run of
    separators. *)
Lemma remove_separators_cons_inv t c u :
  remove_separators t = String c u ->
  exists seps t',
    t = seps +:+ String c t' ∧ all_chars is_separator seps = true
    ∧ remove_separators t' = u.
Proof.
  induction t as [|d t IH]; [done|]. simpl.
  destruct (is_separator d) eqn:Hd.
  - intros (seps & t' & -> & Hs & Hu)%IH.
    exists (String d seps), t'. simpl. by rewrite Hd, Hs.
  - intros [= -> <-]. by exists EmptyString, t.
Qed.

Lemma all_chars_of_compact (P : ascii -> bool) s :
  (forall c, is_separator c = true -> P c = true) ->
  all_chars P (remove_separators s) = true -> all_chars P s = true.
Proof.
  intros Hsep. induction s as [|c s IH]; [done|]. simpl.
  destruct (is_separator c) eqn:Hc.
  - intros H. by rewrite (Hsep _ Hc), IH.
  - simpl. intros [-> H]%andb_true_iff. by rewrite IH.
Qed.

Lemma replace_L0T_no_L s :
  all_chars (fun c => negb (bool_decide (c = "L"%char))) s = true ->
  replace_L0T s = s.
Proof.
  induction s as [|c s IH]; [done|]. simpl.
  intros [Hc Hs]%andb_true_iff.
  apply negb_true_iff, bool_decide_eq_false in Hc.
  change (replace_L0T (String c s) = String c s).
  by rewrite replace_L0T_cons_ne, IH.
Qed.

Lemma replace_L0T_app_sep a x :
  all_chars is_separator a = true ->
  replace_L0T (a +:+ x) = a +:+ replace_L0T x.
Proof.
  intros Ha. apply replace_L0T_app_fixed.
  eapply all_chars_impl; [|exact Ha]. by intros c ->.
Qed.

Lemma replace_L0T_L_next c r :
  c <> "0"%char ->
  replace_L0T (String "L" (String c r)) = String "L" (replace_L0T (String c r)).
Proof.
  intros Hc. destruct r as [|c2 r]; [done|].
  change (replace_L0T (String "L" (String c (String c2 r))))
    with (if bool_decide ("L"%char = "L"%char) && bool_decide (c = "0"%char)
             && bool_decide (c2 = "T"%char)
          then String "L" (String "O" (String "T" (replace_L0T r)))
          else String "L" (replace_L0T (String c (String c2 r)))).
  by rewrite (bool_decide_eq_false_2 _ Hc), andb_false_r.
Qed.

(** When the compacted text spells LOT and digits, no occurrence of the
    typo was there to correct. *)
Lemma replace_L0T_of_compact t ds :
  all_chars isdigit ds = true ->
  remove_separators t = String "L" (String "O" (String "T" ds)) ->
  replace_L0T t = t.
Proof.
  intros Hds Ht.
  apply remove_separators_cons_inv in Ht as (seps & t1 & -> & Hseps & Ht1).
  rewrite (replace_L0T_app_sep _ _ Hseps). f_equal.
  assert (Hno : all_chars (fun c => negb (bool_decide (c = "L"%char))) t1 = true).
  { apply all_chars_of_compact.
    - intros c Hc. apply negb_true_iff, bool_decide_eq_false.
      by apply separator_not_L.
    - rewrite Ht1. simpl. eapply all_chars_impl; [|exact Hds].
      intros c Hc. apply negb_true_iff, bool_decide_eq_false.
      by apply digit_not_L. }
  destruct t1 as [|c1 t1]; [done|].
  rewrite replace_L0T_L_next, (replace_L0T_no_L _ Hno); [done|].
  intros ->. simpl in Ht1. discriminate Ht1.
Qed.

(** The prefix spelt correctly, in either case, with separators anywhere. *)
Lemma normalize_separators_anywhere s d8 d3 :
  digits 8 d8 -> digits 3 d3 ->
  upper (remove_separators s) = String "L" (String "O" (String "T" (d8 +:+ d3))) ->
  normalize_lot_id (VStr s)
    = mkLotNormalization (Some (canonical d8 d3)) "ok" None.
Proof.
  intros H8 H3 Hs. apply normalize_of_compact; [done..|]. simpl str.
  assert (Hc : remove_separators (upper (strip s))
               = String "L" (String "O" (String "T" (d8 +:+ d3)))).
  { by rewrite remove_separators_upper, remove_separators_strip. }
  unfold compact_of. rewrite (replace_L0T_of_compact _ (d8 +:+ d3)); [done| |done].
  rewrite all_chars_app. by destruct H8 as [_ ->], H3 as [_ ->].
Qed.

(** An accepted id always has the canonical shape. *)
Lemma normalize_lot_id_ok_shape v c :
  normalization.canonical_lot_id (normalize_lot_id v) = Some c ->
  exists d8 d3, c = canonical d8 d3 ∧ digits 8 d8 ∧ digits 3 d3.
Proof.
  unfold normalize_lot_id. destruct (is_none_or_nan v); [done|].
  case_decide; [done|].
  destruct (search_lot _) as [[g1 g2]|] eqn:Hs; [|done].
  simpl. intros [= <-]. apply search_lot_digits in Hs. by exists g1, g2.
Qed.

End normalization_facts.

(** ** Claims about normalization.py *)

(** C1 (the code departs from the claim). The claim asks that an id be
    accepted only when the compacted text is exactly LOT, eight digits and
    three digits. Line 84 searches for the pattern anywhere in the text, so
    a core with a character before and after it, or with a twelfth digit, is
    accepted with status ok: on these two inputs the compacted text is not
    of the required form and the id is accepted all the same. *)
Theorem normalize_lot_id_accepts_embedded_core :
  compact_of (upper (strip (str (VStr "XLOT20260101001Y")))) = "XLOT20260101001Y"
  ∧ normalize_lot_id (VStr "XLOT20260101001Y")
    = mkLotNormalization (Some "LOT-20260101-001") "ok" None
  ∧ compact_of (upper (strip (str (VStr "LOT-20260101-0019")))) = "LOT202601010019"
  ∧ normalize_lot_id (VStr "LOT-20260101-0019")
    = mkLotNormalization (Some "LOT-20260101-001") "ok" None.
Proof. repeat split; vm_compute; reflexivity. Qed.

Lemma canonical_lot_id_present_iff_status_ok_aux v :
  normalization.status (normalize_lot_id v) = "ok"
  <-> is_Some (normalization.canonical_lot_id (normalize_lot_id v)).
Proof.
  unfold normalize_lot_id.
  destruct (is_none_or_nan v); simpl.
  { split; [done|by intros [? ?]]. }
  case_decide; simpl.
  { split; [done|by intros [? ?]]. }
  destruct (search_lot _) as [[g1 g2]|]; simpl.
  - split; [by eexists|done].
  - split; [done|by intros [? ?]].
Qed.

(** C8. For every result of [normalize_lot_id], and for every row of both
    prepared tables, the canonical lot id is present if and only if the
    normalization status is ok. *)
Theorem canonical_lot_id_present_iff_status_ok
    (to_datetime : value -> option Timestamp) :
  (forall v,
      is_Some (normalization.canonical_lot_id (normalize_lot_id v))
      <-> normalization.status (normalize_lot_id v) = "ok")
  ∧ (forall df,
        Forall (fun r => is_Some (p_lot r)
                         <-> lot_normalization_status (p_quality r) = "ok")
               (_prepare_production to_datetime df))
  ∧ (forall df,
        Forall (fun r => is_Some (s_lot r)
                         <-> lot_normalization_status (s_quality r) = "ok")
               (_prepare_shipping to_datetime df)).
Proof.
  assert (Hn : forall v,
      is_Some (normalization.canonical_lot_id (normalize_lot_id v))
      <-> normalization.status (normalize_lot_id v) = "ok").
  { intros v. symmetry. apply canonical_lot_id_present_iff_status_ok_aux. }
  assert (Hq : forall d r p,
      is_Some (canonical_lot_id (derive_quality to_datetime d r p))
      <-> lot_normalization_status (derive_quality to_datetime d r p) = "ok").
  { intros d r p. unfold derive_quality.
    destruct (parse_mixed_date to_datetime d) as [parsed date_error].
    simpl. apply Hn. }
  split; [exact Hn|]. split; intros df.
  - unfold _prepare_production. apply Forall_fmap, Forall_forall.
    intros r _. apply Hq.
  - unfold _prepare_shipping. apply Forall_fmap, Forall_forall.
    intros r _. apply Hq.
Qed.

(** *** A typo the correction of line 79 does not reach *)

Section split_typo_facts.

#[local] Arguments take_digits : simpl never.

Lemma replace_L0T_step c r :
  (forall r', c = "L"%char -> r <> String "0" (String "T" r')) ->
  replace_L0T (String c r) = String c (replace_L0T r).
Proof.
  intros Hno. destruct r as [|c1 [|c2 r']]; try done.
  change (replace_L0T (String c (String c1 (String c2 r'))))
    with (if bool_decide (c = "L"%char) && bool_decide (c1 = "0"%char)
             && bool_decide (c2 = "T"%char)
          then String "L" (String "O" (String "T" (replace_L0T r')))
          else String c (replace_L0T (String c1 (String c2 r')))).
  repeat case_bool_decide; simpl; try done.
  subst. by destruct (Hno r' eq_refl).
Qed.

(** Where the three characters do not stand together, nothing is replaced. *)
Lemma replace_L0T_absent t :
  (forall a b, t <> a +:+ "L0T" +:+ b) -> replace_L0T t = t.
Proof.
  induction t as [|c t IH]; [done|]. intros Hno.
  rewrite replace_L0T_step, IH; [done| |].
  - intros a b ->. by apply (Hno (String c a) b).
  - intros r' -> ->. by apply (Hno EmptyString r').
Qed.

Lemma lstrip_suffix s : exists l, s = l +:+ lstrip s.
Proof.
  induction s as [|c s [l IH]]; [by exists EmptyString|]. simpl.
  destruct (isspace c).
  - exists (String c l). by rewrite append_cons, <- IH.
  - by exists EmptyString.
Qed.

Lemma rstrip_prefix s : exists r, s = rstrip s +:+ r.
Proof.
  induction s as [|c s [r IH]]; [by exists EmptyString|]. simpl.
  destruct (rstrip s) as [|d u] eqn:Hu.
  - rewrite append_nil_l in IH. destruct (isspace c).
    + by exists (String c s).
    + exists s. by rewrite append_cons, append_nil_l.
  - exists r. by rewrite append_cons, <- IH.
Qed.

Lemma strip_infix s : exists l r, s = l +:+ strip s +:+ r.
Proof.
  unfold strip. destruct (lstrip_suffix s) as [l Hl].
  destruct (rstrip_prefix (lstrip s)) as [r Hr].
  exists l, r. by rewrite <- Hr.
Qed.

Lemma upper_strip_absent s :
  (forall a b, upper s <> a +:+ "L0T" +:+ b) ->
  forall a b, upper (strip s) <> a +:+ "L0T" +:+ b.
Proof.
  intros Hno a b Hab. destruct (strip_infix s) as (l & r & Hs).
  apply (Hno (upper l +:+ a) (b +:+ upper r)).
  rewrite Hs at 1. rewrite !upper_app, Hab. by rewrite !append_assoc.
Qed.

Lemma match_lot_here_no_L c s :
  c <> "L"%char -> match_lot_here (String c s) = None.
Proof.
  intros Hc. unfold match_lot_here. destruct s as [|c1 [|c2 r]]; try done.
  simpl. by rewrite (bool_decide_eq_false_2 _ Hc).
Qed.

Lemma search_lot_no_L s :
  all_chars (fun c => negb (bool_decide (c = "L"%char))) s = true ->
  search_lot s = None.
Proof.
  induction s as [|c s IH]; [done|]. simpl all_chars.
  intros [Hc Hs]%andb_true_iff.
  apply negb_true_iff, bool_decide_eq_false in Hc.
  change (search_lot (String c s))
    with (match match_lot_here (String c s) with
          | Some g => Some g
          | None => search_lot s
          end).
  by rewrite (match_lot_here_no_L _ _ Hc), IH.
Qed.

(** A text that spells the typo and the digits once the separators are out,
    but never has L, 0 and T next to each other, is rejected. *)
Lemma normalize_split_typo s d8 d3 :
  digits 8 d8 -> digits 3 d3 ->
  upper (remove_separators s) = "L0T" +:+ d8 +:+ d3 ->
  (forall a b, upper s <> a +:+ "L0T" +:+ b) ->
  normalize_lot_id (VStr s)
  = mkLotNormalization None "needs_review"
      (Some ("Lot ID does not match expected pattern: " +:+ repr (VStr s))).
Proof.
  intros H8 H3 Hs Hno. unfold normalize_lot_id. simpl is_none_or_nan. simpl str.
  cbv iota.
  assert (Hc : remove_separators (upper (strip s)) = "L0T" +:+ d8 +:+ d3).
  { by rewrite remove_separators_upper, remove_separators_strip. }
  case_decide as Hblank.
  { rewrite Hblank in Hc. done. }
  rewrite (replace_L0T_absent _ (upper_strip_absent _ Hno)), Hc.
  change ("L0T" +:+ d8 +:+ d3)
    with (String "L" (String "0" (String "T" (d8 +:+ d3)))).
  assert (Hre : restructure (String "L" (String "0" (String "T" (d8 +:+ d3))))
                = String "L" (String "0" (String "T" (d8 +:+ d3)))) by done.
  rewrite Hre.
  assert (Hsearch : search_lot (String "L" (String "0" (String "T" (d8 +:+ d3))))
                    = None).
  { change (search_lot (String "L" (String "0" (String "T" (d8 +:+ d3)))))
      with (match match_lot_here
                    (String "L" (String "0" (String "T" (d8 +:+ d3)))) with
            | Some g => Some g
            | None => search_lot (String "0" (String "T" (d8 +:+ d3)))
            end).
    assert (Hm : match_lot_here (String "L" (String "0" (String "T" (d8 +:+ d3))))
                 = None) by done.
    rewrite Hm. apply search_lot_no_L. simpl.
    rewrite all_chars_app. destruct H8 as [_ H8], H3 as [_ H3].
    apply andb_true_iff. split.
    - eapply all_chars_impl; [|exact H8]. intros c Hd.
      apply negb_true_iff, bool_decide_eq_false. by apply digit_not_L.
    - eapply all_chars_impl; [|exact H3]. intros c Hd.
      apply negb_true_iff, bool_decide_eq_false. by apply digit_not_L. }
  by rewrite Hsearch.
Qed.

End split_typo_facts.

(** C9, as amended. [normalize_lot_id] returns an already canonical id
    LOT-YYYYMMDD-XXX unchanged with status ok, so every id it accepts is a
    fixed point; and it is invariant under separators: every text that
    spells LOT and the eleven digits once whitespace, hyphens and
    underscores are taken out, wherever they stand, gets the id LOT-, the
    first eight digits, a hyphen, the last three. The typo L0T is corrected
    only where its three characters stand next to each other: such a text,
    with separators before the typo and anywhere around and between the
    digits, gets the same id; a text that spells L0T and the digits only
    once the separators are out is rejected with status needs_review. *)
Theorem normalize_lot_id_idempotent_and_separator_invariant :
  (forall d8 d3,
      digits 8 d8 -> digits 3 d3 ->
      normalize_lot_id (VStr ("LOT-" +:+ d8 +:+ "-" +:+ d3))
      = mkLotNormalization (Some ("LOT-" +:+ d8 +:+ "-" +:+ d3)) "ok" None)
  ∧ (forall v c,
        normalization.canonical_lot_id (normalize_lot_id v) = Some c ->
        normalize_lot_id (VStr c) = mkLotNormalization (Some c) "ok" None)
  ∧ (forall s d8 d3,
        digits 8 d8 -> digits 3 d3 ->
        upper (remove_separators s) = "LOT" +:+ d8 +:+ d3 ->
        normalize_lot_id (VStr s)
        = mkLotNormalization (Some ("LOT-" +:+ d8 +:+ "-" +:+ d3)) "ok" None)
  ∧ (forall a b d8 d3,
        digits 8 d8 -> digits 3 d3 ->
        all_chars is_separator a = true ->
        remove_separators b = d8 +:+ d3 ->
        normalize_lot_id (VStr (a +:+ "L0T" +:+ b))
        = mkLotNormalization (Some ("LOT-" +:+ d8 +:+ "-" +:+ d3)) "ok" None)
  ∧ (forall s d8 d3,
        digits 8 d8 -> digits 3 d3 ->
        upper (remove_separators s) = "L0T" +:+ d8 +:+ d3 ->
        (forall a b, upper s <> a +:+ "L0T" +:+ b) ->
        normalize_lot_id (VStr s)
        = mkLotNormalization None "needs_review"
            (Some ("Lot ID does not match expected pattern: " +:+ repr (VStr s)))).
Proof.
  split; [exact normalize_canonical|]. split; [|split; [|split]].
  - intros v c Hc.
    destruct (normalize_lot_id_ok_shape v c Hc) as (d8 & d3 & -> & H8 & H3).
    by apply normalize_canonical.
  - exact normalize_separators_anywhere.
  - intros a b d8 d3 H8 H3 Ha Hb. apply normalize_variant; auto.
  - exact normalize_split_typo.
Qed.

(** The four spellings the specification lists, one in lower case with a
    separator inside the prefix, and one with the typo between blanks, all
    give LOT-20260101-001; the typo with a blank inside it is rejected. *)
Lemma normalize_lot_id_invariant_witness :
  normalize_lot_id (VStr "LOT-20260101-001")
  = mkLotNormalization (Some "LOT-20260101-001") "ok" None
  ∧ normalize_lot_id (VStr "LOT_20260101_001")
    = mkLotNormalization (Some "LOT-20260101-001") "ok" None
  ∧ normalize_lot_id (VStr "LOT20260101001")
    = mkLotNormalization (Some "LOT-20260101-001") "ok" None
  ∧ normalize_lot_id (VStr "L0T-20260101-001")
    = mkLotNormalization (Some "LOT-20260101-001") "ok" None
  ∧ normalize_lot_id (VStr "l_ot 2026-01-01 001")
    = mkLotNormalization (Some "LOT-20260101-001") "ok" None
  ∧ normalize_lot_id (VStr " L0T 20260101_001 ")
    = mkLotNormalization (Some "LOT-20260101-001") "ok" None
  ∧ normalize_lot_id (VStr "L 0T20260101001")
    = mkLotNormalization None "needs_review"
        (Some "Lot ID does not match expected pattern: 'L 0T20260101001'").
Proof.
  pose proof normalize_lot_id_idempotent_and_separator_invariant
    as (Hcanon & _ & Hsep & Htypo & Hsplit).
  assert (H8 : digits 8 "20260101") by (split; reflexivity).
  assert (H3 : digits 3 "001") by (split; reflexivity).
  split; [exact (Hcanon "20260101" "001" H8 H3)|].
  split; [exact (Hsep "LOT_20260101_001" "20260101" "001" H8 H3 eq_refl)|].
  split; [exact (Hsep "LOT20260101001" "20260101" "001" H8 H3 eq_refl)|].
  split; [exact (Htypo "" "-20260101-001" "20260101" "001" H8 H3 eq_refl eq_refl)|].
  split; [exact (Hsep "l_ot 2026-01-01 001" "20260101" "001" H8 H3 eq_refl)|].
  split; [exact (Htypo " " " 20260101_001 " "20260101" "001" H8 H3 eq_refl eq_refl)|].
  apply (Hsplit "L 0T20260101001" "20260101" "001" H8 H3 eq_refl).
  intros a b Hab. simpl in Hab.
  repeat (destruct a as [|? a]; [discriminate Hab|injection Hab as _ Hab]).
  destruct a; discriminate Hab.
Defined.

(** C9, as stated, fails on a typo with a separator inside it. The text
    L-0T20260101001 differs from the accepted L0T20260101001 by one hyphen
    only, and the two are the same once the separators are out; the typo is
    corrected as the literal three characters before the separators are
    removed (line 79 runs before line 81), so it stays uncorrected and the
    value is rejected. *)
Lemma normalize_lot_id_split_typo_counterexample :
  normalize_lot_id (VStr "L0T20260101001")
  = mkLotNormalization (Some "LOT-20260101-001") "ok" None
  ∧ remove_separators "L-0T20260101001" = "L0T20260101001"
  ∧ normalize_lot_id (VStr "L-0T20260101001")
    = mkLotNormalization None "needs_review"
        (Some "Lot ID does not match expected pattern: 'L-0T20260101001'").
Proof. repeat split; vm_compute; reflexivity. Qed.

(** ** parse_mixed_date *)




(** ** Stable sorting and first occurrences *)

Section sort_facts.
Context {A : Type} (le : A -> A -> bool).
Hypothesis le_trans : forall x y z, le x y = true -> le y z = true -> le x z = true.
Hypothesis le_total : forall x y, le x y = true ∨ le y x = true.

Let R (x y : A) : Prop := le x y = true.

Lemma insert_sorted_Permutation x l : insert_sorted le x l ≡ₚ x :: l.
Proof.
  induction l as [|y ys IH]; simpl; [done|].
  destruct (le x y); [done|]. rewrite IH. apply Permutation_swap.
Qed.

Lemma sort_values_Permutation l : sort_values le l ≡ₚ l.
Proof.
  induction l as [|x xs IH]; simpl; [done|].
  by rewrite insert_sorted_Permutation, IH.
Qed.

Lemma insert_sorted_StronglySorted x l :
  StronglySorted R l -> StronglySorted R (insert_sorted le x l).
Proof.
  induction l as [|y ys IH]; simpl; intros Hs.
  { repeat constructor. }
  apply StronglySorted_inv in Hs as [Hys Hy].
  destruct (le x y) eqn:Hxy.
  - constructor; [by constructor|]. constructor; [done|].
    eapply Forall_impl; [exact Hy|]. intros z Hz. by eapply le_trans.
  - constructor; [by apply IH|].
    rewrite insert_sorted_Permutation. constructor; [|done].
    destruct (le_total x y) as [H|H]; [congruence|done].
Qed.

Lemma sort_values_StronglySorted l : StronglySorted R (sort_values le l).
Proof.
  induction l as [|x xs IH]; simpl; [constructor|].
  by apply insert_sorted_StronglySorted.
Qed.
End sort_facts.

Section drop_duplicates_facts.
Context {A K : Type} `{EqDecision K} (key : A -> K).

Lemma first_by_cons k x l :
  first_by key k (x :: l) = if decide (key x = k) then Some x else first_by key k l.
Proof. unfold first_by. rewrite filter_cons. by case_decide. Qed.

Lemma first_by_Some k l x :
  first_by key k l = Some x ->
  key x = k ∧ exists before after,
    l = before ++ x :: after ∧ forall y, y ∈ before -> key y <> k.
Proof.
  induction l as [|y ys IH]; [done|]. rewrite first_by_cons.
  case_decide as Hy.
  - intros [= ->]. split; [done|]. exists [], ys. split; [done|].
    intros z Hz. by apply elem_of_nil in Hz.
  - intros (Hk & before & after & -> & Hb)%IH. split; [done|].
    exists (y :: before), after. split; [done|].
    intros z [->|Hz]%elem_of_cons; auto.
Qed.

Lemma first_by_None k l :
  first_by key k l = None <-> forall y, y ∈ l -> key y <> k.
Proof.
  induction l as [|y ys IH].
  { split; [|done]. intros _ z Hz. by apply elem_of_nil in Hz. }
  rewrite first_by_cons. case_decide as Hy.
  - split; [done|]. intros H. exfalso. apply (H y); [left|done].
  - rewrite IH. split.
    + intros H z [->|Hz]%elem_of_cons; auto.
    + intros H z Hz. apply H. by right.
Qed.

Lemma first_by_drop_duplicates_from seen k l :
  first_by key k (drop_duplicates_from key seen l)
  = if decide (k ∈ seen) then None else first_by key k l.
Proof.
  revert seen. induction l as [|x xs IH]; intros seen; simpl.
  { by case_decide. }
  destruct (decide (key x ∈ seen)) as [Hin|Hin].
  - rewrite IH, first_by_cons. case_decide; [done|].
    case_decide; [by subst|done].
  - rewrite !first_by_cons. destruct (decide (key x = k)) as [<-|Hk].
    + by case_decide.
    + rewrite IH.
      destruct (decide (k ∈ key x :: seen)) as [Hin'|Hin'];
        destruct (decide (k ∈ seen)) as [Hs|Hs]; try done.
      * apply elem_of_cons in Hin' as [->|?]; done.
      * exfalso. apply Hin'. by right.
Qed.

Lemma first_by_drop_duplicates k l :
  first_by key k (drop_duplicates key l) = first_by key k l.
Proof.
  unfold drop_duplicates. rewrite first_by_drop_duplicates_from.
  case_decide as H; [|done]. by apply elem_of_nil in H.
Qed.

Lemma drop_duplicates_from_keys seen l :
  NoDup (key <$> drop_duplicates_from key seen l)
  ∧ forall x, x ∈ drop_duplicates_from key seen l -> x ∈ l ∧ key x ∉ seen.
Proof.
  revert seen. induction l as [|x xs IH]; intros seen; simpl.
  { split; [constructor|]. intros y Hy. by apply elem_of_nil in Hy. }
  destruct (decide (key x ∈ seen)) as [Hin|Hin].
  - destruct (IH seen) as [Hnd Hel]. split; [done|].
    intros y Hy. destruct (Hel y Hy). split; [by right|done].
  - destruct (IH (key x :: seen)) as [Hnd Hel]. split.
    + rewrite fmap_cons. constructor; [|done].
      intros (y & Hk & Hy)%list_elem_of_fmap.
      destruct (Hel y Hy) as [_ Hns]. apply Hns. rewrite <- Hk. by left.
    + intros y [->|Hy]%elem_of_cons; [split; [by left|done]|].
      destruct (Hel y Hy) as [? Hns]. split; [by right|].
      intros ?. apply Hns. by right.
Qed.

Lemma NoDup_drop_duplicates l : NoDup (key <$> drop_duplicates key l).
Proof. apply drop_duplicates_from_keys. Qed.

(** With distinct keys, a row belongs to the frame exactly when it is
    the first row of its key. *)
Lemma elem_of_NoDup_keys l x :
  NoDup (key <$> l) -> x ∈ l <-> first_by key (key x) l = Some x.
Proof.
  induction l as [|y ys IH]; [by split; [intros ?%elem_of_nil|]|].
  rewrite fmap_cons, NoDup_cons. intros [Hy Hnd].
  rewrite first_by_cons, elem_of_cons. case_decide as Hk.
  - split; [|by intros [= ->]; left].
    intros [->|Hx]; [done|]. exfalso. apply Hy. rewrite Hk.
    by apply list_elem_of_fmap_2.
  - rewrite <- (IH Hnd). split; [|by right].
    intros [->|Hx]; [done|done].
Qed.

Lemma elem_of_drop_duplicates l x :
  x ∈ drop_duplicates key l <-> first_by key (key x) l = Some x.
Proof.
  rewrite (elem_of_NoDup_keys _ _ (NoDup_drop_duplicates l)).
  by rewrite first_by_drop_duplicates.
Qed.
End drop_duplicates_facts.

Lemma StronglySorted_filter_list {A : Type} (R : relation A) (P : A -> Prop)
    `{forall x, Decision (P x)} (l : list A) :
  StronglySorted R l -> StronglySorted R (filter P l).
Proof.
  induction 1 as [|x l Hs IH Hx]; [constructor|]. rewrite filter_cons.
  case_decide; [|done]. constructor; [done|].
  apply Forall_forall. intros y [_ Hy]%list_elem_of_filter.
  rewrite Forall_forall in Hx. by apply Hx.
Qed.

(** [sorted] of a set lists its members once each, in ascending order. *)
Lemma sorted_strings_spec (s : gset string) :
  Sorted String.le (sorted_strings s) ∧ NoDup (sorted_strings s)
  ∧ forall x, x ∈ sorted_strings s <-> x ∈ s.
Proof.
  unfold sorted_strings. split; [apply Sorted_merge_sort; apply _|].
  split.
  - rewrite merge_sort_Permutation. apply NoDup_elements.
  - intros x. rewrite merge_sort_Permutation. apply elem_of_elements.
Qed.

(** ** The latest shipping row of a lot *)

Section latest_facts.

Lemma text_le_trans a b c :
  text_le a b = true -> text_le b c = true -> text_le a c = true.
Proof.
  destruct a as [x|], b as [y|], c as [z|]; simpl; try done.
  intros Hxy%Is_true_true Hyz%Is_true_true. apply Is_true_true.
  by apply (transitivity (R:=String.le) (y:=y)).
Qed.

Lemma text_le_total a b : text_le a b = true ∨ text_le b a = true.
Proof.
  destruct a as [x|], b as [y|]; simpl; auto.
  destruct (String.le_total x y) as [H|H]; [left|right]; by apply Is_true_true.
Qed.

Lemma text_le_antisym a b :
  text_le a b = true -> text_le b a = true -> a = b.
Proof.
  destruct a as [x|], b as [y|]; simpl; try done.
  intros Hxy%Is_true_true Hyx%Is_true_true. f_equal.
  by apply (anti_symm String.le).
Qed.

Lemma desc_le_date_le a b : desc_le a b = true <-> date_le b a.
Proof.
  destruct a as [x|], b as [y|]; simpl; try done.
  by rewrite bool_decide_eq_true.
Qed.

Lemma date_le_trans a b c : date_le a b -> date_le b c -> date_le a c.
Proof. destruct a, b, c; simpl; try done. lia. Qed.

Lemma date_le_total a b : date_le a b ∨ date_le b a.
Proof. destruct a, b; simpl; auto. lia. Qed.

Lemma date_lt_le a b : date_lt a b -> date_le a b.
Proof. unfold date_lt. destruct (date_le_total a b); tauto. Qed.

Lemma desc_le_trans a b c :
  desc_le a b = true -> desc_le b c = true -> desc_le a c = true.
Proof. rewrite !desc_le_date_le. intros ? ?. by eapply date_le_trans. Qed.

Lemma desc_le_total a b : desc_le a b = true ∨ desc_le b a = true.
Proof. rewrite !desc_le_date_le. destruct (date_le_total a b); auto. Qed.

Lemma latest_le_same a b :
  s_lot a = s_lot b -> latest_le a b = desc_le (ship_date a) (ship_date b).
Proof. intros H. unfold latest_le. by case_decide. Qed.

Lemma latest_le_other a b :
  s_lot a <> s_lot b -> latest_le a b = text_le (s_lot a) (s_lot b).
Proof. intros H. unfold latest_le. by case_decide. Qed.

Lemma latest_le_trans a b c :
  latest_le a b = true -> latest_le b c = true -> latest_le a c = true.
Proof.
  destruct (decide (s_lot a = s_lot b)) as [Hab|Hab];
    destruct (decide (s_lot b = s_lot c)) as [Hbc|Hbc].
  - rewrite !latest_le_same by congruence. apply desc_le_trans.
  - rewrite (latest_le_same a b), !latest_le_other by congruence.
    intros _. by rewrite Hab.
  - rewrite (latest_le_same b c), !latest_le_other by congruence.
    intros H _. by rewrite <- Hbc.
  - rewrite (latest_le_other a b), (latest_le_other b c) by done.
    intros H1 H2. destruct (decide (s_lot a = s_lot c)) as [Hac|Hac].
    + exfalso. apply Hab. apply text_le_antisym; [done|]. by rewrite Hac.
    + rewrite latest_le_other by done. by eapply text_le_trans.
Qed.

Lemma latest_le_total a b : latest_le a b = true ∨ latest_le b a = true.
Proof.
  destruct (decide (s_lot a = s_lot b)) as [Hab|Hab].
  - rewrite !latest_le_same by congruence. apply desc_le_total.
  - rewrite !latest_le_other by congruence. apply text_le_total.
Qed.

Lemma first_by_insert_latest lot x l :
  StronglySorted (fun a b => latest_le a b = true) l ->
  first_by s_lot lot (insert_sorted latest_le x l)
  = if decide (s_lot x = lot) then
      match first_by s_lot lot l with
      | Some y => if desc_le (ship_date x) (ship_date y) then Some x else Some y
      | None => Some x
      end
    else first_by s_lot lot l.
Proof.
  induction l as [|y ys IH]; intros Hs; simpl.
  { rewrite first_by_cons. by case_decide. }
  apply StronglySorted_inv in Hs as [Hys Hy].
  destruct (latest_le x y) eqn:Hxy.
  - rewrite first_by_cons. case_decide as Hx; [|done].
    destruct (first_by s_lot lot (y :: ys)) as [w|] eqn:Hw; [|done].
    apply first_by_Some in Hw as (Hlot & before & after & Heq & _).
    assert (Hxw : latest_le x w = true).
    { destruct before as [|b before]; simpl in Heq.
      - by injection Heq as -> _.
      - injection Heq as -> ->. eapply latest_le_trans; [exact Hxy|].
        rewrite Forall_forall in Hy. apply Hy.
        apply elem_of_app. right. by left. }
    rewrite latest_le_same in Hxw by congruence. by rewrite Hxw.
  - rewrite !first_by_cons. destruct (decide (s_lot y = lot)) as [Hyl|Hyl].
    + case_decide as Hx; [|done].
      rewrite latest_le_same in Hxy by congruence. by rewrite Hxy.
    + by apply IH.
Qed.

Lemma first_by_sort_latest lot l :
  first_by s_lot lot (sort_values latest_le l) = latest_of_lot lot l.
Proof.
  induction l as [|x xs IH]; simpl; [done|].
  rewrite first_by_insert_latest, IH; [done|].
  apply sort_values_StronglySorted; [apply latest_le_trans|apply latest_le_total].
Qed.

Lemma latest_of_lot_valid l lot :
  latest_of_lot (Some lot) (filter (fun r => is_Some (s_lot r)) l)
  = latest_of_lot (Some lot) l.
Proof.
  induction l as [|x xs IH]; [done|]. rewrite filter_cons.
  destruct (decide (is_Some (s_lot x))) as [Hx|Hx]; simpl.
  - by rewrite IH.
  - rewrite IH. case_decide as Hl; [|done].
    exfalso. apply Hx. rewrite Hl. by eexists.
Qed.

Lemma latest_of_lot_None lot l :
  latest_of_lot lot l = None <-> forall r, r ∈ l -> s_lot r <> lot.
Proof.
  induction l as [|x xs IH]; simpl.
  { split; [|done]. intros _ r Hr. by apply elem_of_nil in Hr. }
  case_decide as Hx.
  - split.
    + destruct (latest_of_lot lot xs); [by destruct (desc_le _ _)|done].
    + intros H. exfalso. apply (H x); [by left|done].
  - rewrite IH. split.
    + intros H r [->|Hr]%elem_of_cons; auto.
    + intros H r Hr. apply H. by right.
Qed.

(** The selected row lies in the frame, strictly later-dated than every
    row of its lot before it and at least as late as those after it. *)
Lemma latest_of_lot_Some lot l r :
  latest_of_lot lot l = Some r ->
  s_lot r = lot ∧ exists before after,
    l = before ++ r :: after
    ∧ (forall r', r' ∈ before -> s_lot r' = lot ->
                  date_lt (ship_date r') (ship_date r))
    ∧ (forall r', r' ∈ after -> s_lot r' = lot ->
                  date_le (ship_date r') (ship_date r)).
Proof.
  revert r. induction l as [|x xs IH]; intros r; simpl; [done|].
  case_decide as Hx.
  - destruct (latest_of_lot lot xs) as [y|] eqn:Hy.
    + destruct (IH y eq_refl) as (Hly & before & after & -> & Hb & Ha).
      destruct (desc_le (ship_date x) (ship_date y)) eqn:Hxy; intros [= <-].
      * apply desc_le_date_le in Hxy. split; [done|].
        exists [], (before ++ y :: after). split; [done|].
        split; [by intros r' ?%elem_of_nil|].
        intros r' [Hr|[->|Hr]%elem_of_cons]%elem_of_app Hl.
        -- eapply date_le_trans; [|exact Hxy]. by apply date_lt_le, Hb.
        -- done.
        -- eapply date_le_trans; [|exact Hxy]. by apply Ha.
      * split; [done|]. exists (x :: before), after. split; [done|].
        split; [|done].
        intros r' [->|Hr]%elem_of_cons Hl; [|by apply Hb].
        unfold date_lt. rewrite <- desc_le_date_le. by rewrite Hxy.
    + intros [= <-]. split; [done|]. exists [], xs. split; [done|].
      split; [by intros r' ?%elem_of_nil|].
      intros r' Hr Hl. exfalso.
      by apply (proj1 (latest_of_lot_None lot xs) Hy r' Hr).
  - intros (Hl & before & after & -> & Hb & Ha)%IH. split; [done|].
    exists (x :: before), after. split; [done|]. split; [|done].
    intros r' [->|Hr]%elem_of_cons Hl'; [done|by apply Hb].
Qed.

Lemma elem_of_latest_shipping shipping r :
  r ∈ _latest_shipping_by_lot shipping
  <-> is_Some (s_lot r) ∧ latest_of_lot (s_lot r) shipping = Some r.
Proof.
  unfold _latest_shipping_by_lot.
  rewrite elem_of_drop_duplicates, first_by_sort_latest. split.
  - intros H. assert (Hv : is_Some (s_lot r)).
    { apply latest_of_lot_Some in H as (_ & before & after & Heq & _).
      assert (Hin : r ∈ filter (fun r => is_Some (s_lot r)) shipping).
      { rewrite Heq. apply elem_of_app. right. by left. }
      by apply list_elem_of_filter in Hin as [? _]. }
    split; [done|]. destruct Hv as [lot Hlot]. rewrite Hlot in *.
    by rewrite latest_of_lot_valid in H.
  - intros [[lot Hlot] H]. rewrite Hlot in *.
    by rewrite latest_of_lot_valid.
Qed.

End latest_facts.

(** C6. [_latest_shipping_by_lot] keeps exactly one row for every
    canonical lot id of the shipping frame and no row without one; the row
    kept for a lot has the greatest parsed ship date of the lot, an absent
    date ranking lowest, and among the rows with that date it is the
    earliest of the input; and every shipping row the join attaches to a
    production row is one of these, so a row without a canonical lot id is
    never a join target. *)
Theorem latest_shipping_by_lot_selects_latest (shipping : list shipping_row) :
  NoDup (s_lot <$> _latest_shipping_by_lot shipping)
  ∧ (forall r, r ∈ _latest_shipping_by_lot shipping ->
               r ∈ shipping ∧ is_Some (s_lot r))
  ∧ (forall r, r ∈ shipping -> is_Some (s_lot r) ->
               exists r', r' ∈ _latest_shipping_by_lot shipping
                          ∧ s_lot r' = s_lot r)
  ∧ (forall r, r ∈ _latest_shipping_by_lot shipping ->
       exists before after,
         shipping = before ++ r :: after
         ∧ (forall r', r' ∈ before -> s_lot r' = s_lot r ->
                       date_lt (ship_date r') (ship_date r))
         ∧ (forall r', r' ∈ after -> s_lot r' = s_lot r ->
                       date_le (ship_date r') (ship_date r)))
  ∧ (forall production p s,
       (p, Some s) ∈ merge_left production (_latest_shipping_by_lot shipping) ->
       s ∈ _latest_shipping_by_lot shipping ∧ is_Some (s_lot s)
       ∧ s_lot s = p_lot p).
Proof.
  assert (Hdecomp : forall r, r ∈ _latest_shipping_by_lot shipping ->
       is_Some (s_lot r) ∧ exists before after,
         shipping = before ++ r :: after
         ∧ (forall r', r' ∈ before -> s_lot r' = s_lot r ->
                       date_lt (ship_date r') (ship_date r))
         ∧ (forall r', r' ∈ after -> s_lot r' = s_lot r ->
                       date_le (ship_date r') (ship_date r))).
  { intros r [Hv H]%elem_of_latest_shipping. split; [done|].
    by apply latest_of_lot_Some in H as [_ H]. }
  split; [apply NoDup_drop_duplicates|]. split.
  { intros r Hr. destruct (Hdecomp r Hr) as (Hv & before & after & -> & _).
    split; [|done]. apply elem_of_app. right. by left. }
  split.
  { intros r Hr Hv.
    destruct (latest_of_lot (s_lot r) shipping) as [r'|] eqn:Hl.
    - pose proof (latest_of_lot_Some _ _ _ Hl) as [Hlot _].
      exists r'. split; [|done]. apply elem_of_latest_shipping.
      rewrite Hlot. by split.
    - exfalso. by apply (proj1 (latest_of_lot_None _ _) Hl r Hr). }
  split.
  { intros r Hr. by destruct (Hdecomp r Hr) as [_ H]. }
  intros production p s Hin. unfold merge_left in Hin.
  apply list_elem_of_bind in Hin as (p' & Hin & _).
  destruct (filter _ _) as [|m ms] eqn:Hf.
  { by apply list_elem_of_singleton in Hin. }
  apply list_elem_of_fmap in Hin as (s' & [= -> ->] & Hs').
  rewrite <- Hf in Hs'. apply list_elem_of_filter in Hs' as [Hk Hs'].
  split; [done|]. split; [|done]. by destruct (Hdecomp _ Hs').
Qed.

(** On a lot shipped without a date, early, and twice on the latest day,
    the row kept is the first of the two latest ones (sheet row 4). *)
Lemma latest_shipping_by_lot_witness :
  s_source <$> _latest_shipping_by_lot (_prepare_shipping dates.to_datetime tied_shipping)
  = [ship_ref 4]
  ∧ forall r,
      r ∈ _latest_shipping_by_lot (_prepare_shipping dates.to_datetime tied_shipping) ->
      exists before after,
        _prepare_shipping dates.to_datetime tied_shipping = before ++ r :: after
        ∧ (forall r', r' ∈ before -> s_lot r' = s_lot r ->
                      date_lt (ship_date r') (ship_date r))
        ∧ (forall r', r' ∈ after -> s_lot r' = s_lot r ->
                      date_le (ship_date r') (ship_date r)).
Proof.
  split; [reflexivity|].
  exact (proj1 (proj2 (proj2 (proj2
           (latest_shipping_by_lot_selects_latest
              (_prepare_shipping dates.to_datetime tied_shipping)))))).
Defined.

(** ** Row preparation *)

Section prepare_facts.
Variable to_datetime : value -> option Timestamp.

Lemma derive_quality_lot d r p :
  canonical_lot_id (derive_quality to_datetime d r p)
  = normalization.canonical_lot_id (normalize_lot_id r).
Proof.
  unfold derive_quality. by destruct (parse_mixed_date to_datetime d).
Qed.

Lemma normalize_lot_id_null v :
  notna v = false -> normalization.canonical_lot_id (normalize_lot_id v) = None.
Proof.
  unfold notna, normalize_lot_id. by destruct (is_none_or_nan v).
Qed.

Lemma derive_quality_mismatch d r p provided computed :
  normalization.canonical_lot_id (normalize_lot_id p) = Some provided ->
  canonical_lot_id (derive_quality to_datetime d r p) = Some computed ->
  provided <> computed ->
  needs_review (derive_quality to_datetime d r p) = true
  ∧ review_reason (derive_quality to_datetime d r p) = ambiguity_message.
Proof.
  intros Hp Hc Hne. rewrite derive_quality_lot in Hc. unfold derive_quality.
  destruct (parse_mixed_date to_datetime d) as [parsed date_error]. simpl.
  destruct (notna p) eqn:Hna.
  - rewrite Hp, Hc.
    rewrite !bool_decide_eq_true_2 by (by eexists).
    rewrite bool_decide_eq_false_2 by congruence. done.
  - rewrite normalize_lot_id_null in Hp by done. done.
Qed.

(** Without a canonical id on the raw side nothing is compared: the
    accumulated reasons stay. *)
Lemma derive_quality_no_comparison d r p :
  canonical_lot_id (derive_quality to_datetime d r p) = None ->
  needs_review (derive_quality to_datetime d r p) = true
  ∧ review_reason (derive_quality to_datetime d r p)
    = fillna_empty (date_error_reason (derive_quality to_datetime d r p))
      +:+ fillna_empty (lot_error_reason (derive_quality to_datetime d r p)).
Proof.
  intros Hc. rewrite derive_quality_lot in Hc.
  pose proof (proj1 (canonical_lot_id_present_iff_status_ok_aux r)) as Hst.
  unfold derive_quality.
  destruct (parse_mixed_date to_datetime d) as [parsed date_error]. simpl.
  rewrite Hc. rewrite (bool_decide_eq_false_2 (is_Some None)) by (by intros [? ?]).
  rewrite andb_false_r. simpl. split; [|done].
  destruct (decide (normalization.status (normalize_lot_id r) = "ok")) as [Hok|Hok].
  - apply Hst in Hok. rewrite Hc in Hok. by destruct Hok.
  - rewrite (bool_decide_eq_false_2 _ Hok). by rewrite orb_true_r.
Qed.

Lemma derive_quality_lot_reason d r p :
  lot_error_reason (derive_quality to_datetime d r p)
  = normalization.reason (normalize_lot_id r).
Proof.
  unfold derive_quality. by destruct (parse_mixed_date to_datetime d).
Qed.

Lemma derive_quality_date_reason d r p :
  date_error_reason (derive_quality to_datetime d r p)
  = snd (parse_mixed_date to_datetime d).
Proof.
  unfold derive_quality. by destruct (parse_mixed_date to_datetime d).
Qed.

Lemma normalize_lot_id_reason_absent v c :
  normalization.canonical_lot_id (normalize_lot_id v) = Some c ->
  normalization.reason (normalize_lot_id v) = None.
Proof.
  unfold normalize_lot_id. destruct (is_none_or_nan v); [done|].
  case_decide; [done|]. by destruct (search_lot _) as [[g1 g2]|].
Qed.

Lemma normalize_lot_id_reason_present v :
  normalization.canonical_lot_id (normalize_lot_id v) = None ->
  is_Some (normalization.reason (normalize_lot_id v)).
Proof.
  unfold normalize_lot_id. destruct (is_none_or_nan v); [by eexists|].
  case_decide; [by eexists|].
  destruct (search_lot _) as [[g1 g2]|]; [done|by eexists].
Qed.

(** The reasons gathered before the check never spell the ambiguity
    message: they are empty or begin with another letter. *)
Lemma reasons_not_ambiguity d r :
  fillna_empty (snd (parse_mixed_date to_datetime d))
  +:+ fillna_empty (normalization.reason (normalize_lot_id r))
  <> ambiguity_message.
Proof.
  unfold parse_mixed_date, ambiguity_message.
  destruct (is_none_or_nan d); [discriminate|].
  destruct (to_datetime d); [|discriminate].
  unfold normalize_lot_id. destruct (is_none_or_nan r); [discriminate|].
  case_decide; [discriminate|].
  destruct (search_lot _) as [[g1 g2]|]; discriminate.
Qed.

Lemma derive_quality_ambiguous_iff d r p :
  review_reason (derive_quality to_datetime d r p) = ambiguity_message
  <-> exists provided computed,
        normalization.canonical_lot_id (normalize_lot_id p) = Some provided
        ∧ canonical_lot_id (derive_quality to_datetime d r p) = Some computed
        ∧ provided <> computed.
Proof.
  split.
  - rewrite derive_quality_lot.
    pose proof (reasons_not_ambiguity d r) as Hno.
    unfold derive_quality.
    destruct (parse_mixed_date to_datetime d) as [parsed date_error].
    simpl in *.
    destruct (bool_decide _ && bool_decide _ && negb (bool_decide _)) eqn:Hm;
      [|done].
    intros _. apply andb_true_iff in Hm as [[H1 H2]%andb_true_iff H3].
    apply bool_decide_eq_true in H1 as [provided H1], H2 as [computed H2].
    apply negb_true_iff, bool_decide_eq_false in H3.
    exists provided, computed. destruct (notna p); [|done].
    split; [done|]. split; [done|]. congruence.
  - intros (provided & computed & Hp & Hc & Hne).
    by apply (derive_quality_mismatch d r p provided computed).
Qed.

Lemma derive_quality_ambiguity_rule d r p :
  ambiguity_rule p (derive_quality to_datetime d r p).
Proof.
  split; [|split].
  - intros provided computed Hp Hc Hne.
    destruct (derive_quality_mismatch d r p provided computed Hp Hc Hne)
      as [Hn Hr].
    split; [done|]. split; [done|].
    rewrite derive_quality_lot_reason. rewrite derive_quality_lot in Hc.
    by eapply normalize_lot_id_reason_absent.
  - intros Hc. destruct (derive_quality_no_comparison d r p Hc) as [Hn Hr].
    split; [done|]. split; [|done].
    rewrite derive_quality_lot_reason. rewrite derive_quality_lot in Hc.
    by apply normalize_lot_id_reason_present.
  - apply derive_quality_ambiguous_iff.
Qed.

End prepare_facts.

(** C7, as amended. In both preparation functions, when the supplied
    normalized lot value normalizes to a canonical id, the raw lot id
    normalizes to a canonical id too, and the two differ, the prepared row
    needs review and its review reason is exactly the ambiguity message:
    the date reason gathered before is replaced, not extended, and no lot
    error exists on such a row. When the raw lot id has no canonical id the
    supplied value is not compared: the row needs review and its reason
    stays the date reason followed by the lot error. The reason is the
    ambiguity message in the first case and in no other. *)
Theorem ambiguous_lot_overwrites_review_reason
    (to_datetime : value -> option Timestamp) :
  (forall df,
      Forall2 (fun r row => ambiguity_rule (pi_normalized_lot_id r) (p_quality row))
              df (_prepare_production to_datetime df))
  ∧ (forall df,
        Forall2 (fun r row => ambiguity_rule (si_normalized_lot_id r) (s_quality row))
                df (_prepare_shipping to_datetime df)).
Proof.
  split; intros df.
  - unfold _prepare_production. apply Forall2_fmap_r, Forall_Forall2_diag.
    apply Forall_forall. intros r _. apply derive_quality_ambiguity_rule.
  - unfold _prepare_shipping. apply Forall2_fmap_r, Forall_Forall2_diag.
    apply Forall_forall. intros r _. apply derive_quality_ambiguity_rule.
Qed.

(** A row whose date does not parse and whose two lot ids are those of
    lots 001 and 002: the date reason is recorded in its own column and the
    review reason is the ambiguity message alone. *)
Lemma ambiguous_lot_witness :
  (date_error_reason (p_quality (prepare_production_row dates.to_datetime
                                   ambiguous_production))
   = Some "Unparseable date value: 'bad-date'"
   ∧ needs_review (p_quality (prepare_production_row dates.to_datetime
                                ambiguous_production)) = true
   ∧ review_reason (p_quality (prepare_production_row dates.to_datetime
                                 ambiguous_production)) = ambiguity_message
   ∧ lot_error_reason (p_quality (prepare_production_row dates.to_datetime
                                    ambiguous_production)) = None)
  ∧ (needs_review (s_quality (prepare_shipping_row dates.to_datetime
                                ambiguous_shipping)) = true
     ∧ review_reason (s_quality (prepare_shipping_row dates.to_datetime
                                   ambiguous_shipping)) = ambiguity_message
     ∧ lot_error_reason (s_quality (prepare_shipping_row dates.to_datetime
                                      ambiguous_shipping)) = None).
Proof.
  pose proof (ambiguous_lot_overwrites_review_reason dates.to_datetime)
    as [Hp Hs].
  split.
  - split; [reflexivity|].
    exact (proj1 (proj1 (Forall2_cons_1 _ _ _ _ _ (Hp [ambiguous_production])))
             "LOT-20260202-002" "LOT-20260202-001" eq_refl eq_refl
             ltac:(discriminate)).
  - exact (proj1 (proj1 (Forall2_cons_1 _ _ _ _ _ (Hs [ambiguous_shipping])))
             "LOT-20260202-002" "LOT-20260202-001" eq_refl eq_refl
             ltac:(discriminate)).
Defined.

(** C7, as stated, fails on a row whose raw lot id does not normalize. The
    supplied value normalizes to the id of lot 002, which is present and is
    not the (absent) id computed from the raw lot id BADLOT; the check of
    lines 75 and 121 asks for both ids, so nothing is overwritten and the
    review reason is the lot error, not the ambiguity message. *)
Lemma ambiguous_lot_unresolved_raw_counterexample :
  normalization.canonical_lot_id
    (normalize_lot_id (pi_normalized_lot_id unresolved_production))
  = Some "LOT-20260202-002"
  ∧ p_lot (prepare_production_row dates.to_datetime unresolved_production) = None
  ∧ needs_review (p_quality (prepare_production_row dates.to_datetime
                               unresolved_production)) = true
  ∧ review_reason (p_quality (prepare_production_row dates.to_datetime
                                unresolved_production))
    = "Lot ID does not match expected pattern: 'BADLOT'"
  ∧ review_reason (p_quality (prepare_production_row dates.to_datetime
                                unresolved_production))
    <> ambiguity_message
  ∧ s_lot (prepare_shipping_row dates.to_datetime unresolved_shipping) = None
  ∧ review_reason (s_quality (prepare_shipping_row dates.to_datetime
                                unresolved_shipping))
    = "Lot ID does not match expected pattern: 'BADLOT'"
  ∧ review_reason (s_quality (prepare_shipping_row dates.to_datetime
                                unresolved_shipping))
    <> ambiguity_message.
Proof.
  repeat split; try (vm_compute; reflexivity); vm_compute; discriminate.
Qed.

(** ** The join and the review columns *)

Section finalize_facts.

(** What lines 224 to 229 do on a production row no shipping row joins. *)
Lemma finalize_row_unmatched lots p :
  shipping_match_status (finalize_row lots (p, None)) = "unmatched"
  ∧ c_needs_review (finalize_row lots (p, None)) = true
  ∧ c_ship_status (finalize_row lots (p, None)) = None
  ∧ (review_reason (p_quality p) = EmptyString ->
     c_review_reason (finalize_row lots (p, None)) = no_match_message)
  ∧ (review_reason (p_quality p) <> EmptyString ->
     c_review_reason (finalize_row lots (p, None)) = review_reason (p_quality p)).
Proof.
  simpl. rewrite orb_true_r. repeat split; [by intros ->|].
  intros Hne. by destruct (review_reason (p_quality p)).
Qed.

(** The same lines on a production row joined to a shipping row: the
    default reason is written whenever the reason is empty. *)
Lemma finalize_row_matched lots p s :
  shipping_match_status (finalize_row lots (p, Some s)) = "matched"
  ∧ c_needs_review (finalize_row lots (p, Some s)) = needs_review (p_quality p)
  ∧ (review_reason (p_quality p) = EmptyString ->
     c_review_reason (finalize_row lots (p, Some s)) = no_match_message).
Proof.
  simpl. rewrite orb_false_r. repeat split. by intros ->.
Qed.

Lemma merge_left_unmatched production latest p :
  (p, None) ∈ merge_left production latest ->
  p ∈ production ∧ forall s, s ∈ latest -> s_lot s <> p_lot p.
Proof.
  unfold merge_left. intros (p' & Hin & Hp')%list_elem_of_bind.
  destruct (filter _ _) as [|m ms] eqn:Hf.
  - apply list_elem_of_singleton in Hin as [= <-]. split; [done|].
    intros s Hs Hk.
    assert (Hin : s ∈ filter (fun s => s_lot s = p_lot p) latest)
      by (by apply list_elem_of_filter).
    rewrite Hf in Hin. by apply elem_of_nil in Hin.
  - by apply list_elem_of_fmap in Hin as (s' & [= _ ?] & _).
Qed.

End finalize_facts.

(** C3 (the code departs from the claim). The claim asks that the default
    reason be written on unmatched rows only. Line 226 writes it on every
    row whose reason is empty: a production row joined to a shipping row,
    with nothing to review, leaves [consolidate_logs] marked matched, not
    in need of review, and with the reason No matching shipping lot
    found. *)
Theorem consolidate_logs_default_reason_on_matched_row :
  (fun res =>
     (fun r => (shipping_match_status r, c_needs_review r, c_review_reason r))
       <$> consolidated res)
    <$> consolidate_logs dates.to_datetime one_production one_shipping false
  = Ok [("matched", false, "No matching shipping lot found")].
Proof. vm_compute. reflexivity. Qed.

(** ** Conflict detection *)

Section conflict_facts.
Variables (production : list production_row) (shipping : list shipping_row).

Lemma group_or_empty_rows {A : Type} (lot_of : A -> option string)
    (rows : list A) (lot : string) :
  default [] (group_or_empty lot_of rows lot)
  = filter (fun r => lot_of r = Some lot) rows.
Proof.
  unfold group_or_empty. by destruct (filter _ rows).
Qed.

Lemma group_or_empty_None {A : Type} (lot_of : A -> option string)
    (rows : list A) (lot : string) :
  group_or_empty lot_of rows lot = None
  <-> forall r, r ∈ rows -> lot_of r <> Some lot.
Proof.
  unfold group_or_empty. destruct (filter _ rows) as [|x xs] eqn:Hf.
  - split; [|done]. intros _ r Hr Hlot.
    assert (Hin : r ∈ filter (fun r => lot_of r = Some lot) rows)
      by (by apply list_elem_of_filter).
    rewrite Hf in Hin. by apply elem_of_nil in Hin.
  - split; [done|]. intros H. exfalso.
    assert (Hin : x ∈ filter (fun r => lot_of r = Some lot) rows)
      by (rewrite Hf; by left).
    apply list_elem_of_filter in Hin as [Hlot Hin]. by apply (H x).
Qed.

(** A lot that is not conflicted gives no record. *)
Lemma conflict_of_lot_quiet lot :
  ¬ conflicted production shipping lot ->
  conflict_of_lot production shipping lot = Ok None.
Proof.
  intros Hq. unfold conflict_of_lot. rewrite !group_or_empty_rows.
  destruct (decide (1 < size (list_to_set
      (omap production_line (filter (fun r => p_lot r = Some lot) production))
      : gset string)))%nat as [H1|H1]; [exfalso; apply Hq; by left|].
  destruct (decide (1 < size (list_to_set
      (ship_status <$> filter (fun r => s_lot r = Some lot) shipping)
      : gset string)))%nat as [H2|H2]; [exfalso; apply Hq; by right|].
  by rewrite !bool_decide_eq_false_2.
Qed.

(** A conflicted lot gives its record when it has rows on both sides, and
    raises [KeyError] when one side has none. *)
Lemma conflict_of_lot_conflicted lot :
  conflicted production shipping lot ->
  conflict_of_lot production shipping lot
  = match group_or_empty p_lot production lot,
          group_or_empty s_lot shipping lot with
    | Some prod_rows, Some ship_rows =>
        Ok (Some {| conflict_lot := lot;
                    conflict_production_lines :=
                      sorted_strings (list_to_set (omap production_line prod_rows));
                    conflict_ship_statuses :=
                      sorted_strings (list_to_set (ship_status <$> ship_rows));
                    production_sources := drop_duplicates id (p_source <$> prod_rows);
                    shipping_sources := drop_duplicates id (s_source <$> ship_rows) |})
    | _, _ => Raise (KeyError ["source_file"; "source_sheet"; "source_row"])
    end.
Proof.
  intros Hc. unfold conflict_of_lot.
  assert (Hb : bool_decide (1 < size (list_to_set
      (omap production_line (default [] (group_or_empty p_lot production lot)))
      : gset string))%nat
    || bool_decide (1 < size (list_to_set
      (ship_status <$> default [] (group_or_empty s_lot shipping lot))
      : gset string))%nat = true).
  { rewrite !group_or_empty_rows. apply orb_true_iff.
    destruct Hc as [H|H]; [left|right]; by apply bool_decide_eq_true_2. }
  rewrite Hb.
  by destruct (group_or_empty p_lot production lot),
              (group_or_empty s_lot shipping lot).
Qed.

Lemma conflicts_over_lots lots records :
  conflicts_over production shipping lots = Ok records ->
  conflict_lot <$> records = filter (conflicted production shipping) lots.
Proof.
  revert records. induction lots as [|lot lots IH]; intros records; simpl.
  { by intros [= <-]. }
  rewrite filter_cons.
  destruct (decide (conflicted production shipping lot)) as [Hc|Hc].
  - rewrite (conflict_of_lot_conflicted lot Hc).
    destruct (group_or_empty p_lot production lot) as [prod_rows|]; [|done].
    destruct (group_or_empty s_lot shipping lot) as [ship_rows|]; [|done].
    simpl. destruct (conflicts_over production shipping lots) as [rest|]; [|done].
    simpl. intros [= <-]. simpl. f_equal. by apply IH.
  - rewrite (conflict_of_lot_quiet lot Hc). simpl.
    destruct (conflicts_over production shipping lots) as [rest|]; [|done].
    simpl. intros [= <-]. by apply IH.
Qed.

Lemma elem_of_lot_ids lot :
  lot ∈ lot_ids production shipping
  <-> (exists r, r ∈ production ∧ p_lot r = Some lot)
      ∨ (exists r, r ∈ shipping ∧ s_lot r = Some lot).
Proof.
  unfold lot_ids. rewrite (proj2 (proj2 (sorted_strings_spec _))).
  rewrite elem_of_union, !elem_of_list_to_set, !list_elem_of_omap. tauto.
Qed.

Lemma conflicted_has_rows lot :
  conflicted production shipping lot -> lot ∈ lot_ids production shipping.
Proof.
  intros Hc. apply elem_of_lot_ids. destruct Hc as [H|H].
  - left. destruct (filter (fun r => p_lot r = Some lot) production)
      as [|r rs] eqn:Hf.
    + exfalso. revert H. vm_compute. lia.
    + exists r. assert (Hin : r ∈ filter (fun r => p_lot r = Some lot) production)
        by (rewrite Hf; by left).
      apply list_elem_of_filter in Hin. tauto.
  - right. destruct (filter (fun r => s_lot r = Some lot) shipping)
      as [|r rs] eqn:Hf.
    + exfalso. revert H. vm_compute. lia.
    + exists r. assert (Hin : r ∈ filter (fun r => s_lot r = Some lot) shipping)
        by (rewrite Hf; by left).
      apply list_elem_of_filter in Hin. tauto.
Qed.

(** Whenever [_detect_conflicts] returns, it returns one record for every
    conflicted lot and none for any other, in ascending order of the lot. *)
Lemma detect_conflicts_records records :
  _detect_conflicts production shipping = Ok records ->
  NoDup (conflict_lot <$> records)
  ∧ Sorted String.le (conflict_lot <$> records)
  ∧ forall lot, lot ∈ conflict_lot <$> records
                <-> conflicted production shipping lot.
Proof.
  unfold _detect_conflicts. intros ->%conflicts_over_lots.
  destruct (sorted_strings_spec
              (list_to_set (omap p_lot production)
               ∪ list_to_set (omap s_lot shipping))) as (Hs & Hn & _).
  fold (lot_ids production shipping) in Hs, Hn.
  split; [by apply NoDup_filter|]. split.
  - apply StronglySorted_Sorted, StronglySorted_filter_list.
    apply Sorted_StronglySorted; [apply _|done].
  - intros lot. rewrite list_elem_of_filter. split; [tauto|].
    intros Hc. split; [done|]. by apply conflicted_has_rows.
Qed.

(** It raises as soon as a conflicted lot has rows on one side only. *)
Lemma detect_conflicts_raises lot :
  conflicted production shipping lot ->
  (forall r, r ∈ production -> p_lot r <> Some lot)
  ∨ (forall r, r ∈ shipping -> s_lot r <> Some lot) ->
  _detect_conflicts production shipping
  = Raise (KeyError ["source_file"; "source_sheet"; "source_row"]).
Proof.
  intros Hc Hside. unfold _detect_conflicts.
  pose proof (conflicted_has_rows lot Hc) as Hin.
  induction (lot_ids production shipping) as [|l ls IH]; [by apply elem_of_nil in Hin|].
  simpl. apply elem_of_cons in Hin as [<-|Hin].
  - rewrite (conflict_of_lot_conflicted lot Hc).
    destruct Hside as [H|H]; apply group_or_empty_None in H; rewrite H; [done|].
    by destruct (group_or_empty p_lot production lot).
  - destruct (conflict_of_lot production shipping l) as [rec|[missing]] eqn:Hl.
    + simpl. by rewrite (IH Hin).
    + simpl. destruct (decide (conflicted production shipping l)) as [Hcl|Hcl].
      * rewrite (conflict_of_lot_conflicted l Hcl) in Hl.
        destruct (group_or_empty p_lot production l),
                 (group_or_empty s_lot shipping l); by simplify_eq.
      * by rewrite (conflict_of_lot_quiet l Hcl) in Hl.
Qed.

End conflict_facts.

(** C5 (the code departs from the claim). A lot with two shipping statuses
    and no production row is conflicted, but building its record selects
    the source columns of an empty production frame: [_detect_conflicts]
    raises [KeyError] and [consolidate_logs] with it. When the lot also has
    a production row, as in the test tables, the record is emitted. *)
Theorem detect_conflicts_raises_on_one_sided_lot :
  _detect_conflicts (_prepare_production dates.to_datetime one_production)
    (_prepare_shipping dates.to_datetime shipping_only_conflict)
  = Raise (KeyError ["source_file"; "source_sheet"; "source_row"])
  ∧ consolidate_logs dates.to_datetime one_production shipping_only_conflict false
    = Raise (KeyError ["source_file"; "source_sheet"; "source_row"])
  ∧ _detect_conflicts (_prepare_production dates.to_datetime production_df)
      (_prepare_shipping dates.to_datetime shipping_df)
    = Ok [ {| conflict_lot := "LOT-20260203-001";
              conflict_production_lines := ["Line 2"];
              conflict_ship_statuses := ["On Hold"; "Partial"];
              production_sources := [prod_ref 3];
              shipping_sources := [ship_ref 3; ship_ref 4] |} ].
Proof. repeat split; vm_compute; reflexivity. Qed.

(** ** The alias map *)

Section alias_facts.

Lemma elem_of_add_alias m lot raw l x :
  x ∈ default (∅ : gset string) (add_alias m lot raw !! l)
  <-> x ∈ default (∅ : gset string) (m !! l) ∨ (lot = Some l ∧ str raw = x).
Proof.
  unfold add_alias. destruct lot as [l'|].
  - destruct (decide (l' = l)) as [->|Hne].
    + rewrite lookup_insert_eq. simpl. rewrite elem_of_union, elem_of_singleton.
      split; [intros [?|?]; auto|]. intros [?|[_ <-]]; auto.
    + rewrite lookup_insert_ne by done. split; [auto|].
      intros [?|[[= ?] _]]; done.
  - split; [auto|]. by intros [?|[? _]].
Qed.

Lemma elem_of_foldl_alias {A : Type} (lot_of : A -> option string)
    (raw_of : A -> value) (rows : list A) m l x :
  x ∈ default (∅ : gset string)
        (foldl (fun m r => add_alias m (lot_of r) (raw_of r)) m rows !! l)
  <-> x ∈ default (∅ : gset string) (m !! l)
      ∨ exists r, r ∈ rows ∧ lot_of r = Some l ∧ str (raw_of r) = x.
Proof.
  revert m. induction rows as [|r rows IH]; intros m; simpl.
  { split; [auto|]. intros [?|(r & Hr & _)]; [done|].
    by apply elem_of_nil in Hr. }
  rewrite IH, elem_of_add_alias. split.
  - intros [[?|[? ?]]|(r' & ? & ? & ?)]; [by left| |].
    + right. exists r. split; [by left|done].
    + right. exists r'. split; [by right|done].
  - intros [?|(r' & [->|?]%elem_of_cons & ? & ?)].
    + by left; left.
    + by left; right.
    + right. by exists r'.
Qed.

(** The aliases of a lot are the [str] texts of the raw lot ids of the
    rows of that lot, in the production frame or in the shipping one. *)
Lemma elem_of_alias_lookup production shipping l x :
  x ∈ default (∅ : gset string) (alias_lookup_of production shipping !! l)
  <-> (exists r, r ∈ production ∧ p_lot r = Some l ∧ str (p_raw_lot_id r) = x)
      ∨ (exists r, r ∈ shipping ∧ s_lot r = Some l ∧ str (s_raw_lot_id r) = x).
Proof.
  unfold alias_lookup_of. rewrite !elem_of_foldl_alias, lookup_empty. simpl.
  rewrite elem_of_empty. tauto.
Qed.

Lemma with_aliases_spec production shipping r :
  exists l,
    raw_lot_aliases (with_aliases (alias_lookup_of production shipping) r) = Some l
    ∧ Sorted String.le l ∧ NoDup l
    ∧ forall x, x ∈ l <->
        exists lot, c_lot r = Some lot
          ∧ ((exists row, row ∈ production ∧ p_lot row = Some lot
                          ∧ str (p_raw_lot_id row) = x)
             ∨ (exists row, row ∈ shipping ∧ s_lot row = Some lot
                            ∧ str (s_raw_lot_id row) = x)).
Proof.
  eexists. split; [reflexivity|]. unfold aliases_of.
  destruct (sorted_strings_spec
              (default ∅ (c_lot r ≫= fun l => alias_lookup_of production shipping !! l)))
    as (Hs & Hn & He).
  split; [done|]. split; [done|]. intros x. rewrite He.
  destruct (c_lot r) as [lot|]; simpl.
  - rewrite elem_of_alias_lookup. split; [by exists lot|].
    by intros (? & [= <-] & ?).
  - rewrite elem_of_empty. split; [done|]. by intros (? & ? & _).
Qed.

(** Every row of the [consolidated] output carries the aliases of its
    lot; a row without a canonical lot carries the empty list. *)
Lemma consolidated_rows_carry_aliases to_datetime production_df shipping_df
    include_flagged res :
  consolidate_logs to_datetime production_df shipping_df include_flagged = Ok res ->
  Forall
    (fun r =>
       exists l,
         raw_lot_aliases r = Some l ∧ Sorted String.le l ∧ NoDup l
         ∧ forall x, x ∈ l <->
             exists lot, c_lot r = Some lot
               ∧ ((exists row, row ∈ production res ∧ p_lot row = Some lot
                               ∧ str (p_raw_lot_id row) = x)
                  ∨ (exists row, row ∈ shipping res ∧ s_lot row = Some lot
                                 ∧ str (s_raw_lot_id row) = x)))
    (consolidated res).
Proof.
  unfold consolidate_logs.
  destruct (_detect_conflicts _ _) as [conflict_rows|e]; [|done]. simpl.
  intros [= <-]. simpl. apply Forall_fmap, Forall_forall. intros r _.
  apply (with_aliases_spec _ _ r).
Qed.

(** The [flagged_rows] output is copied before the column is attached. *)
Lemma flagged_rows_have_no_aliases to_datetime production_df shipping_df
    include_flagged res :
  consolidate_logs to_datetime production_df shipping_df include_flagged = Ok res ->
  Forall (fun r => c_needs_review r = true ∧ raw_lot_aliases r = None)
         (flagged_rows res).
Proof.
  unfold consolidate_logs.
  destruct (_detect_conflicts _ _) as [conflict_rows|e]; [|done]. simpl.
  intros [= <-]. simpl. apply Forall_forall.
  intros r [Hr (pr & -> & _)%list_elem_of_fmap]%list_elem_of_filter.
  split; [done|]. by destruct pr.
Qed.

End alias_facts.

(** C4 (the code departs from the claim). The claim asks that the rows
    routed to the flagged-rows output carry their aliases too. Line 239
    copies [flagged_rows] out of the joined frame before line 248 attaches
    the alias column, and attaches it to [consolidated] alone: no row of
    [flagged_rows] ever has aliases. On the test tables, with flagged rows
    included, the two rows that need review carry their aliases in
    [consolidated] and none in [flagged_rows]. *)
Theorem flagged_rows_lack_raw_lot_aliases :
  (forall to_datetime production_df shipping_df include_flagged res,
      consolidate_logs to_datetime production_df shipping_df include_flagged = Ok res ->
      Forall (fun r => raw_lot_aliases r = None) (flagged_rows res))
  ∧ (fun res => (fun r => (p_source (c_production r), raw_lot_aliases r))
                  <$> flagged_rows res)
      <$> consolidate_logs dates.to_datetime production_df shipping_df true
    = Ok [(prod_ref 4, None); (prod_ref 5, None)]
  ∧ (fun res => (fun r => (p_source (c_production r), raw_lot_aliases r))
                  <$> filter (fun r => c_needs_review r = true) (consolidated res))
      <$> consolidate_logs dates.to_datetime production_df shipping_df true
    = Ok [(prod_ref 4, Some ["LOT20260204001"]); (prod_ref 5, Some [])].
Proof.
  split.
  { intros to_datetime pdf sdf flag res Hres.
    eapply Forall_impl; [exact (flagged_rows_have_no_aliases _ _ _ _ _ Hres)|].
    by intros r [_ ?]. }
  split; vm_compute; reflexivity.
Qed.

(** ** The weekly ranking *)

Section ranking_facts.

Lemma filter_fmap_list {A B : Type} (f : A -> B) (P : B -> Prop)
    `{forall y, Decision (P y)} (l : list A) :
  filter P (f <$> l) = f <$> filter (fun x => P (f x)) l.
Proof.
  induction l as [|x xs IH]; [done|]. rewrite fmap_cons, !filter_cons.
  case_decide; [by rewrite fmap_cons, IH|done].
Qed.

Lemma filter_eq_NoDup {K : Type} `{EqDecision K} (l : list K) (k : K) :
  NoDup l -> k ∈ l -> filter (fun y => y = k) l = [k].
Proof.
  induction l as [|y ys IH]; [by intros _ ?%elem_of_nil|].
  rewrite NoDup_cons, elem_of_cons, filter_cons. intros [Hy Hnd] Hk.
  case_decide as Hyk.
  - subst y. f_equal. clear IH Hk Hnd.
    induction ys as [|z zs IH]; [done|]. rewrite filter_cons.
    apply not_elem_of_cons in Hy as [Hz Hzs]. case_decide; [by subst|auto].
  - destruct Hk as [->|Hk]; [done|auto].
Qed.

Lemma line_keys_Permutation rows :
  line_keys rows ≡ₚ drop_duplicates id (c_line <$> rows).
Proof. apply sort_values_Permutation. Qed.

Lemma NoDup_line_keys rows : NoDup (line_keys rows).
Proof.
  rewrite line_keys_Permutation.
  pose proof (NoDup_drop_duplicates (@id (option string)) (c_line <$> rows)) as H.
  by rewrite list_fmap_id in H.
Qed.

Lemma elem_of_line_keys rows line :
  line ∈ line_keys rows <-> exists r, r ∈ rows ∧ c_line r = line.
Proof.
  rewrite line_keys_Permutation, elem_of_drop_duplicates. simpl. split.
  - intros (_ & before & after & Heq & _)%first_by_Some.
    assert (Hin : line ∈ c_line <$> rows).
    { rewrite Heq. apply elem_of_app. right. by left. }
    apply list_elem_of_fmap in Hin as (r & -> & Hr). by exists r.
  - intros (r & Hr & <-).
    destruct (first_by id (c_line r) (c_line <$> rows)) as [k|] eqn:Hf.
    + apply first_by_Some in Hf as [Hk _]. simpl in Hk. by rewrite Hk.
    + exfalso. apply (proj1 (first_by_None _ _ _) Hf (c_line r)); [|done].
      by apply list_elem_of_fmap_2.
Qed.

(** The ranking has one row per key, the one [aggregate_line] builds. *)
Lemma ranking_of_line current line :
  (exists r, r ∈ current ∧ c_line r = line) ->
  filter (fun e => rk_production_line e = line) (ranking_of current)
  = [aggregate_line current line].
Proof.
  intros Hline. apply Permutation_singleton_r. unfold ranking_of.
  rewrite sort_values_Permutation, filter_fmap_list. simpl.
  rewrite filter_eq_NoDup; [done|apply NoDup_line_keys|].
  by apply elem_of_line_keys.
Qed.

Lemma sum_indicator {K : Type} `{EqDecision K} (ks : list K) (k : K) :
  NoDup ks -> k ∈ ks ->
  sum_list_with (fun k' => if decide (k = k') then 1 else 0)%nat ks = 1%nat.
Proof.
  induction ks as [|y ys IH]; [by intros _ ?%elem_of_nil|].
  rewrite NoDup_cons, elem_of_cons. intros [Hy Hnd] Hk. simpl.
  case_decide as Hyk.
  - subst y. f_equal. clear IH Hk Hnd.
    induction ys as [|z zs IH]; [done|]. simpl.
    apply not_elem_of_cons in Hy as [Hz Hzs]. case_decide; [done|auto].
  - destruct Hk as [->|Hk]; [done|]. by rewrite IH.
Qed.

Lemma sum_list_with_add {K : Type} (f g : K -> nat) (ks : list K) :
  sum_list_with (fun k => f k + g k)%nat ks
  = (sum_list_with f ks + sum_list_with g ks)%nat.
Proof. induction ks as [|k ks IH]; simpl; [done|]. rewrite IH. lia. Qed.

(** Grouping by a key loses no row: the group sizes add up. *)
Lemma group_sizes_add_up {A K : Type} `{EqDecision K} (key : A -> K)
    (ks : list K) (l : list A) :
  NoDup ks -> (forall x, x ∈ l -> key x ∈ ks) ->
  sum_list_with (fun k => length (filter (fun x => key x = k) l)) ks = length l.
Proof.
  intros Hnd. induction l as [|x xs IH]; intros Hks.
  { simpl. clear Hnd Hks. induction ks as [|k ks IHk]; simpl; done. }
  transitivity (sum_list_with
    (fun k => (if decide (key x = k) then 1 else 0)
              + length (filter (fun x => key x = k) xs))%nat ks).
  - clear IH Hks Hnd. induction ks as [|k ks IHk]; simpl; [done|].
    rewrite IHk, filter_cons. by case_decide.
  - rewrite sum_list_with_add, sum_indicator, IH; [done| |done|].
    + intros y Hy. apply Hks. by right.
    + apply Hks. by left.
Qed.

Lemma sum_list_fmap {K : Type} (f : K -> nat) (ks : list K) :
  sum_list (f <$> ks) = sum_list_with f ks.
Proof. induction ks as [|k ks IH]; simpl; [done|]. f_equal. exact IH. Qed.

Lemma ranking_total_rows current :
  sum_list (total_rows <$> ranking_of current) = length current.
Proof.
  unfold ranking_of. rewrite sort_values_Permutation.
  rewrite <- list_fmap_compose, sum_list_fmap.
  rewrite <- (group_sizes_add_up c_line (line_keys current) current);
    [done|apply NoDup_line_keys|].
  intros r Hr. apply elem_of_line_keys. by exists r.
Qed.

End ranking_facts.

(** C10. In [weekly_summary], the rows of the current week without a
    production line are not dropped: as for every other line value of the
    week, the ranking holds exactly one row for the null line, with the
    number of its rows that have an issue, the number of its rows and the
    number of its distinct canonical lots; its line name stays null; and
    the row counts of the ranking add up to the rows of the week. *)
Theorem weekly_summary_ranks_rows_without_line
    (config : AppConfig) (consolidated : list consolidated_row)
    (anchor_date : Timestamp) (line : option string) :
  let current :=
    filter (fun r => in_window (fst (week_bounds anchor_date))
                       (snd (week_bounds anchor_date)) r = true) consolidated in
  (exists r, r ∈ current ∧ c_line r = line) ->
  filter (fun e => rk_production_line e = line)
         (ranking (weekly_summary config consolidated anchor_date))
  = [ {| rk_production_line := line;
         issue_count :=
           length (filter (fun r => c_issue r = true)
                     (filter (fun r => c_line r = line) current));
         total_rows := length (filter (fun r => c_line r = line) current);
         unique_lots :=
           size (list_to_set
                   (omap c_lot (filter (fun r => c_line r = line) current))
                 : gset string) |} ]
  ∧ sum_list (total_rows <$> ranking (weekly_summary config consolidated anchor_date))
    = length current.
Proof.
  intros current Hline. unfold weekly_summary.
  destruct (week_bounds anchor_date) as [week_start week_end] eqn:Hw.
  simpl in current. simpl. fold current. split.
  - by rewrite (ranking_of_line current line Hline).
  - apply ranking_total_rows.
Qed.

(** Two rows without a line and one of Line 1 in the week of 2026-02-04:
    the null line has its own ranking row, first because it has more rows
    for the same issue count. *)
Lemma weekly_summary_ranking_witness :
  ranking (weekly_summary test_config lineless_consolidated anchor)
  = [ mkRanking None 1 2 1; mkRanking (Some "Line 1") 1 1 1 ]
  ∧ filter (fun e => rk_production_line e = None)
           (ranking (weekly_summary test_config lineless_consolidated anchor))
    = [ mkRanking None 1 2 1 ]
  ∧ sum_list (total_rows <$> ranking (weekly_summary test_config
                                         lineless_consolidated anchor))
    = 3%nat.
Proof.
  split; [vm_compute; reflexivity|].
  refine (weekly_summary_ranks_rows_without_line test_config
            lineless_consolidated anchor None _).
  vm_compute. eexists. split; [apply list_elem_of_here|reflexivity].
Defined.

(** * Further properties of the code *)

(** ** week_bounds *)

Section week_facts.

Lemma ts_normalize_spec t :
  ts_normalize t = ns_per_day * (t / ns_per_day).
Proof. unfold ts_normalize, ns_per_day. Z.div_mod_to_equations. lia. Qed.

Lemma week_start_spec t :
  fst (week_bounds t)
  = ns_per_day * (t / ns_per_day - (t / ns_per_day + 3) mod 7).
Proof.
  unfold week_bounds, weekday. simpl. rewrite ts_normalize_spec.
  replace (ns_per_day * (t / ns_per_day) / ns_per_day) with (t / ns_per_day).
  - lia.
  - unfold ns_per_day. Z.div_mod_to_equations. lia.
Qed.

End week_facts.

(** X1. [week_bounds] returns the midnight of a Monday and the midnight of
    the Sunday six days later; the day of the anchor lies between the two;
    and every anchor of the same Monday-to-Sunday week, at any time of the
    day, gives the same bounds. *)
Theorem week_bounds_monday_to_sunday (anchor_date : Timestamp) :
  weekday (fst (week_bounds anchor_date)) = 0
  ∧ fst (week_bounds anchor_date) mod ns_per_day = 0
  ∧ snd (week_bounds anchor_date) = fst (week_bounds anchor_date) + 6 * ns_per_day
  ∧ fst (week_bounds anchor_date) <= ts_normalize anchor_date
      <= snd (week_bounds anchor_date)
  ∧ (forall other,
        fst (week_bounds anchor_date) <= other
          < fst (week_bounds anchor_date) + 7 * ns_per_day ->
        week_bounds other = week_bounds anchor_date).
Proof.
  assert (Hsnd : forall t, snd (week_bounds t) = fst (week_bounds t) + 6 * ns_per_day)
    by done.
  split; [|split; [|split; [done|split]]].
  - unfold weekday. rewrite week_start_spec. unfold ns_per_day.
    Z.div_mod_to_equations. lia.
  - rewrite week_start_spec. unfold ns_per_day. Z.div_mod_to_equations. lia.
  - rewrite Hsnd, week_start_spec, ts_normalize_spec. unfold ns_per_day.
    Z.div_mod_to_equations. lia.
  - intros other Hother.
    assert (Hfst : fst (week_bounds other) = fst (week_bounds anchor_date)).
    { rewrite !week_start_spec in *. unfold ns_per_day in *.
      Z.div_mod_to_equations. lia. }
    rewrite (surjective_pairing (week_bounds other)),
            (surjective_pairing (week_bounds anchor_date)).
    by rewrite !Hsnd, Hfst.
Qed.

(** The week of 2026-02-04 runs from Monday 2026-02-02 to Sunday
    2026-02-08, and Sunday afternoon is in it. *)
Lemma week_bounds_witness :
  week_bounds anchor = (1769990400000000000, 1770508800000000000)
  ∧ week_bounds (1770508800000000000 + 54000000000000) = week_bounds anchor.
Proof.
  split; [reflexivity|].
  apply (proj2 (proj2 (proj2 (proj2 (week_bounds_monday_to_sunday anchor))))).
  vm_compute. split; [discriminate|reflexivity].
Defined.

(** ** What normalize_lot_id accepts *)

(** A fact about one character, checked on every code. *)
Ltac check_all_codes c :=
  destruct c as [[] [] [] [] [] [] [] []]; vm_compute; congruence.

Section acceptance_facts.

#[local] Arguments take_digits : simpl never.

Lemma lot_sep_is_separator c : is_lot_sep c = true -> is_separator c = true.
Proof. check_all_codes c. Qed.

Lemma remove_separators_clean s :
  all_chars (fun c => negb (is_separator c)) (remove_separators s) = true.
Proof.
  induction s as [|c s IH]; [done|]. simpl.
  destruct (is_separator c) eqn:Hc; [done|]. simpl. by rewrite Hc.
Qed.

Lemma skip_lot_sep_clean s :
  all_chars (fun c => negb (is_separator c)) s = true -> skip_lot_sep s = s.
Proof.
  destruct s as [|c s]; [done|]. simpl. intros [Hc _]%andb_true_iff.
  destruct (is_lot_sep c) eqn:Hl; [|done].
  by rewrite (lot_sep_is_separator _ Hl) in Hc.
Qed.

Lemma all_chars_app_r P s t :
  all_chars P (s +:+ t) = true -> all_chars P t = true.
Proof. rewrite all_chars_app. by intros [_ ?]%andb_true_iff. Qed.

Lemma match_lot_here_core d8 d3 post :
  digits 8 d8 -> digits 3 d3 ->
  match_lot_here (String "L" (String "O" (String "T" (d8 +:+ d3 +:+ post))))
  = Some (d8, d3).
Proof.
  intros H8 H3. unfold match_lot_here. simpl strip_LOT. cbv beta iota.
  rewrite skip_lot_sep_digits; [|by eapply digits_nonempty|by destruct H8].
  rewrite (take_digits_app 8 d8 _ H8).
  rewrite skip_lot_sep_digits; [|by eapply digits_nonempty|by destruct H3].
  by rewrite (take_digits_app 3 d3 _ H3).
Qed.

Lemma match_lot_here_clean t g1 g2 :
  all_chars (fun c => negb (is_separator c)) t = true ->
  match_lot_here t = Some (g1, g2) ->
  exists post, t = String "L" (String "O" (String "T" (g1 +:+ g2 +:+ post))).
Proof.
  intros Hclean. unfold match_lot_here.
  destruct (strip_LOT t) as [r|] eqn:Hr; [|done].
  apply strip_LOT_Some in Hr as ->.
  assert (Hr : all_chars (fun c => negb (is_separator c)) r = true).
  { simpl in Hclean. by repeat apply andb_true_iff in Hclean as [_ Hclean]. }
  rewrite (skip_lot_sep_clean _ Hr).
  destruct (take_digits 8 r) as [[d8 r1]|] eqn:H8; [|done].
  apply take_digits_spec in H8 as [-> _].
  rewrite (skip_lot_sep_clean r1) by (by eapply all_chars_app_r).
  destruct (take_digits 3 r1) as [[d3 r2]|] eqn:H3; [|done].
  apply take_digits_spec in H3 as [-> _].
  intros [= <- <-]. by exists r2.
Qed.

Lemma search_lot_found s g1 g2 :
  search_lot s = Some (g1, g2) ->
  exists pre t, s = pre +:+ t ∧ match_lot_here t = Some (g1, g2).
Proof.
  induction s as [|c s IH]; simpl; [done|].
  destruct (match_lot_here (String c s)) as [g|] eqn:Hm.
  - intros [= ->]. by exists EmptyString, (String c s).
  - intros (pre & t & -> & Ht)%IH. by exists (String c pre), t.
Qed.

Lemma search_lot_finds pre t g :
  match_lot_here t = Some g -> is_Some (search_lot (pre +:+ t)).
Proof.
  intros Ht. induction pre as [|c pre IH].
  - rewrite append_nil_l. destruct t as [|c t]; [done|].
    simpl. rewrite Ht. by eexists.
  - rewrite append_cons. simpl.
    by destruct (match_lot_here (String c (pre +:+ t))).
Qed.

(** The rewriting of line 83 either leaves the text alone or turns an exact
    core into the canonical spelling. *)
Lemma restructure_cases s :
  restructure s = s
  ∨ exists d8 d3 r2,
      digits 8 d8 ∧ digits 3 d3
      ∧ s = String "L" (String "O" (String "T" (d8 +:+ d3 +:+ r2)))
      ∧ restructure s
        = String "L" (String "O" (String "T" (String "-"
            (d8 +:+ String "-" (d3 +:+ r2))))).
Proof.
  unfold restructure. destruct (strip_LOT s) as [r|] eqn:Hr; [|by left].
  apply strip_LOT_Some in Hr as ->.
  destruct (take_digits 8 r) as [[d8 r1]|] eqn:H8; [|by left].
  destruct (take_digits 3 r1) as [[d3 r2]|] eqn:H3; [|by left].
  destruct (at_dollar r2); [|by left].
  apply take_digits_spec in H8 as [-> H8], H3 as [-> H3].
  right. by exists d8, d3, r2.
Qed.

Lemma match_lot_here_rewritten d8 d3 r2 :
  digits 8 d8 -> digits 3 d3 ->
  match_lot_here (String "L" (String "O" (String "T" (String "-"
                    (d8 +:+ String "-" (d3 +:+ r2))))))
  = Some (d8, d3).
Proof.
  intros H8 H3. unfold match_lot_here. simpl strip_LOT. cbv beta iota.
  simpl skip_lot_sep. rewrite (take_digits_app 8 d8 _ H8). simpl skip_lot_sep.
  by rewrite (take_digits_app 3 d3 _ H3).
Qed.

End acceptance_facts.

(** X2. On ASCII text, [normalize_lot_id] accepts a value exactly when it
    is not null and its compacted text (trimmed, upper-cased, typo
    corrected, ASCII blanks, hyphens and underscores removed) contains LOT
    followed by eleven digits somewhere; the canonical id it returns is
    LOT-, the first eight digits of such an occurrence, a hyphen, and the
    last three, with status ok and no reason. *)
Theorem normalize_lot_id_accepts_iff_core_occurs (v : value) :
  (normalization.status (normalize_lot_id v) = "ok" ->
   exists pre post d8 d3,
     digits 8 d8 ∧ digits 3 d3
     ∧ compact_of (upper (strip (str v))) = pre +:+ "LOT" +:+ d8 +:+ d3 +:+ post
     ∧ normalize_lot_id v
       = mkLotNormalization (Some ("LOT-" +:+ d8 +:+ "-" +:+ d3)) "ok" None)
  ∧ (forall pre post d8 d3,
       is_none_or_nan v = false ->
       digits 8 d8 -> digits 3 d3 ->
       compact_of (upper (strip (str v))) = pre +:+ "LOT" +:+ d8 +:+ d3 +:+ post ->
       normalization.status (normalize_lot_id v) = "ok").
Proof.
  split.
  - unfold normalize_lot_id. destruct (is_none_or_nan v); [done|].
    case_decide as Hblank; [done|].
    fold (compact_of (upper (strip (str v)))).
    pose proof (remove_separators_clean (replace_L0T (upper (strip (str v)))))
      as Hclean. fold (compact_of (upper (strip (str v)))) in Hclean.
    destruct (search_lot _) as [[g1 g2]|] eqn:Hs; [|done]. intros _. simpl.
    destruct (restructure_cases (compact_of (upper (strip (str v)))))
      as [Hsame|(d8 & d3 & r2 & H8 & H3 & Hc & Hre)].
    + rewrite Hsame in Hs. pose proof (search_lot_digits _ _ _ Hs) as [H8 H3].
      apply search_lot_found in Hs as (pre & t & Hc & Hm).
      rewrite Hc in Hclean. apply all_chars_app_r in Hclean.
      apply (match_lot_here_clean _ _ _ Hclean) in Hm as [post ->].
      by exists pre, post, g1, g2.
    + rewrite Hre in Hs.
      pose proof (match_lot_here_rewritten d8 d3 r2 H8 H3) as Hm.
      simpl search_lot in Hs. rewrite Hm in Hs. injection Hs as <- <-.
      by exists EmptyString, r2, d8, d3.
  - intros pre post d8 d3 Hnull H8 H3 Hc. unfold normalize_lot_id.
    rewrite Hnull. case_decide as Hblank.
    { rewrite Hblank in Hc. by destruct pre. }
    fold (compact_of (upper (strip (str v)))).
    assert (Hfound : is_Some (search_lot (restructure
                                 (compact_of (upper (strip (str v))))))).
    { destruct (restructure_cases (compact_of (upper (strip (str v)))))
        as [->|(e8 & e3 & r2 & He8 & He3 & _ & ->)].
      - rewrite Hc.
        change (pre +:+ "LOT" +:+ d8 +:+ d3 +:+ post)
          with (pre +:+ String "L" (String "O" (String "T" (d8 +:+ d3 +:+ post)))).
        eapply search_lot_finds. by apply match_lot_here_core.
      - pose proof (match_lot_here_rewritten e8 e3 r2 He8 He3) as Hm.
        simpl search_lot. rewrite Hm. by eexists. }
    destruct Hfound as [[g1 g2] ->]. done.
Qed.

(** A core with a letter on each side is accepted, as the criterion says. *)
Lemma normalize_lot_id_accepts_witness :
  normalization.status (normalize_lot_id (VStr "xlot-20260101 001y")) = "ok".
Proof.
  exact (proj2 (normalize_lot_id_accepts_iff_core_occurs (VStr "xlot-20260101 001y"))
           "X" "Y" "20260101" "001" eq_refl
           (conj eq_refl eq_refl) (conj eq_refl eq_refl) eq_refl).
Defined.

(** ** The review columns of a prepared row *)

Section review_facts.
Variable to_datetime : value -> option Timestamp.

Lemma append_empty_iff a b :
  a +:+ b = EmptyString <-> a = EmptyString ∧ b = EmptyString.
Proof. destruct a; simpl; [tauto|]. split; [done|by intros [? _]]. Qed.

Lemma parse_mixed_date_reason v :
  (snd (parse_mixed_date to_datetime v) = None
   <-> is_Some (fst (parse_mixed_date to_datetime v)))
  ∧ snd (parse_mixed_date to_datetime v) <> Some EmptyString.
Proof.
  unfold parse_mixed_date. destruct (is_none_or_nan v); simpl.
  { split; [|done]. split; [done|by intros [? ?]]. }
  destruct (to_datetime v); simpl.
  - split; [|done]. split; [by eexists|done].
  - split; [|done]. split; [done|by intros [? ?]].
Qed.

Lemma normalize_lot_id_reason v :
  (normalization.reason (normalize_lot_id v) = None
   <-> normalization.status (normalize_lot_id v) = "ok")
  ∧ normalization.reason (normalize_lot_id v) <> Some EmptyString.
Proof.
  unfold normalize_lot_id. destruct (is_none_or_nan v); simpl; [done|].
  case_decide; simpl; [done|].
  by destruct (search_lot _) as [[g1 g2]|].
Qed.

(** A prepared row needs review exactly when its review reason is not
    empty, and a row that needs no review has its date and its lot. *)
Lemma derive_quality_review d r p :
  (needs_review (derive_quality to_datetime d r p) = true
   <-> review_reason (derive_quality to_datetime d r p) <> EmptyString)
  ∧ (needs_review (derive_quality to_datetime d r p) = false ->
     is_Some (parsed_date (derive_quality to_datetime d r p))
     ∧ is_Some (canonical_lot_id (derive_quality to_datetime d r p))
     ∧ date_error_reason (derive_quality to_datetime d r p) = None
     ∧ lot_error_reason (derive_quality to_datetime d r p) = None).
Proof.
  pose proof (parse_mixed_date_reason d) as [Hd Hd'].
  pose proof (normalize_lot_id_reason r) as [Hl Hl'].
  pose proof (canonical_lot_id_present_iff_status_ok_aux r) as Hok.
  unfold derive_quality.
  destruct (parse_mixed_date to_datetime d) as [parsed date_error].
  simpl in *.
  destruct (bool_decide (is_Some _) && bool_decide (is_Some _) && negb _);
    simpl; [done|].
  destruct date_error as [e|]; simpl.
  - split; [|done]. split; [|done]. intros _ [-> _]%append_empty_iff. done.
  - destruct (decide (normalization.status (normalize_lot_id r) = "ok")) as [Hs|Hs].
    + rewrite (bool_decide_eq_true_2 _ Hs). simpl.
      rewrite (proj2 Hl Hs). split; [done|]. intros _.
      split; [by apply Hd|]. split; [by apply Hok|done].
    + rewrite (bool_decide_eq_false_2 _ Hs). simpl. split; [|done].
      split; [|done]. intros _.
      destruct (normalization.reason (normalize_lot_id r)) as [e|] eqn:He.
      * simpl. rewrite append_nil_l. intros ->. done.
      * exfalso. apply Hs. by apply Hl.
Qed.

End review_facts.

(** X3. In both prepared tables a row needs review exactly when its review
    reason is not empty; and a row that needs no review has a parsed date,
    a canonical lot id and neither error reason. *)
Theorem prepared_rows_flag_iff_reason
    (to_datetime : value -> option Timestamp) :
  (forall df,
      Forall (fun row =>
                (needs_review (p_quality row) = true
                 <-> review_reason (p_quality row) <> EmptyString)
                ∧ (needs_review (p_quality row) = false ->
                   is_Some (production_date row) ∧ is_Some (p_lot row)
                   ∧ date_error_reason (p_quality row) = None
                   ∧ lot_error_reason (p_quality row) = None))
             (_prepare_production to_datetime df))
  ∧ (forall df,
        Forall (fun row =>
                  (needs_review (s_quality row) = true
                   <-> review_reason (s_quality row) <> EmptyString)
                  ∧ (needs_review (s_quality row) = false ->
                     is_Some (ship_date row) ∧ is_Some (s_lot row)
                     ∧ date_error_reason (s_quality row) = None
                     ∧ lot_error_reason (s_quality row) = None))
               (_prepare_shipping to_datetime df)).
Proof.
  split; intros df.
  - unfold _prepare_production. apply Forall_fmap, Forall_forall.
    intros r _. apply derive_quality_review.
  - unfold _prepare_shipping. apply Forall_fmap, Forall_forall.
    intros r _. apply derive_quality_review.
Qed.

(** ** consolidate_logs as a whole *)

Section consolidate_facts.
Variable to_datetime : value -> option Timestamp.

Lemma filter_unique_key {A K : Type} `{EqDecision K} (key : A -> K)
    (l : list A) (k : K) :
  NoDup (key <$> l) ->
  filter (fun x => key x = k) l = option_list (first_by key k l).
Proof.
  induction l as [|y ys IH]; [done|].
  rewrite fmap_cons, NoDup_cons. intros [Hy Hnd].
  rewrite filter_cons, first_by_cons. case_decide as Hk; [|by apply IH].
  simpl. f_equal. rewrite (IH Hnd).
  destruct (first_by key k ys) as [z|] eqn:Hz; [|done].
  apply first_by_Some in Hz as (Hkz & before & after & -> & _).
  exfalso. apply Hy. rewrite Hk, <- Hkz. apply list_elem_of_fmap_2.
  apply elem_of_app. right. by left.
Qed.

Lemma first_by_latest_shipping shipping lot :
  first_by s_lot lot (_latest_shipping_by_lot shipping) = join_target shipping lot.
Proof.
  unfold _latest_shipping_by_lot.
  rewrite first_by_drop_duplicates, first_by_sort_latest.
  destruct lot as [l|]; simpl; [apply latest_of_lot_valid|].
  apply latest_of_lot_None. intros r [[l Hl] _]%list_elem_of_filter.
  by rewrite Hl.
Qed.

Lemma merge_left_latest production shipping :
  merge_left production (_latest_shipping_by_lot shipping)
  = (fun p => (p, join_target shipping (p_lot p))) <$> production.
Proof.
  unfold merge_left. induction production as [|p ps IH]; [done|].
  rewrite fmap_cons, bind_cons, IH. clear IH.
  rewrite (filter_unique_key s_lot) by apply NoDup_drop_duplicates.
  rewrite first_by_latest_shipping.
  by destruct (join_target shipping (p_lot p)).
Qed.

(** [consolidate_logs] with the join spelt out. *)
Lemma consolidate_logs_joined production_df shipping_df include_flagged :
  consolidate_logs to_datetime production_df shipping_df include_flagged
  = (conflict_rows ← _detect_conflicts
                        (_prepare_production to_datetime production_df)
                        (_prepare_shipping to_datetime shipping_df);
     Ok {| consolidation.production := _prepare_production to_datetime production_df;
           consolidation.shipping := _prepare_shipping to_datetime shipping_df;
           consolidated :=
             with_aliases
               (alias_lookup_of (_prepare_production to_datetime production_df)
                                (_prepare_shipping to_datetime shipping_df))
               <$> (if include_flagged
                    then (fun p =>
                            finalize_row (conflict_lot <$> conflict_rows)
                              (p, join_target
                                    (_prepare_shipping to_datetime shipping_df)
                                    (p_lot p)))
                           <$> _prepare_production to_datetime production_df
                    else filter (fun r => c_needs_review r = false)
                           ((fun p =>
                               finalize_row (conflict_lot <$> conflict_rows)
                                 (p, join_target
                                       (_prepare_shipping to_datetime shipping_df)
                                       (p_lot p)))
                              <$> _prepare_production to_datetime production_df));
           flagged_rows :=
             filter (fun r => c_needs_review r = true)
               ((fun p =>
                   finalize_row (conflict_lot <$> conflict_rows)
                     (p, join_target
                           (_prepare_shipping to_datetime shipping_df)
                           (p_lot p)))
                  <$> _prepare_production to_datetime production_df);
           conflict_rows := conflict_rows |}).
Proof.
  unfold consolidate_logs.
  destruct (_detect_conflicts _ _) as [conflict_rows|e]; [|done].
  simpl. by rewrite merge_left_latest, <- list_fmap_compose.
Qed.

Lemma c_production_finalize lots shipping (ps : list production_row) :
  c_production <$> ((fun p => finalize_row lots (p, join_target shipping (p_lot p)))
                      <$> ps) = ps.
Proof.
  rewrite <- list_fmap_compose. induction ps as [|p ps IH]; [done|].
  by rewrite fmap_cons, IH.
Qed.

Lemma c_production_with_aliases lookup (rows : list consolidated_row) :
  c_production <$> (with_aliases lookup <$> rows) = c_production <$> rows.
Proof. rewrite <- list_fmap_compose. done. Qed.

Lemma c_needs_review_with_aliases lookup (rows : list consolidated_row) :
  Forall (fun r => c_needs_review r = false) rows ->
  Forall (fun r => c_needs_review r = false) (with_aliases lookup <$> rows).
Proof. intros H. apply Forall_fmap. by eapply Forall_impl. Qed.

End consolidate_facts.

#[local] Arguments finalize_row : simpl never.
#[local] Arguments with_aliases : simpl never.

(** X4. When [consolidate_logs] returns, no production row is lost or
    repeated by the join: with flagged rows included, the consolidated
    frame holds the prepared production rows once each, in their order;
    without them, the flagged rows and the consolidated rows together are
    the prepared production rows, the first all needing review and the
    second none of them. *)
Theorem consolidate_logs_keeps_every_production_row
    (to_datetime : value -> option Timestamp)
    (production_df : list production_input) (shipping_df : list shipping_input)
    (include_flagged : bool) (res : ConsolidationResult) :
  consolidate_logs to_datetime production_df shipping_df include_flagged = Ok res ->
  production res = _prepare_production to_datetime production_df
  ∧ length (production res) = length production_df
  ∧ Forall (fun r => c_needs_review r = true) (flagged_rows res)
  ∧ (include_flagged = true ->
     c_production <$> consolidated res = production res)
  ∧ (include_flagged = false ->
     Forall (fun r => c_needs_review r = false) (consolidated res)
     ∧ (c_production <$> flagged_rows res) ++ (c_production <$> consolidated res)
       ≡ₚ production res
     ∧ (length (flagged_rows res) + length (consolidated res))%nat
       = length production_df).
Proof.
  rewrite consolidate_logs_joined.
  destruct (_detect_conflicts _ _) as [conflict_rows|e]; [|done].
  simpl. intros [= <-]. simpl.
  set (production := _prepare_production to_datetime production_df).
  set (shipping := _prepare_shipping to_datetime shipping_df).
  set (joined := (fun p => finalize_row (conflict_lot <$> conflict_rows)
                             (p, join_target shipping (p_lot p))) <$> production).
  assert (Hjoined : c_production <$> joined = production)
    by apply c_production_finalize.
  assert (Hlen : length production = length production_df)
    by apply length_fmap.
  split; [done|]. split; [done|]. split.
  { apply Forall_forall. by intros r [? _]%list_elem_of_filter. }
  split.
  { intros ->. by rewrite c_production_with_aliases. }
  intros ->.
  assert (Hfilter : filter (fun r => c_needs_review r = false) joined
                    = filter (fun r => ¬ c_needs_review r = true) joined).
  { apply list_filter_iff. intros r. by destruct (c_needs_review r). }
  assert (Hperm : filter (fun r => c_needs_review r = true) joined
                  ++ filter (fun r => c_needs_review r = false) joined ≡ₚ joined).
  { rewrite Hfilter. apply filter_app_complement. }
  split; [|split].
  - apply c_needs_review_with_aliases, Forall_forall.
    by intros r [? _]%list_elem_of_filter.
  - by rewrite c_production_with_aliases, <- fmap_app, Hperm, Hjoined.
  - rewrite length_fmap, <- length_app, Hperm, <- Hlen. unfold joined.
    by rewrite length_fmap.
Qed.

(** On the test tables, two of the four production rows are flagged. *)
Lemma consolidate_logs_keeps_rows_witness :
  exists res,
    consolidate_logs dates.to_datetime production_df shipping_df false = Ok res
    ∧ length (flagged_rows res) = 2%nat
    ∧ (length (flagged_rows res) + length (consolidated res))%nat
      = length production_df.
Proof.
  destruct (consolidate_logs dates.to_datetime production_df shipping_df false)
    as [res|e] eqn:Hres; [|by vm_compute in Hres].
  exists res. split; [done|]. split.
  - vm_compute in Hres. by injection Hres as <-.
  - exact (proj2 (proj2 (proj2 (proj2 (proj2 (proj2
             (consolidate_logs_keeps_every_production_row _ _ _ _ _ Hres))))
             eq_refl))).
Defined.

Section join_facts.

Lemma finalize_row_joined lots shipping p :
  joined_to_latest shipping (finalize_row lots (p, join_target shipping (p_lot p))).
Proof.
  unfold joined_to_latest, join_target, finalize_row, c_lot. simpl.
  destruct (p_lot p) as [l|] eqn:Hl; simpl.
  - destruct (latest_of_lot (Some l) shipping) as [s|] eqn:Hs; simpl.
    + left. split; [done|]. split; [by eexists|].
      apply latest_of_lot_Some in Hs as (Hlot & before & after & -> & Hb & Ha).
      exists s, before, after. rewrite Hlot. repeat split; auto.
    + right. rewrite orb_true_r. repeat split; try done.
      intros s Hs' _. by apply (proj1 (latest_of_lot_None _ _) Hs).
  - right. rewrite orb_true_r. repeat split; try done; by intros s _ [? ?].
Qed.

Lemma with_aliases_joined lookup shipping r :
  joined_to_latest shipping r -> joined_to_latest shipping (with_aliases lookup r).
Proof. done. Qed.

Lemma with_aliases_fields lookup r :
  c_production (with_aliases lookup r) = c_production r
  ∧ c_needs_review (with_aliases lookup r) = c_needs_review r
  ∧ has_conflict (with_aliases lookup r) = has_conflict r
  ∧ c_ship_status (with_aliases lookup r) = c_ship_status r.
Proof. done. Qed.

End join_facts.

(** X5. When [consolidate_logs] returns, every row of [consolidated] and
    of [flagged_rows] is either matched, and then carries the status, the
    date, the source and the raw lot id of the shipping row of its
    canonical lot with the greatest ship date (the earliest such row, an
    absent date ranking lowest); or unmatched, with absent shipping
    columns and in need of review, and then it has no canonical lot or no
    shipping row has that lot. *)
Theorem consolidate_logs_joins_latest_shipping
    (to_datetime : value -> option Timestamp)
    (production_df : list production_input) (shipping_df : list shipping_input)
    (include_flagged : bool) (res : ConsolidationResult) :
  consolidate_logs to_datetime production_df shipping_df include_flagged = Ok res ->
  Forall (joined_to_latest (shipping res)) (consolidated res)
  ∧ Forall (joined_to_latest (shipping res)) (flagged_rows res).
Proof.
  rewrite consolidate_logs_joined.
  destruct (_detect_conflicts _ _) as [conflict_rows|e]; [|done].
  simpl. intros [= <-]. simpl.
  assert (Hall : Forall (joined_to_latest (_prepare_shipping to_datetime shipping_df))
            ((fun p => finalize_row (conflict_lot <$> conflict_rows)
                         (p, join_target (_prepare_shipping to_datetime shipping_df)
                               (p_lot p)))
               <$> _prepare_production to_datetime production_df)).
  { apply Forall_fmap, Forall_forall. intros p _. apply finalize_row_joined. }
  split.
  - apply Forall_fmap. destruct include_flagged.
    + eapply Forall_impl; [exact Hall|]. intros r. apply with_aliases_joined.
    + apply Forall_forall. intros r [_ Hr]%list_elem_of_filter.
      rewrite Forall_forall in Hall. by apply with_aliases_joined, Hall.
  - apply Forall_forall. intros r [_ Hr]%list_elem_of_filter.
    rewrite Forall_forall in Hall. by apply Hall.
Qed.

(** On the test tables the production row of lot LOT-20260203-001 is
    joined to the later of its two shipping rows, and every row is
    described by the join. *)
Lemma consolidate_logs_joins_witness :
  exists res,
    consolidate_logs dates.to_datetime production_df shipping_df true = Ok res
    ∧ (fun r => (c_lot r, c_ship_status r)) <$> consolidated res
      = [ (Some "LOT-20260202-001", Some "Shipped");
          (Some "LOT-20260203-001", Some "Partial");
          (Some "LOT-20260204-001", None);
          (None, None) ]
    ∧ Forall (joined_to_latest (shipping res)) (consolidated res).
Proof.
  destruct (consolidate_logs dates.to_datetime production_df shipping_df true)
    as [res|e] eqn:Hres; [|by vm_compute in Hres].
  exists res. split; [done|]. split.
  - vm_compute in Hres. by injection Hres as <-.
  - exact (proj1 (consolidate_logs_joins_latest_shipping _ _ _ _ _ Hres)).
Defined.

(** X6. Without flagged rows, every row of the [consolidated] output is
    clean: it needs no review, it is matched to a shipping row, and it has
    a parsed production date, a canonical lot id, a shipping status, and a
    list of aliases. *)
Theorem consolidate_logs_default_rows_are_clean
    (to_datetime : value -> option Timestamp)
    (production_df : list production_input) (shipping_df : list shipping_input)
    (res : ConsolidationResult) :
  consolidate_logs to_datetime production_df shipping_df false = Ok res ->
  Forall (fun r =>
            c_needs_review r = false
            ∧ shipping_match_status r = "matched"
            ∧ is_Some (c_ship_status r)
            ∧ is_Some (c_lot r)
            ∧ is_Some (production_date (c_production r))
            ∧ is_Some (raw_lot_aliases r))
         (consolidated res).
Proof.
  rewrite consolidate_logs_joined.
  destruct (_detect_conflicts _ _) as [conflict_rows|e]; [|done].
  simpl. intros [= <-]. simpl.
  apply Forall_fmap, Forall_forall.
  intros r [Hclean (p & -> & Hp)%list_elem_of_fmap]%list_elem_of_filter.
  apply list_elem_of_fmap in Hp as (pin & -> & _).
  set (p := prepare_production_row to_datetime pin) in *.
  pose proof (finalize_row_joined (conflict_lot <$> conflict_rows)
                (_prepare_shipping to_datetime shipping_df) p) as Hj.
  set (r := finalize_row _ _) in *.
  assert (Hq : needs_review (p_quality p) = false).
  { assert (Hr : c_needs_review r
                 = needs_review (p_quality p)
                   || bool_decide (shipping_match_status r = "unmatched")).
    { unfold r, finalize_row. by destruct (join_target _ _). }
    rewrite Hr in Hclean. by apply orb_false_iff in Hclean as [? _]. }
  pose proof (proj2 (derive_quality_review to_datetime _ _ _) Hq)
    as (Hdate & Hlot & _).
  destruct Hj as [(Hm & _ & s & _ & _ & _ & _ & Hst & _)|(_ & Hrev & _)].
  - unfold compose.
    split; [exact Hclean|]. split; [exact Hm|]. split.
    { change (is_Some (c_ship_status r)). rewrite Hst. by eexists. }
    split; [exact Hlot|]. split; [exact Hdate|]. by eexists.
  - congruence.
Qed.

(** On the test tables the default output holds the two clean rows. *)
Lemma consolidate_logs_default_rows_witness :
  exists res,
    consolidate_logs dates.to_datetime production_df shipping_df false = Ok res
    ∧ p_source <$> (c_production <$> consolidated res) = [prod_ref 2; prod_ref 3]
    ∧ Forall (fun r => c_needs_review r = false
                       ∧ shipping_match_status r = "matched"
                       ∧ is_Some (c_ship_status r) ∧ is_Some (c_lot r)
                       ∧ is_Some (production_date (c_production r))
                       ∧ is_Some (raw_lot_aliases r))
             (consolidated res).
Proof.
  destruct (consolidate_logs dates.to_datetime production_df shipping_df false)
    as [res|e] eqn:Hres; [|by vm_compute in Hres].
  exists res. split; [done|]. split.
  - vm_compute in Hres. by injection Hres as <-.
  - exact (consolidate_logs_default_rows_are_clean _ _ _ _ Hres).
Defined.

(** ** Conflict records and the conflict flag *)

Section conflict_record_facts.
Variables (production : list production_row) (shipping : list shipping_row).

Lemma group_or_empty_Some {A : Type} (lot_of : A -> option string)
    (rows : list A) (lot : string) (g : list A) :
  group_or_empty lot_of rows lot = Some g ->
  g = filter (fun r => lot_of r = Some lot) rows.
Proof.
  intros H. rewrite <- (group_or_empty_rows lot_of rows lot). by rewrite H.
Qed.

(** The record of a lot, as line 165 to 175 build it from all its rows. *)
Lemma conflicts_over_records lots records :
  conflicts_over production shipping lots = Ok records ->
  Forall (fun rec =>
            rec = {| conflict_lot := conflict_lot rec;
                     conflict_production_lines :=
                       sorted_strings
                         (list_to_set
                            (omap production_line
                               (filter (fun r => p_lot r = Some (conflict_lot rec))
                                       production)));
                     conflict_ship_statuses :=
                       sorted_strings
                         (list_to_set
                            (ship_status
                               <$> filter (fun r => s_lot r = Some (conflict_lot rec))
                                          shipping));
                     production_sources :=
                       drop_duplicates id
                         (p_source <$> filter (fun r => p_lot r = Some (conflict_lot rec))
                                              production);
                     shipping_sources :=
                       drop_duplicates id
                         (s_source <$> filter (fun r => s_lot r = Some (conflict_lot rec))
                                              shipping) |})
         records.
Proof.
  revert records. induction lots as [|lot lots IH]; intros records; simpl.
  { intros [= <-]. constructor. }
  destruct (decide (conflicted production shipping lot)) as [Hc|Hc].
  - rewrite (conflict_of_lot_conflicted _ _ lot Hc).
    destruct (group_or_empty p_lot production lot) as [prod_rows|] eqn:Hp; [|done].
    destruct (group_or_empty s_lot shipping lot) as [ship_rows|] eqn:Hs; [|done].
    simpl. destruct (conflicts_over production shipping lots) as [rest|]; [|done].
    simpl. intros [= <-]. simpl. constructor; [|by apply IH].
    simpl. apply group_or_empty_Some in Hp, Hs. by subst.
  - rewrite (conflict_of_lot_quiet _ _ lot Hc). simpl.
    destruct (conflicts_over production shipping lots) as [rest|]; [|done].
    simpl. intros [= <-]. by apply IH.
Qed.

Lemma conflicts_over_raise lots e :
  conflicts_over production shipping lots = Raise e ->
  e = KeyError ["source_file"; "source_sheet"; "source_row"]
  ∧ exists lot,
      conflicted production shipping lot
      ∧ ((forall r, r ∈ production -> p_lot r <> Some lot)
         ∨ (forall r, r ∈ shipping -> s_lot r <> Some lot)).
Proof.
  induction lots as [|lot lots IH]; simpl; [done|].
  destruct (decide (conflicted production shipping lot)) as [Hc|Hc].
  - rewrite (conflict_of_lot_conflicted _ _ lot Hc).
    destruct (group_or_empty p_lot production lot) as [prod_rows|] eqn:Hp.
    + destruct (group_or_empty s_lot shipping lot) as [ship_rows|] eqn:Hs.
      * simpl. destruct (conflicts_over production shipping lots) as [rest|e'];
          [done|]. simpl. intros [= <-]. by apply IH.
      * simpl. intros [= <-]. split; [done|]. exists lot. split; [done|].
        right. by apply group_or_empty_None.
    + simpl. intros [= <-]. split; [done|]. exists lot. split; [done|].
      left. by apply group_or_empty_None.
  - rewrite (conflict_of_lot_quiet _ _ lot Hc). simpl.
    destruct (conflicts_over production shipping lots) as [rest|e'];
      [done|]. simpl. intros [= <-]. by apply IH.
Qed.

Lemma elem_of_drop_duplicates_id {A : Type} `{EqDecision A} (l : list A) x :
  x ∈ drop_duplicates id l <-> x ∈ l.
Proof.
  rewrite elem_of_drop_duplicates. simpl. split.
  - intros (_ & before & after & -> & _)%first_by_Some.
    apply elem_of_app. right. by left.
  - intros Hx. destruct (first_by id x l) as [y|] eqn:Hy.
    + apply first_by_Some in Hy as [Hy _]. simpl in Hy. by rewrite Hy.
    + exfalso. by apply (proj1 (first_by_None _ _ _) Hy x).
Qed.

Lemma NoDup_drop_duplicates_id {A : Type} `{EqDecision A} (l : list A) :
  NoDup (drop_duplicates id l).
Proof.
  pose proof (NoDup_drop_duplicates (@id A) l) as H.
  by rewrite list_fmap_id in H.
Qed.

End conflict_record_facts.

Section conflict_flag_facts.

Lemma has_conflict_finalize lots pr :
  has_conflict (finalize_row lots pr) = true
  <-> exists l, p_lot pr.1 = Some l ∧ l ∈ lots.
Proof.
  destruct pr as [p s]. unfold finalize_row. simpl.
  destruct lots as [|l0 lots].
  { split; [done|]. intros (l & _ & Hl). by apply elem_of_nil in Hl. }
  destruct (p_lot p) as [l|].
  - rewrite bool_decide_eq_true. split; [by exists l|]. by intros (? & [= <-] & ?).
  - split; [done|]. by intros (? & ? & _).
Qed.

End conflict_flag_facts.

(** X7. When [_detect_conflicts] returns, it returns one record for each
    conflicted lot (a lot with two production lines or two shipping
    statuses) and for no other, in ascending order of the lot; the lines
    and the statuses of a record are those of the rows of the lot, sorted
    and without repetition, and its sources are the distinct source
    references of those rows. *)
Theorem detect_conflicts_record_contents
    (production : list production_row) (shipping : list shipping_row)
    (records : list conflict_record) :
  _detect_conflicts production shipping = Ok records ->
  Sorted String.le (conflict_lot <$> records)
  ∧ NoDup (conflict_lot <$> records)
  ∧ (forall lot, lot ∈ conflict_lot <$> records <-> conflicted production shipping lot)
  ∧ Forall
      (fun rec =>
         let lot := conflict_lot rec in
         Sorted String.le (conflict_production_lines rec)
         ∧ NoDup (conflict_production_lines rec)
         ∧ (forall x, x ∈ conflict_production_lines rec
                      <-> exists r, r ∈ production ∧ p_lot r = Some lot
                                    ∧ production_line r = Some x)
         ∧ Sorted String.le (conflict_ship_statuses rec)
         ∧ NoDup (conflict_ship_statuses rec)
         ∧ (forall x, x ∈ conflict_ship_statuses rec
                      <-> exists r, r ∈ shipping ∧ s_lot r = Some lot
                                    ∧ ship_status r = x)
         ∧ NoDup (production_sources rec)
         ∧ (forall src, src ∈ production_sources rec
                        <-> exists r, r ∈ production ∧ p_lot r = Some lot
                                      ∧ p_source r = src)
         ∧ NoDup (shipping_sources rec)
         ∧ (forall src, src ∈ shipping_sources rec
                        <-> exists r, r ∈ shipping ∧ s_lot r = Some lot
                                      ∧ s_source r = src))
      records.
Proof.
  intros Hok.
  destruct (detect_conflicts_records _ _ _ Hok) as (Hnd & Hs & Hin).
  split; [done|]. split; [done|]. split; [done|].
  unfold _detect_conflicts in Hok. apply conflicts_over_records in Hok.
  eapply Forall_impl; [exact Hok|]. intros rec Hrec. simpl in *.
  set (lot := conflict_lot rec) in *.
  destruct (sorted_strings_spec
              (list_to_set (omap production_line
                 (filter (fun r => p_lot r = Some lot) production))))
    as (Hls & Hln & Hle).
  destruct (sorted_strings_spec
              (list_to_set (ship_status
                 <$> filter (fun r => s_lot r = Some lot) shipping)))
    as (Hss & Hsn & Hse).
  rewrite Hrec. simpl.
  split; [done|]. split; [done|]. split.
  { intros x. rewrite Hle, elem_of_list_to_set, list_elem_of_omap.
    split.
    - intros (r & [? ?]%list_elem_of_filter & ?). by exists r.
    - intros (r & ? & ? & ?). exists r. split; [|done].
      by apply list_elem_of_filter. }
  split; [done|]. split; [done|]. split.
  { intros x. rewrite Hse, elem_of_list_to_set, list_elem_of_fmap.
    split.
    - intros (r & -> & [? ?]%list_elem_of_filter). by exists r.
    - intros (r & ? & ? & <-). exists r. split; [done|].
      by apply list_elem_of_filter. }
  split; [apply NoDup_drop_duplicates_id|]. split.
  { intros src. rewrite elem_of_drop_duplicates_id, list_elem_of_fmap.
    split.
    - intros (r & -> & [? ?]%list_elem_of_filter). by exists r.
    - intros (r & ? & ? & <-). exists r. split; [done|].
      by apply list_elem_of_filter. }
  split; [apply NoDup_drop_duplicates_id|].
  intros src. rewrite elem_of_drop_duplicates_id, list_elem_of_fmap.
  split.
  - intros (r & -> & [? ?]%list_elem_of_filter). by exists r.
  - intros (r & ? & ? & <-). exists r. split; [done|].
    by apply list_elem_of_filter.
Qed.

(** On the test tables there is one conflicted lot, shipped under two
    statuses. *)
Lemma detect_conflicts_record_witness :
  exists records,
    _detect_conflicts (_prepare_production dates.to_datetime production_df)
      (_prepare_shipping dates.to_datetime shipping_df) = Ok records
    ∧ conflict_lot <$> records = ["LOT-20260203-001"]
    ∧ conflict_ship_statuses <$> records = [["On Hold"; "Partial"]]
    ∧ NoDup (conflict_lot <$> records).
Proof.
  destruct (_detect_conflicts (_prepare_production dates.to_datetime production_df)
              (_prepare_shipping dates.to_datetime shipping_df))
    as [records|e] eqn:Hrec; [|by vm_compute in Hrec].
  exists records. split; [done|].
  split; [vm_compute in Hrec; by injection Hrec as <-|].
  split; [vm_compute in Hrec; by injection Hrec as <-|].
  exact (proj1 (proj2 (detect_conflicts_record_contents _ _ _ Hrec))).
Defined.

(** X8. [_detect_conflicts] raises exactly when some conflicted lot has
    rows on one side only, production or shipping, and then it raises the
    [KeyError] of the three source columns; in every other case it returns
    its records. *)
Theorem detect_conflicts_raises_iff_one_sided_conflict
    (production : list production_row) (shipping : list shipping_row) :
  (forall e, _detect_conflicts production shipping = Raise e
             <-> e = KeyError ["source_file"; "source_sheet"; "source_row"]
                 ∧ exists lot,
                     conflicted production shipping lot
                     ∧ ((forall r, r ∈ production -> p_lot r <> Some lot)
                        ∨ (forall r, r ∈ shipping -> s_lot r <> Some lot)))
  ∧ ((forall lot, conflicted production shipping lot ->
                  (exists r, r ∈ production ∧ p_lot r = Some lot)
                  ∧ (exists r, r ∈ shipping ∧ s_lot r = Some lot))
     <-> exists records, _detect_conflicts production shipping = Ok records).
Proof.
  assert (Hraise : forall e, _detect_conflicts production shipping = Raise e
             <-> e = KeyError ["source_file"; "source_sheet"; "source_row"]
                 ∧ exists lot,
                     conflicted production shipping lot
                     ∧ ((forall r, r ∈ production -> p_lot r <> Some lot)
                        ∨ (forall r, r ∈ shipping -> s_lot r <> Some lot))).
  { intros e. split.
    - apply conflicts_over_raise.
    - intros (-> & lot & Hc & Hside). by apply (detect_conflicts_raises _ _ lot). }
  split; [exact Hraise|]. split.
  - intros Hboth.
    destruct (_detect_conflicts production shipping) as [records|e] eqn:Hd;
      [by exists records|].
    exfalso. destruct (proj1 (Hraise e) eq_refl) as (_ & lot & Hc & Hside).
    destruct (Hboth lot Hc) as [(p & Hp & Hpl) (q & Hq & Hql)].
    destruct Hside as [Hside|Hside]; [by apply (Hside p)|by apply (Hside q)].
  - intros [records Hok] lot Hc.
    assert (Hp : group_or_empty p_lot production lot <> None).
    { intros Hnone.
      rewrite (detect_conflicts_raises _ _ lot Hc
                 (or_introl (proj1 (group_or_empty_None _ _ _) Hnone))) in Hok.
      done. }
    assert (Hs : group_or_empty s_lot shipping lot <> None).
    { intros Hnone.
      rewrite (detect_conflicts_raises _ _ lot Hc
                 (or_intror (proj1 (group_or_empty_None _ _ _) Hnone))) in Hok.
      done. }
    split.
    + destruct (filter (fun r => p_lot r = Some lot) production) as [|p ps] eqn:Hf.
      * exfalso. apply Hp. unfold group_or_empty. by rewrite Hf.
      * exists p.
        assert (Hin : p ∈ filter (fun r => p_lot r = Some lot) production)
          by (rewrite Hf; by left).
        apply list_elem_of_filter in Hin. tauto.
    + destruct (filter (fun r => s_lot r = Some lot) shipping) as [|q qs] eqn:Hf.
      * exfalso. apply Hs. unfold group_or_empty. by rewrite Hf.
      * exists q.
        assert (Hin : q ∈ filter (fun r => s_lot r = Some lot) shipping)
          by (rewrite Hf; by left).
        apply list_elem_of_filter in Hin. tauto.
Qed.

(** X9. When [consolidate_logs] returns, a row of [consolidated] or of
    [flagged_rows] has [has_conflict] set exactly when it has a canonical
    lot and that lot is conflicted in the prepared tables; and the lots of
    [conflict_rows] are those conflicted lots. *)
Theorem consolidate_logs_conflict_flag
    (to_datetime : value -> option Timestamp)
    (production_df : list production_input) (shipping_df : list shipping_input)
    (include_flagged : bool) (res : ConsolidationResult) :
  consolidate_logs to_datetime production_df shipping_df include_flagged = Ok res ->
  let flagged_as_conflicted r :=
    has_conflict r = true
    <-> exists l, c_lot r = Some l ∧ conflicted (production res) (shipping res) l in
  Forall flagged_as_conflicted (consolidated res)
  ∧ Forall flagged_as_conflicted (flagged_rows res)
  ∧ (forall l, l ∈ conflict_lot <$> conflict_rows res
               <-> conflicted (production res) (shipping res) l).
Proof.
  rewrite consolidate_logs_joined.
  destruct (_detect_conflicts _ _) as [records|e] eqn:Hrec; [|done].
  simpl. intros [= <-]. simpl.
  destruct (detect_conflicts_records _ _ _ Hrec) as (_ & _ & Hin).
  set (production := _prepare_production to_datetime production_df) in *.
  set (shipping := _prepare_shipping to_datetime shipping_df) in *.
  assert (Hall : Forall
            (fun r => has_conflict r = true
                      <-> exists l, c_lot r = Some l ∧ conflicted production shipping l)
            ((fun p => finalize_row (conflict_lot <$> records)
                         (p, join_target shipping (p_lot p))) <$> production)).
  { apply Forall_fmap, Forall_forall. intros p _. unfold compose.
    rewrite has_conflict_finalize. simpl.
    split; intros (l & Hl & Hc); exists l; (split; [exact Hl|by apply Hin]). }
  split; [|split; [|done]].
  - apply Forall_fmap. destruct include_flagged.
    + eapply Forall_impl; [exact Hall|]. by intros r.
    + apply Forall_forall. intros r [_ Hr]%list_elem_of_filter.
      rewrite Forall_forall in Hall. by apply (Hall r).
  - apply Forall_forall. intros r [_ Hr]%list_elem_of_filter.
    rewrite Forall_forall in Hall. by apply Hall.
Qed.

(** On the test tables the row of the lot shipped under two statuses is the
    one with the flag. *)
Lemma consolidate_logs_conflict_flag_witness :
  exists res,
    consolidate_logs dates.to_datetime production_df shipping_df true = Ok res
    ∧ (fun r => (c_lot r, has_conflict r)) <$> consolidated res
      = [ (Some "LOT-20260202-001", false);
          (Some "LOT-20260203-001", true);
          (Some "LOT-20260204-001", false);
          (None, false) ]
    ∧ (forall l, l ∈ conflict_lot <$> conflict_rows res
                 <-> conflicted (production res) (shipping res) l).
Proof.
  destruct (consolidate_logs dates.to_datetime production_df shipping_df true)
    as [res|e] eqn:Hres; [|by vm_compute in Hres].
  exists res. split; [done|]. split.
  - vm_compute in Hres. by injection Hres as <-.
  - exact (proj2 (proj2 (consolidate_logs_conflict_flag _ _ _ _ _ Hres))).
Defined.

(** X10. When [consolidate_logs] returns, every row of [consolidated]
    carries the aliases of its canonical lot: the [str] texts of the raw
    lot ids of the prepared production and shipping rows of that lot,
    sorted and without repetition. A row with a canonical lot finds the
    text of its own raw lot id among them, a row without one carries the
    empty list, and two rows of the same lot carry the same aliases. *)
Theorem consolidate_logs_aliases
    (to_datetime : value -> option Timestamp)
    (production_df : list production_input) (shipping_df : list shipping_input)
    (include_flagged : bool) (res : ConsolidationResult) :
  consolidate_logs to_datetime production_df shipping_df include_flagged = Ok res ->
  Forall
    (fun r =>
       exists l,
         raw_lot_aliases r = Some l ∧ Sorted String.le l ∧ NoDup l
         ∧ (forall x, x ∈ l <->
              exists lot, c_lot r = Some lot
                ∧ ((exists row, row ∈ production res ∧ p_lot row = Some lot
                                ∧ str (p_raw_lot_id row) = x)
                   ∨ (exists row, row ∈ shipping res ∧ s_lot row = Some lot
                                  ∧ str (s_raw_lot_id row) = x)))
         ∧ (is_Some (c_lot r) -> str (p_raw_lot_id (c_production r)) ∈ l)
         ∧ (c_lot r = None -> l = []))
    (consolidated res)
  ∧ (forall r1 r2, r1 ∈ consolidated res -> r2 ∈ consolidated res ->
                   c_lot r1 = c_lot r2 -> raw_lot_aliases r1 = raw_lot_aliases r2).
Proof.
  rewrite consolidate_logs_joined.
  destruct (_detect_conflicts _ _) as [records|e]; [|done].
  simpl. intros [= <-]. simpl.
  set (production := _prepare_production to_datetime production_df).
  set (shipping := _prepare_shipping to_datetime shipping_df).
  set (joined := (fun p => finalize_row (conflict_lot <$> records)
                             (p, join_target shipping (p_lot p))) <$> production).
  assert (Hsub : forall r,
             r ∈ (if include_flagged then joined
                  else filter (fun r => c_needs_review r = false) joined) ->
             c_production r ∈ production).
  { intros r Hr.
    assert (Hj : r ∈ joined).
    { destruct include_flagged; [done|]. by apply list_elem_of_filter in Hr as [_ ?]. }
    by apply list_elem_of_fmap in Hj as (p & -> & Hp). }
  split.
  - apply Forall_fmap, Forall_forall. intros r Hr. unfold compose.
    destruct (with_aliases_spec production shipping r) as (l & Hl & Hs & Hn & He).
    exists l. split; [done|]. split; [done|]. split; [done|]. split; [done|].
    split.
    + intros [lot Hlot]. apply He. exists lot. split; [done|]. left.
      exists (c_production r). split; [by apply Hsub|done].
    + intros Hnone. change (c_lot r = None) in Hnone.
      destruct l as [|x l]; [done|]. exfalso.
      assert (Hx : x ∈ x :: l) by by left.
      apply He in Hx as (lot & Hlot & _). congruence.
  - intros r1 r2 (q1 & -> & _)%list_elem_of_fmap (q2 & -> & _)%list_elem_of_fmap.
    unfold with_aliases, c_lot. simpl. by intros ->.
Qed.

(** On the test tables a lot written in two ways carries both spellings,
    and the row without a canonical lot carries none. *)
Lemma consolidate_logs_aliases_witness :
  exists res,
    consolidate_logs dates.to_datetime production_df shipping_df true = Ok res
    ∧ raw_lot_aliases <$> consolidated res
      = [ Some [" LOT_20260202-001 "; "LOT-20260202-001"];
          Some ["L0T-20260203-001"; "LOT-20260203-001"];
          Some ["LOT20260204001"];
          Some [] ]
    ∧ (forall r1 r2, r1 ∈ consolidated res -> r2 ∈ consolidated res ->
                     c_lot r1 = c_lot r2 -> raw_lot_aliases r1 = raw_lot_aliases r2).
Proof.
  destruct (consolidate_logs dates.to_datetime production_df shipping_df true)
    as [res|e] eqn:Hres; [|by vm_compute in Hres].
  exists res. split; [done|]. split.
  - vm_compute in Hres. by injection Hres as <-.
  - exact (proj2 (consolidate_logs_aliases _ _ _ _ _ Hres)).
Defined.

(** ** The reports: orders *)

Section report_order_facts.

Lemma StronglySorted_impl {A : Type} (R1 R2 : A -> A -> Prop) (l : list A) :
  (forall x y, R1 x y -> R2 x y) -> StronglySorted R1 l -> StronglySorted R2 l.
Proof.
  intros HR. induction 1 as [|x l Hs IH Hx]; constructor; [done|].
  eapply Forall_impl; [exact Hx|]. intros y. apply HR.
Qed.

Lemma text_le_line_le a b : text_le a b = true <-> line_le a b.
Proof.
  destruct a as [x|], b as [y|]; simpl; try done.
  symmetry. apply Is_true_true.
Qed.

Lemma line_le_trans a b c : line_le a b -> line_le b c -> line_le a c.
Proof. rewrite <- !text_le_line_le. apply text_le_trans. Qed.

Lemma line_le_total a b : line_le a b ∨ line_le b a.
Proof. rewrite <- !text_le_line_le. apply text_le_total. Qed.

Lemma line_le_antisym a b : line_le a b -> line_le b a -> a = b.
Proof. rewrite <- !text_le_line_le. apply text_le_antisym. Qed.

Lemma ranking_le_spec a b : ranking_le a b = true <-> ranks_before a b.
Proof.
  unfold ranking_le, ranks_before.
  repeat case_decide; rewrite ?bool_decide_eq_true, ?text_le_line_le;
    intuition lia.
Qed.

Lemma ranks_before_trans a b c :
  ranks_before a b -> ranks_before b c -> ranks_before a c.
Proof.
  unfold ranks_before.
  intros [?|[? [?|[? Hab]]]] [?|[? [?|[? Hbc]]]];
    try (left; lia); try (right; split; [lia|left; lia]).
  right. split; [lia|]. right. split; [lia|]. by eapply line_le_trans.
Qed.

Lemma ranks_before_total a b : ranks_before a b ∨ ranks_before b a.
Proof.
  unfold ranks_before.
  destruct (lt_eq_lt_dec (issue_count a) (issue_count b)) as [[?|?]|?];
    [right; by left| |left; by left].
  destruct (lt_eq_lt_dec (total_rows a) (total_rows b)) as [[?|?]|?];
    [right; right; split; [done|by left]| |left; right; split; [done|by left]].
  destruct (line_le_total (rk_production_line a) (rk_production_line b));
    [left|right]; right; (split; [done|]); right; by split.
Qed.

Lemma trending_le_spec a b : trending_le a b = true <-> trends_before a b.
Proof.
  unfold trending_le, trends_before.
  repeat case_decide; rewrite ?bool_decide_eq_true, <- ?Is_true_true;
    intuition lia.
Qed.

Lemma trends_before_trans a b c :
  trends_before a b -> trends_before b c -> trends_before a c.
Proof.
  unfold trends_before.
  intros [?|[? [?|[? Hab]]]] [?|[? [?|[? Hbc]]]];
    try (left; lia); try (right; split; [lia|left; lia]).
  right. split; [lia|]. right. split; [lia|].
  by apply (transitivity (R:=String.le) (y:=issue_category b)).
Qed.

Lemma trends_before_total a b : trends_before a b ∨ trends_before b a.
Proof.
  unfold trends_before.
  destruct (Z.lt_trichotomy (current_count a) (current_count b)) as [?|[?|?]];
    [right; by left| |left; by left].
  destruct (Z.lt_trichotomy (delta a) (delta b)) as [?|[?|?]];
    [right; right; split; [done|by left]| |left; right; split; [done|by left]].
  destruct (String.le_total (issue_category a) (issue_category b));
    [left|right]; right; (split; [done|]); right; by split.
Qed.

Lemma date_le_antisym a b : date_le a b -> date_le b a -> a = b.
Proof. destruct a, b; simpl; try done. intros. f_equal. lia. Qed.

Lemma drill_le_spec a b : drill_le a b = true <-> drills_before a b.
Proof.
  unfold drill_le, drills_before, date_lt. case_decide as Hd.
  - rewrite text_le_line_le, Hd. split; [auto|]. intros [Hn|[_ ?]]; [|done].
    exfalso. apply Hn. by destruct (production_date (c_production b)); simpl.
  - rewrite desc_le_date_le. split.
    + intros Hba. left. intros Hab. apply Hd. by apply date_le_antisym.
    + intros [Hn|[? _]]; [|done].
      by destruct (date_le_total (production_date (c_production a))
                     (production_date (c_production b))).
Qed.

Lemma drills_before_trans a b c :
  drills_before a b -> drills_before b c -> drills_before a c.
Proof.
  unfold drills_before, date_lt.
  set (da := production_date (c_production a)).
  set (db := production_date (c_production b)).
  set (dc := production_date (c_production c)).
  intros [Hab|[Hab Lab]] [Hbc|[Hbc Lbc]].
  - left. intros Hac. apply Hab.
    destruct (date_le_total db dc) as [?|?]; [done|]. by eapply date_le_trans.
  - left. by rewrite <- Hbc.
  - left. by rewrite Hab.
  - right. split; [congruence|]. by eapply line_le_trans.
Qed.

Lemma drills_before_total a b : drills_before a b ∨ drills_before b a.
Proof.
  unfold drills_before, date_lt.
  set (da := production_date (c_production a)).
  set (db := production_date (c_production b)).
  destruct (decide (da = db)) as [Heq|Hne].
  - destruct (line_le_total (c_lot a) (c_lot b)); [left|right]; right; by split.
  - destruct (date_le_total da db) as [H|H]; [right|left]; left; intros H';
      apply Hne; by apply date_le_antisym.
Qed.

(** A stable sort by a total preorder, read through its relation. *)
Lemma sort_values_sorted {A : Type} (le : A -> A -> bool) (R : A -> A -> Prop)
    (l : list A) :
  (forall x y, le x y = true <-> R x y) ->
  (forall x y z, R x y -> R y z -> R x z) ->
  (forall x y, R x y ∨ R y x) ->
  StronglySorted R (sort_values le l).
Proof.
  intros Hspec Htrans Htotal.
  apply (StronglySorted_impl (fun x y => le x y = true)); [intros x y; apply Hspec|].
  apply sort_values_StronglySorted.
  - intros x y z. rewrite !Hspec. apply Htrans.
  - intros x y. rewrite !Hspec. apply Htotal.
Qed.

End report_order_facts.

(** ** The reports: the ranking and the drill-down of a line *)

Section ranking_order_facts.

Lemma weekly_summary_fields config consolidated anchor_date :
  weekly_summary config consolidated anchor_date
  = {| week_start := fst (week_bounds anchor_date);
       week_end := snd (week_bounds anchor_date);
       ranking :=
         ranking_of
           (filter (fun r => in_window (fst (week_bounds anchor_date))
                               (snd (week_bounds anchor_date)) r = true)
                   consolidated);
       trending :=
         trending_of
           (filter (fun r => in_window (fst (week_bounds anchor_date))
                               (snd (week_bounds anchor_date)) r = true)
                   consolidated)
           (filter (fun r => in_window
                               (fst (week_bounds anchor_date)
                                - comparison_period_days config * ns_per_day)
                               (snd (week_bounds anchor_date)
                                - comparison_period_days config * ns_per_day)
                               r = true)
                   consolidated) |}.
Proof. unfold weekly_summary. by destruct (week_bounds anchor_date). Qed.

Lemma fmap_section {A B : Type} (f : A -> B) (g : B -> A) (l : list A) :
  (forall x, g (f x) = x) -> g <$> (f <$> l) = l.
Proof.
  intros Hgf. induction l as [|x l IH]; [done|].
  by rewrite !fmap_cons, Hgf, IH.
Qed.

Lemma ranking_of_lines current :
  rk_production_line <$> ranking_of current ≡ₚ line_keys current.
Proof.
  unfold ranking_of. rewrite sort_values_Permutation. by rewrite fmap_section.
Qed.

Lemma size_list_to_set_le (l : list string) :
  (size (list_to_set l : gset string) <= length l)%nat.
Proof.
  induction l as [|x l IH]; [done|].
  change (size ({[x]} ∪ list_to_set l : gset string) <= S (length l))%nat.
  rewrite size_union_alt, size_singleton.
  assert (Hsub : list_to_set l ∖ {[x]} ⊆ (list_to_set l : gset string)).
  { intros y Hy. by apply elem_of_difference in Hy as [? _]. }
  apply subseteq_size in Hsub. lia.
Qed.

Lemma length_omap_le {A B : Type} (f : A -> option B) (l : list A) :
  (length (omap f l) <= length l)%nat.
Proof.
  induction l as [|x l IH]; [done|]. csimpl. destruct (f x); simpl; lia.
Qed.

Lemma aggregate_line_bounds current line :
  (exists r, r ∈ current ∧ c_line r = line) ->
  (1 <= total_rows (aggregate_line current line))%nat
  ∧ (issue_count (aggregate_line current line)
     <= total_rows (aggregate_line current line))%nat
  ∧ (unique_lots (aggregate_line current line)
     <= total_rows (aggregate_line current line))%nat.
Proof.
  intros (r & Hr & Hline). unfold aggregate_line. simpl.
  set (group := filter (fun r => c_line r = line) current).
  assert (Hin : r ∈ group) by by apply list_elem_of_filter.
  split; [|split].
  - destruct group; [by apply elem_of_nil in Hin|simpl; lia].
  - apply length_filter.
  - etrans; [apply size_list_to_set_le|apply length_omap_le].
Qed.

Lemma ranking_of_rows current :
  Forall (fun e => exists line, e = aggregate_line current line
                                ∧ exists r, r ∈ current ∧ c_line r = line)
         (ranking_of current).
Proof.
  unfold ranking_of. rewrite sort_values_Permutation.
  apply Forall_fmap, Forall_forall. intros line Hline.
  exists line. split; [done|]. by apply elem_of_line_keys.
Qed.

Lemma ranking_of_no_line current line :
  ¬ (exists r, r ∈ current ∧ c_line r = line) ->
  filter (fun e => rk_production_line e = line) (ranking_of current) = [].
Proof.
  intros Hno.
  destruct (filter _ (ranking_of current)) as [|e es] eqn:Hf; [done|].
  exfalso. apply Hno, elem_of_line_keys.
  assert (He : e ∈ filter (fun e => rk_production_line e = line) (ranking_of current))
    by (rewrite Hf; by left).
  apply list_elem_of_filter in He as [<- He].
  rewrite <- ranking_of_lines. by apply list_elem_of_fmap_2.
Qed.

(** The issue count the ranking shows for a line is the number of issue
    rows of that line. *)
Lemma ranking_issue_count current line :
  sum_list (issue_count <$> filter (fun e => rk_production_line e = line)
                                   (ranking_of current))
  = length (filter (fun r => c_issue r = true)
              (filter (fun r => c_line r = line) current)).
Proof.
  destruct (decide (line ∈ line_keys current)) as [Hl|Hl];
    rewrite elem_of_line_keys in Hl.
  - rewrite (ranking_of_line current line Hl). simpl. lia.
  - rewrite (ranking_of_no_line current line Hl). simpl.
    destruct (filter (fun r => c_line r = line) current) as [|r rs] eqn:Hf; [done|].
    exfalso. apply Hl. exists r.
    assert (Hr : r ∈ filter (fun r => c_line r = line) current)
      by (rewrite Hf; by left).
    by apply list_elem_of_filter in Hr as [? ?].
Qed.

End ranking_order_facts.

(** X11. The ranking of [weekly_summary] is in the order of its
    [sort_values]: more issues first, then more rows, then the line name
    with the null line last. It has one row for each production line value
    of the rows of the week and no other; each row counts at least one
    row, and no more issues or distinct lots than rows. The bounds it
    reports are those of [week_bounds]. *)
Theorem weekly_summary_ranking_order
    (config : AppConfig) (consolidated : list consolidated_row)
    (anchor_date : Timestamp) :
  let current :=
    filter (fun r => in_window (fst (week_bounds anchor_date))
                       (snd (week_bounds anchor_date)) r = true) consolidated in
  let summary := weekly_summary config consolidated anchor_date in
  (week_start summary, week_end summary) = week_bounds anchor_date
  ∧ StronglySorted ranks_before (ranking summary)
  ∧ NoDup (rk_production_line <$> ranking summary)
  ∧ (forall line, line ∈ rk_production_line <$> ranking summary
                  <-> exists r, r ∈ current ∧ c_line r = line)
  ∧ Forall (fun e => (1 <= total_rows e)%nat
                     ∧ (issue_count e <= total_rows e)%nat
                     ∧ (unique_lots e <= total_rows e)%nat)
           (ranking summary).
Proof.
  intros current summary. unfold summary.
  rewrite weekly_summary_fields. cbn [week_start week_end ranking]. fold current.
  split; [by destruct (week_bounds anchor_date)|]. split.
  { apply sort_values_sorted;
      [apply ranking_le_spec|apply ranks_before_trans|apply ranks_before_total]. }
  split; [rewrite ranking_of_lines; apply NoDup_line_keys|]. split.
  { intros line. rewrite ranking_of_lines. apply elem_of_line_keys. }
  eapply Forall_impl; [apply ranking_of_rows|].
  intros e (line & -> & Hline). by apply aggregate_line_bounds.
Qed.

(** X12. [drill_down_by_line] lists the rows the ranking counts as the
    issues of the line: the rows of that line with an issue and a
    production date in the week, each once, the later production date
    first and then by canonical lot id; their number is the issue count of
    the ranking row of the line, and zero when the ranking has no such
    row. The status it displays is the shipping status, or the configured
    label for an unmatched row. *)
Theorem drill_down_by_line_lists_ranked_issues
    (config : AppConfig) (consolidated : list consolidated_row)
    (line_name : string) (anchor_date : Timestamp) :
  let rows := drill_down_by_line config consolidated line_name anchor_date in
  StronglySorted (fun a b => drills_before (ld_row a) (ld_row b)) rows
  ∧ ld_row <$> rows
    ≡ₚ filter (fun r => c_line r = Some line_name
                        ∧ in_window (fst (week_bounds anchor_date))
                                    (snd (week_bounds anchor_date)) r = true
                        ∧ c_issue r = true) consolidated
  ∧ length rows
    = sum_list (issue_count
                  <$> filter (fun e => rk_production_line e = Some line_name)
                        (ranking (weekly_summary config consolidated anchor_date)))
  ∧ Forall (fun d =>
              latest_ship_date_display d = c_ship_date (ld_row d)
              ∧ match c_ship_status (ld_row d) with
                | Some status => ld_shipping_status_display d = status
                | None => ld_shipping_status_display d
                          = not_found_shipping_label config
                end) rows.
Proof.
  intros rows. unfold rows, drill_down_by_line.
  rewrite weekly_summary_fields. cbn [ranking].
  destruct (week_bounds anchor_date) as [week_start week_end]. simpl.
  set (picked := filter _ consolidated).
  split.
  { apply (sort_values_sorted _ (fun a b => drills_before (ld_row a) (ld_row b))).
    - intros x y. apply drill_le_spec.
    - intros x y z. apply drills_before_trans.
    - intros x y. apply drills_before_total. }
  split.
  { rewrite sort_values_Permutation. by rewrite fmap_section. }
  split.
  { rewrite ranking_issue_count, !list_filter_filter.
    rewrite (Permutation_length (sort_values_Permutation _ _)), length_fmap.
    unfold picked. f_equal. apply list_filter_iff. intros r. tauto. }
  rewrite sort_values_Permutation. apply Forall_fmap, Forall_forall.
  intros r _. simpl. split; [done|]. unfold status_display.
  by destruct (c_ship_status r).
Qed.

(** ** The reports: trends and the drill-down of a category *)

Section trending_facts.

Lemma issues_of_window rows lo hi c :
  filter (fun r => c_issue r = true ∧ c_category r = c)
         (filter (fun r => in_window lo hi r = true) rows)
  = issues_of rows lo hi c.
Proof.
  rewrite list_filter_filter. apply list_filter_iff. intros r. tauto.
Qed.

Lemma issue_categories_filter rows :
  issue_categories rows = c_category <$> filter (fun r => c_issue r = true) rows.
Proof. done. Qed.

Lemma count_of_window rows lo hi c :
  count_of c (issue_categories (filter (fun r => in_window lo hi r = true) rows))
  = Z.of_nat (length (issues_of rows lo hi c)).
Proof.
  unfold count_of. f_equal.
  rewrite issue_categories_filter, filter_fmap_list, length_fmap.
  rewrite <- issues_of_window, !list_filter_filter. f_equal.
  apply list_filter_iff. intros r. tauto.
Qed.

Lemma elem_of_categories_window rows lo hi c :
  c ∈ issue_categories (filter (fun r => in_window lo hi r = true) rows)
  <-> issues_of rows lo hi c <> [].
Proof.
  rewrite issue_categories_filter, list_elem_of_fmap. split.
  - intros (r & -> & [Hi [Hw Hr]%list_elem_of_filter]%list_elem_of_filter) Hnil.
    assert (Hin : r ∈ issues_of rows lo hi (c_category r))
      by by apply list_elem_of_filter.
    rewrite Hnil in Hin. by apply elem_of_nil in Hin.
  - intros Hne. destruct (issues_of rows lo hi c) as [|r rs] eqn:Hf; [done|].
    assert (Hin : r ∈ issues_of rows lo hi c) by (rewrite Hf; by left).
    apply list_elem_of_filter in Hin as [(Hw & Hi & Hc) Hr].
    exists r. split; [done|]. by rewrite !list_elem_of_filter.
Qed.

Lemma trending_of_categories current previous :
  issue_category <$> trending_of current previous
  ≡ₚ drop_duplicates id (issue_categories current ++ issue_categories previous).
Proof.
  unfold trending_of. rewrite sort_values_Permutation. by rewrite fmap_section.
Qed.

Lemma trending_of_rows current previous :
  Forall (fun t => t = trending_row_of (issue_categories current)
                         (issue_categories previous) (issue_category t))
         (trending_of current previous).
Proof.
  unfold trending_of. rewrite sort_values_Permutation.
  apply Forall_fmap, Forall_forall. by intros c _.
Qed.

Lemma trending_row_of_spec cur prev c t :
  t = trending_row_of cur prev c ->
  current_count t = count_of c cur
  ∧ previous_count t = count_of c prev
  ∧ delta t = current_count t - previous_count t
  ∧ (direction t = "up" <-> 0 < delta t)
  ∧ (direction t = "down" <-> delta t < 0)
  ∧ (direction t = "flat" <-> delta t = 0).
Proof.
  intros ->. unfold trending_row_of. simpl.
  repeat case_bool_decide; repeat split; try done; try lia.
Qed.

Lemma length_filter_split {A : Type} (P P1 P2 : A -> Prop)
    `{!forall x, Decision (P x), !forall x, Decision (P1 x),
      !forall x, Decision (P2 x)} (l : list A) :
  (forall x, x ∈ l -> P x <-> P1 x ∨ P2 x) ->
  (forall x, x ∈ l -> P1 x -> P2 x -> False) ->
  length (filter P l) = (length (filter P1 l) + length (filter P2 l))%nat.
Proof.
  induction l as [|x l IH]; intros Hsplit Hexcl; [done|].
  assert (IH' : length (filter P l)
                = (length (filter P1 l) + length (filter P2 l))%nat).
  { apply IH; intros y Hy; [apply Hsplit|apply Hexcl]; by right. }
  pose proof (Hsplit x ltac:(by left)) as Hx.
  pose proof (Hexcl x ltac:(by left)) as Hx'.
  rewrite !filter_cons.
  destruct (decide (P x)), (decide (P1 x)), (decide (P2 x)); simpl; try lia; tauto.
Qed.

End trending_facts.

(** X13. The trend table of [weekly_summary] has one row for each issue
    category (a missing primary issue counting as Unspecified) of the
    issue rows of the week or of the comparison window, and no other. A
    row holds the number of issue rows of its category in the week and in
    the comparison window, their difference as delta, and the direction up,
    down or flat as the delta is positive, negative or zero. The table is
    in the order of its [sort_values]: the greater current count first,
    then the greater delta, then the category name. *)
Theorem weekly_summary_trending
    (config : AppConfig) (consolidated : list consolidated_row)
    (anchor_date : Timestamp) :
  let week_start := fst (week_bounds anchor_date) in
  let week_end := snd (week_bounds anchor_date) in
  let shift := comparison_period_days config * ns_per_day in
  let table := trending (weekly_summary config consolidated anchor_date) in
  StronglySorted trends_before table
  ∧ NoDup (issue_category <$> table)
  ∧ (forall c, c ∈ issue_category <$> table
               <-> issues_of consolidated week_start week_end c <> []
                   ∨ issues_of consolidated (week_start - shift)
                                            (week_end - shift) c <> [])
  ∧ Forall
      (fun t =>
         current_count t
         = Z.of_nat (length (issues_of consolidated week_start week_end
                                       (issue_category t)))
         ∧ previous_count t
           = Z.of_nat (length (issues_of consolidated (week_start - shift)
                                         (week_end - shift) (issue_category t)))
         ∧ delta t = current_count t - previous_count t
         ∧ (direction t = "up" <-> 0 < delta t)
         ∧ (direction t = "down" <-> delta t < 0)
         ∧ (direction t = "flat" <-> delta t = 0))
      table.
Proof.
  intros week_start week_end shift table. unfold table.
  rewrite weekly_summary_fields. cbn [trending].
  fold week_start week_end shift.
  set (current := filter _ consolidated).
  set (previous := filter _ consolidated).
  split.
  { apply sort_values_sorted;
      [apply trending_le_spec|apply trends_before_trans|apply trends_before_total]. }
  split.
  { rewrite trending_of_categories. apply NoDup_drop_duplicates_id. }
  split.
  { intros c. rewrite trending_of_categories, elem_of_drop_duplicates_id.
    rewrite elem_of_app. unfold current, previous.
    by rewrite !elem_of_categories_window. }
  eapply Forall_impl; [apply trending_of_rows|].
  intros t Ht. apply trending_row_of_spec in Ht as (Hc & Hp & Hrest).
  unfold current, previous in Hc, Hp. rewrite count_of_window in Hc, Hp.
  by rewrite <- Hc, <- Hp.
Qed.

Section category_facts.

Lemma drill_down_by_category_fields config consolidated category anchor_date
    include_previous_period :
  drill_down_by_category config consolidated category anchor_date
    include_previous_period
  = sort_values (fun a b => drill_le (cd_row a) (cd_row b))
      ((fun r => {| cd_row := r;
                    cd_shipping_status_display := status_display config r;
                    cd_is_problematic_but_shipped :=
                      bool_decide (status_display config r ∈ ["Shipped"; "Partial"]) |})
         <$> issues_of consolidated
               (if include_previous_period
                then fst (week_bounds anchor_date)
                     - comparison_period_days config * ns_per_day
                else fst (week_bounds anchor_date))
               (snd (week_bounds anchor_date)) category).
Proof.
  unfold drill_down_by_category.
  destruct (week_bounds anchor_date) as [week_start week_end].
  destruct include_previous_period; simpl; by rewrite issues_of_window.
Qed.

Lemma length_drill_down_by_category config consolidated category anchor_date
    include_previous_period :
  length (drill_down_by_category config consolidated category anchor_date
            include_previous_period)
  = length (issues_of consolidated
              (if include_previous_period
               then fst (week_bounds anchor_date)
                    - comparison_period_days config * ns_per_day
               else fst (week_bounds anchor_date))
              (snd (week_bounds anchor_date)) category).
Proof.
  rewrite drill_down_by_category_fields.
  by rewrite (Permutation_length (sort_values_Permutation _ _)), length_fmap.
Qed.

Lemma trending_row_counts config consolidated anchor_date t :
  t ∈ trending (weekly_summary config consolidated anchor_date) ->
  current_count t
  = Z.of_nat (length (issues_of consolidated (fst (week_bounds anchor_date))
                        (snd (week_bounds anchor_date)) (issue_category t)))
  ∧ previous_count t
    = Z.of_nat (length (issues_of consolidated
                          (fst (week_bounds anchor_date)
                           - comparison_period_days config * ns_per_day)
                          (snd (week_bounds anchor_date)
                           - comparison_period_days config * ns_per_day)
                          (issue_category t))).
Proof.
  rewrite weekly_summary_fields. cbn [trending]. intros Ht.
  eapply Forall_forall in Ht; [|apply trending_of_rows].
  apply trending_row_of_spec in Ht as (Hc & Hp & _).
  rewrite count_of_window in Hc, Hp. by split.
Qed.

Lemma parsed_date_aligned to_datetime date_raw raw_lot provided_raw d :
  parsed_date (derive_quality to_datetime date_raw raw_lot provided_raw) = Some d ->
  d mod ns_per_day = 0.
Proof.
  unfold derive_quality, parse_mixed_date.
  destruct (is_none_or_nan date_raw); [done|].
  destruct (to_datetime date_raw) as [t|]; [|done].
  simpl. intros [= <-]. rewrite ts_normalize_spec. unfold ns_per_day.
  Z.div_mod_to_equations. lia.
Qed.

Lemma consolidated_dates_aligned to_datetime production_df shipping_df
    include_flagged res :
  consolidate_logs to_datetime production_df shipping_df include_flagged = Ok res ->
  Forall (fun r => forall d, production_date (c_production r) = Some d ->
                             d mod ns_per_day = 0)
         (consolidated res).
Proof.
  intros Hres.
  assert (Hprod : Forall (fun p => forall d, production_date p = Some d ->
                                             d mod ns_per_day = 0)
                         (_prepare_production to_datetime production_df)).
  { apply Forall_fmap, Forall_forall. intros pin _ d. apply parsed_date_aligned. }
  revert Hres. rewrite consolidate_logs_joined.
  destruct (_detect_conflicts _ _) as [records|e]; [|done].
  simpl. intros [= <-]. simpl. rewrite Forall_forall in Hprod.
  apply Forall_fmap, Forall_forall. intros r Hr. unfold compose.
  change (forall d, production_date (c_production r) = Some d -> d mod ns_per_day = 0).
  apply Hprod.
  assert (Hj : r ∈ (fun p => finalize_row (conflict_lot <$> records)
                               (p, join_target
                                     (_prepare_shipping to_datetime shipping_df)
                                     (p_lot p)))
                   <$> _prepare_production to_datetime production_df).
  { destruct include_flagged; [done|]. by apply list_elem_of_filter in Hr as [_ ?]. }
  by apply list_elem_of_fmap in Hj as (p & -> & Hp).
Qed.

(** With day-aligned dates and a period of seven days, the window of the
    two periods is the week and the week before it, side by side. *)
Lemma in_window_two_weeks week_start shift r :
  week_start mod ns_per_day = 0 ->
  shift = 7 * ns_per_day ->
  (forall d, production_date (c_production r) = Some d -> d mod ns_per_day = 0) ->
  (in_window (week_start - shift) (week_start + 6 * ns_per_day) r = true
   <-> in_window (week_start - shift) (week_start + 6 * ns_per_day - shift) r = true
       ∨ in_window week_start (week_start + 6 * ns_per_day) r = true)
  ∧ ¬ (in_window (week_start - shift) (week_start + 6 * ns_per_day - shift) r = true
       ∧ in_window week_start (week_start + 6 * ns_per_day) r = true).
Proof.
  intros Hws -> Hd. unfold in_window.
  destruct (production_date (c_production r)) as [d|];
    [|split; [split; [done|by intros [?|?]]|by intros [? ?]]].
  specialize (Hd d eq_refl).
  rewrite !andb_true_iff, !bool_decide_eq_true.
  unfold ns_per_day in *.
  apply Z.mod_divide in Hws as [m ->]; [|done].
  apply Z.mod_divide in Hd as [k ->]; [|done].
  split; [split|]; lia.
Qed.

Lemma finalize_row_flag lots pr :
  is_problematic_but_shipped (finalize_row lots pr)
  = c_issue (finalize_row lots pr)
    && bool_decide (c_ship_status (finalize_row lots pr)
                    ∈ [Some "Shipped"; Some "Partial"]).
Proof. by destruct pr. Qed.

Lemma consolidated_flag to_datetime production_df shipping_df include_flagged res :
  consolidate_logs to_datetime production_df shipping_df include_flagged = Ok res ->
  Forall (fun r => is_problematic_but_shipped r
                   = c_issue r
                     && bool_decide (c_ship_status r
                                     ∈ [Some "Shipped"; Some "Partial"]))
         (consolidated res).
Proof.
  rewrite consolidate_logs_joined.
  destruct (_detect_conflicts _ _) as [records|e]; [|done].
  simpl. intros [= <-]. simpl.
  apply Forall_fmap, Forall_forall. intros r Hr. unfold compose.
  assert (Hj : r ∈ (fun p => finalize_row (conflict_lot <$> records)
                               (p, join_target
                                     (_prepare_shipping to_datetime shipping_df)
                                     (p_lot p)))
                   <$> _prepare_production to_datetime production_df).
  { destruct include_flagged; [done|]. by apply list_elem_of_filter in Hr as [_ ?]. }
  apply list_elem_of_fmap in Hj as (p & -> & Hp).
  apply finalize_row_flag.
Qed.

End category_facts.

(** X14. [drill_down_by_category] lists the issue rows of the category (a
    missing primary issue counting as Unspecified) whose production date
    lies in the week, or with the previous period included, between the
    start of the comparison window and the end of the week; each such row
    once, the later production date first and then by canonical lot id.
    The status it displays is the shipping status, or the configured label
    for an unmatched row, and its flag is set exactly when that display is
    Shipped or Partial. *)
Theorem drill_down_by_category_rows
    (config : AppConfig) (consolidated : list consolidated_row)
    (category : string) (anchor_date : Timestamp) (include_previous_period : bool) :
  let rows := drill_down_by_category config consolidated category anchor_date
                include_previous_period in
  let first_day :=
    if include_previous_period
    then fst (week_bounds anchor_date) - comparison_period_days config * ns_per_day
    else fst (week_bounds anchor_date) in
  StronglySorted (fun a b => drills_before (cd_row a) (cd_row b)) rows
  ∧ cd_row <$> rows
    ≡ₚ issues_of consolidated first_day (snd (week_bounds anchor_date)) category
  ∧ Forall (fun d =>
              match c_ship_status (cd_row d) with
              | Some status => cd_shipping_status_display d = status
              | None => cd_shipping_status_display d = not_found_shipping_label config
              end
              ∧ (cd_is_problematic_but_shipped d = true
                 <-> cd_shipping_status_display d = "Shipped"
                     ∨ cd_shipping_status_display d = "Partial"))
           rows.
Proof.
  intros rows first_day. unfold rows, first_day.
  rewrite drill_down_by_category_fields.
  split.
  { apply (sort_values_sorted _ (fun a b => drills_before (cd_row a) (cd_row b))).
    - intros x y. apply drill_le_spec.
    - intros x y z. apply drills_before_trans.
    - intros x y. apply drills_before_total. }
  split; [rewrite sort_values_Permutation; by rewrite fmap_section|].
  rewrite sort_values_Permutation. apply Forall_fmap, Forall_forall.
  intros r _. simpl. split.
  - unfold status_display. by destruct (c_ship_status r).
  - rewrite bool_decide_eq_true, !elem_of_cons, elem_of_nil. tauto.
Qed.

(** X15. The drill-down of a category of the trend table, without the
    previous period, has as many rows as the current count of the
    category; and for a category that is not in the trend table it is
    empty. *)
Theorem drill_down_by_category_matches_trending
    (config : AppConfig) (consolidated : list consolidated_row)
    (anchor_date : Timestamp) :
  Forall (fun t =>
            Z.of_nat (length (drill_down_by_category config consolidated
                                (issue_category t) anchor_date false))
            = current_count t)
         (trending (weekly_summary config consolidated anchor_date))
  ∧ (forall category,
        category ∉ issue_category
                     <$> trending (weekly_summary config consolidated anchor_date) ->
        drill_down_by_category config consolidated category anchor_date false = []).
Proof.
  split.
  - apply Forall_forall. intros t Ht.
    apply trending_row_counts in Ht as [-> _].
    by rewrite length_drill_down_by_category.
  - intros category Hnot. apply nil_length_inv.
    rewrite length_drill_down_by_category.
    destruct (issues_of consolidated _ _ category) as [|r rs] eqn:Hf; [done|].
    exfalso. apply Hnot. rewrite weekly_summary_fields. cbn [trending].
    rewrite trending_of_categories, elem_of_drop_duplicates_id, elem_of_app.
    left. apply elem_of_categories_window. by rewrite Hf.
Qed.

(** X16. On the output of [consolidate_logs], whose production dates are
    all midnights, and with a comparison period of seven days, the
    drill-down of a category with the previous period included has as many
    rows as the current and the previous count of the trend table
    together. *)
Theorem drill_down_previous_period_counts
    (to_datetime : value -> option Timestamp)
    (production_df : list production_input) (shipping_df : list shipping_input)
    (include_flagged : bool) (res : ConsolidationResult)
    (config : AppConfig) (anchor_date : Timestamp) :
  consolidate_logs to_datetime production_df shipping_df include_flagged = Ok res ->
  comparison_period_days config = 7 ->
  Forall (fun r => forall d, production_date (c_production r) = Some d ->
                             d mod ns_per_day = 0)
         (consolidated res)
  ∧ Forall (fun t =>
              Z.of_nat (length (drill_down_by_category config (consolidated res)
                                  (issue_category t) anchor_date true))
              = current_count t + previous_count t)
           (trending (weekly_summary config (consolidated res) anchor_date)).
Proof.
  intros Hres Hperiod.
  pose proof (consolidated_dates_aligned _ _ _ _ _ Hres) as Haligned.
  split; [done|]. apply Forall_forall. intros t Ht.
  apply trending_row_counts in Ht as [-> ->].
  rewrite length_drill_down_by_category, <- Nat2Z.inj_add. f_equal.
  rewrite Hperiod.
  assert (Hend : snd (week_bounds anchor_date)
                 = fst (week_bounds anchor_date) + 6 * ns_per_day) by done.
  assert (Hstart : fst (week_bounds anchor_date) mod ns_per_day = 0).
  { rewrite week_start_spec. unfold ns_per_day. Z.div_mod_to_equations. lia. }
  rewrite Hend. set (week_start := fst (week_bounds anchor_date)) in *.
  rewrite Nat.add_comm. unfold issues_of.
  rewrite Forall_forall in Haligned.
  apply length_filter_split.
  - intros r Hr.
    destruct (in_window_two_weeks week_start (7 * ns_per_day) r Hstart eq_refl
                (Haligned r Hr)) as [Hiff _].
    rewrite Hiff. tauto.
  - intros r Hr [H1 _] [H2 _].
    destruct (in_window_two_weeks week_start (7 * ns_per_day) r Hstart eq_refl
                (Haligned r Hr)) as [_ Hexcl].
    apply Hexcl. by split.
Qed.

(** On the test tables, read in the week after their dates: the two
    categories have no row in the week and one in the week before, which
    the drill-down with the previous period lists. *)
Lemma drill_down_previous_period_witness :
  exists res,
    consolidate_logs dates.to_datetime production_df shipping_df true = Ok res
    ∧ comparison_period_days test_config = 7
    ∧ (fun t => (issue_category t, current_count t, previous_count t))
        <$> trending (weekly_summary test_config (consolidated res)
                        (anchor + 7 * ns_per_day))
      = [ ("Sensor fault", 0, 1); ("Tool wear", 0, 1) ]
    ∧ Forall (fun t =>
                Z.of_nat (length (drill_down_by_category test_config
                                    (consolidated res) (issue_category t)
                                    (anchor + 7 * ns_per_day) true))
                = current_count t + previous_count t)
             (trending (weekly_summary test_config (consolidated res)
                          (anchor + 7 * ns_per_day))).
Proof.
  destruct (consolidate_logs dates.to_datetime production_df shipping_df true)
    as [res|e] eqn:Hres; [|by vm_compute in Hres].
  exists res. split; [done|]. split; [done|]. split.
  - vm_compute in Hres. by injection Hres as <-.
  - exact (proj2 (drill_down_previous_period_counts _ _ _ _ _ test_config
                    (anchor + 7 * ns_per_day) Hres eq_refl)).
Defined.

(** X17. On the output of [consolidate_logs], and with a label for
    unmatched rows that is neither Shipped nor Partial, the flag
    [drill_down_by_category] recomputes from the displayed status is the
    flag [consolidate_logs] gave the row. *)
Theorem drill_down_by_category_keeps_flag
    (to_datetime : value -> option Timestamp)
    (production_df : list production_input) (shipping_df : list shipping_input)
    (include_flagged : bool) (res : ConsolidationResult)
    (config : AppConfig) (category : string) (anchor_date : Timestamp)
    (include_previous_period : bool) :
  consolidate_logs to_datetime production_df shipping_df include_flagged = Ok res ->
  not_found_shipping_label config ∉ ["Shipped"; "Partial"] ->
  Forall (fun d => cd_is_problematic_but_shipped d
                   = is_problematic_but_shipped (cd_row d))
         (drill_down_by_category config (consolidated res) category anchor_date
            include_previous_period).
Proof.
  intros Hres Hlabel.
  pose proof (consolidated_flag _ _ _ _ _ Hres) as Hflag.
  rewrite Forall_forall in Hflag.
  rewrite drill_down_by_category_fields, sort_values_Permutation.
  apply Forall_fmap, Forall_forall.
  intros r [(_ & Hissue & _) Hr]%list_elem_of_filter. simpl.
  rewrite (Hflag r Hr), Hissue. simpl. unfold status_display.
  destruct (c_ship_status r) as [status|]; simpl.
  - apply bool_decide_ext. rewrite !elem_of_cons, !elem_of_nil. split.
    + intros [->|[->|[]]]; auto.
    + intros [[= ->]|[[= ->]|[]]]; auto.
  - by rewrite (bool_decide_eq_false_2 _ Hlabel).
Qed.

(** On the test tables the row of the sensor fault has no shipping row: it
    is displayed under the label of the configuration and keeps its flag
    unset. *)
Lemma drill_down_by_category_flag_witness :
  exists res,
    consolidate_logs dates.to_datetime production_df shipping_df true = Ok res
    ∧ (not_found_shipping_label test_config ∉ ["Shipped"; "Partial"])
    ∧ (fun d => (cd_shipping_status_display d, cd_is_problematic_but_shipped d))
        <$> drill_down_by_category test_config (consolidated res)
              "Sensor fault" anchor false
      = [ ("Not Shipped Yet", false) ]
    ∧ Forall (fun d => cd_is_problematic_but_shipped d
                       = is_problematic_but_shipped (cd_row d))
             (drill_down_by_category test_config (consolidated res)
                "Sensor fault" anchor false).
Proof.
  assert (Hlabel : not_found_shipping_label test_config ∉ ["Shipped"; "Partial"]).
  { rewrite !not_elem_of_cons. repeat split; [done|done|apply not_elem_of_nil]. }
  destruct (consolidate_logs dates.to_datetime production_df shipping_df true)
    as [res|e] eqn:Hres; [|by vm_compute in Hres].
  exists res. split; [done|]. split; [done|]. split.
  - vm_compute in Hres. by injection Hres as <-.
  - exact (drill_down_by_category_keeps_flag _ _ _ _ _ test_config
             "Sensor fault" anchor false Hres Hlabel).
Defined.

(** ** Text cells: column names and issue flags *)

Section text_facts.
Import io.

Lemma lower_map s : lower s = map_chars lower_char s.
Proof. induction s as [|c s IH]; simpl; [done|]. by rewrite IH. Qed.

Lemma upper_map s : upper s = map_chars upper_char s.
Proof. induction s as [|c s IH]; simpl; [done|]. by rewrite IH. Qed.

Lemma replace_char_map old new s :
  replace_char old new s
  = map_chars (fun c => if decide (c = old) then new else c) s.
Proof. induction s as [|c s IH]; simpl; [done|]. by rewrite IH. Qed.

Lemma map_chars_compose f g s :
  map_chars f (map_chars g s) = map_chars (fun c => f (g c)) s.
Proof. induction s as [|c s IH]; simpl; [done|]. by rewrite IH. Qed.

Lemma map_chars_ext f g s :
  (forall c, f c = g c) -> map_chars f s = map_chars g s.
Proof. intros Hfg. induction s as [|c s IH]; simpl; [done|]. by rewrite Hfg, IH. Qed.

Lemma map_chars_app f s t :
  map_chars f (s +:+ t) = map_chars f s +:+ map_chars f t.
Proof.
  induction s as [|c s IH]; [done|]. rewrite !append_cons. simpl.
  by rewrite append_cons, IH.
Qed.

Lemma all_chars_map_chars P f s :
  (forall c, P (f c) = true) -> all_chars P (map_chars f s) = true.
Proof. intros HP. induction s as [|c s IH]; simpl; [done|]. by rewrite HP, IH. Qed.

Lemma normalize_column_map v :
  normalize_column v = map_chars column_char (strip (str v)).
Proof.
  unfold normalize_column.
  by rewrite !replace_char_map, lower_map, !map_chars_compose.
Qed.

(** *** Texts that [strip] leaves alone *)

Lemma lstrip_head s :
  lstrip s = EmptyString
  ∨ exists c r, lstrip s = String c r ∧ isspace c = false.
Proof.
  induction s as [|c s IH]; simpl; [by left|].
  destruct (isspace c) eqn:Hc; [done|]. right. by exists c, s.
Qed.

Lemma rstrip_idem s : rstrip (rstrip s) = rstrip s.
Proof.
  induction s as [|c s IH]; [done|]. simpl.
  destruct (rstrip s) as [|d r'] eqn:Hr.
  - destruct (isspace c) eqn:Hc; [done|]. simpl. by rewrite Hc.
  - simpl in *. by rewrite IH.
Qed.

Lemma strip_idem s : strip (strip s) = strip s.
Proof.
  unfold strip. destruct (lstrip_head s) as [->|(c & r & -> & Hc)]; [done|].
  rewrite rstrip_cons_nonspace by done. simpl. rewrite Hc.
  rewrite <- (rstrip_cons_nonspace c r) by done. apply rstrip_idem.
Qed.

Lemma lstrip_map_chars f s :
  (forall c, isspace (f c) = isspace c) ->
  lstrip (map_chars f s) = map_chars f (lstrip s).
Proof.
  intros Hf. induction s as [|c s IH]; simpl; [done|].
  rewrite Hf. by destruct (isspace c).
Qed.

Lemma rstrip_map_chars f s :
  (forall c, isspace (f c) = isspace c) ->
  rstrip (map_chars f s) = map_chars f (rstrip s).
Proof.
  intros Hf. induction s as [|c s IH]; simpl; [done|].
  rewrite IH, Hf. destruct (rstrip s); simpl; [|done].
  by destruct (isspace c).
Qed.

Lemma strip_map_chars f s :
  (forall c, isspace (f c) = isspace c) ->
  strip (map_chars f s) = map_chars f (strip s).
Proof.
  intros Hf. unfold strip. by rewrite lstrip_map_chars, rstrip_map_chars.
Qed.

(** A map that sends no other character to a space keeps a stripped text
    stripped. *)
Lemma rstrip_fixed_map f t :
  (forall c, isspace c = false -> isspace (f c) = false) ->
  rstrip t = t -> rstrip (map_chars f t) = map_chars f t.
Proof.
  intros Hf. induction t as [|c t IH]; [done|]. simpl.
  destruct (rstrip t) as [|d r'] eqn:Hr.
  - destruct (isspace c) eqn:Hc; [done|]. intros [= <-]. simpl.
    by rewrite (Hf c Hc).
  - intros [= Ht]. rewrite IH by done. rewrite <- Ht. done.
Qed.

Lemma strip_fixed_map f s :
  (forall c, isspace c = false -> isspace (f c) = false) ->
  strip (map_chars f (strip s)) = map_chars f (strip s).
Proof.
  intros Hf. pose proof (strip_idem s) as Hidem. unfold strip in *.
  destruct (lstrip_head s) as [Hs|(c & r & Hs & Hc)]; rewrite Hs in *; [done|].
  rewrite rstrip_cons_nonspace in * by done. simpl. rewrite (Hf c Hc).
  change (String (f c) (map_chars f (rstrip r)))
    with (map_chars f (String c (rstrip r))).
  apply rstrip_fixed_map; [done|].
  rewrite rstrip_cons_nonspace by done. by rewrite rstrip_idem.
Qed.

(** *** Padding *)

Lemma lstrip_spaces s : all_chars isspace s = true -> lstrip s = EmptyString.
Proof.
  induction s as [|c s IH]; simpl; [done|].
  intros [Hc Hs]%andb_true_iff. rewrite Hc. by apply IH.
Qed.

Lemma rstrip_spaces s : all_chars isspace s = true -> rstrip s = EmptyString.
Proof.
  induction s as [|c s IH]; simpl; [done|].
  intros [Hc Hs]%andb_true_iff. by rewrite (IH Hs), Hc.
Qed.

Lemma rstrip_app_spaces t b :
  all_chars isspace b = true -> rstrip (t +:+ b) = rstrip t.
Proof.
  intros Hb. induction t as [|c t IH].
  - rewrite append_nil_l. by apply rstrip_spaces.
  - rewrite append_cons. simpl. by rewrite IH.
Qed.

Lemma strip_padding a s b :
  all_chars isspace a = true -> all_chars isspace b = true ->
  strip (a +:+ s +:+ b) = strip s.
Proof.
  intros Ha Hb. unfold strip.
  assert (Hl : forall t, lstrip (a +:+ t) = lstrip t).
  { intros t. induction a as [|c a IH]; [done|]. rewrite append_cons. simpl.
    simpl in Ha. apply andb_true_iff in Ha as [Hc Ha]. rewrite Hc. by apply IH. }
  rewrite Hl. clear Hl Ha a.
  induction s as [|c s IH].
  - rewrite append_nil_l, (lstrip_spaces b Hb). done.
  - rewrite append_cons. simpl. destruct (isspace c); [done|].
    rewrite <- append_cons. by apply rstrip_app_spaces.
Qed.

(** *** One character *)

Lemma column_char_idem c : column_char (column_char c) = column_char c.
Proof. check_all_codes c. Qed.

Lemma column_char_clean c : clean_char (column_char c) = true.
Proof. check_all_codes c. Qed.

Lemma column_char_nonspace c :
  isspace c = false -> isspace (column_char c) = false.
Proof. check_all_codes c. Qed.

Lemma column_char_upper c : column_char (upper_char c) = column_char c.
Proof. check_all_codes c. Qed.

Lemma isspace_upper c : isspace (upper_char c) = isspace c.
Proof. check_all_codes c. Qed.

Lemma isspace_lower c : isspace (lower_char c) = isspace c.
Proof. check_all_codes c. Qed.

Lemma lower_upper_char c : lower_char (upper_char c) = lower_char c.
Proof. check_all_codes c. Qed.

Lemma lower_lower_char c : lower_char (lower_char c) = lower_char c.
Proof. check_all_codes c. Qed.

End text_facts.

(** X18. [_normalize_columns] gives every column a name without a space, a
    slash or an ASCII capital; normalizing the names it gave changes
    nothing; and two headers that differ only in the case of their letters,
    or in blanks around them, get the same name. *)
Theorem normalize_columns_canonical (columns : list value) :
  length (io._normalize_columns columns) = length columns
  ∧ Forall (fun name => all_chars io.clean_char name = true)
           (io._normalize_columns columns)
  ∧ io._normalize_columns (VStr <$> io._normalize_columns columns)
    = io._normalize_columns columns
  ∧ (forall s, io.normalize_column (VStr (upper s)) = io.normalize_column (VStr s))
  ∧ (forall a s b,
        all_chars isspace a = true -> all_chars isspace b = true ->
        io.normalize_column (VStr (a +:+ s +:+ b)) = io.normalize_column (VStr s)).
Proof.
  unfold io._normalize_columns.
  split; [apply length_fmap|]. split.
  { apply Forall_fmap, Forall_forall. intros v _. unfold compose.
    rewrite normalize_column_map.
    apply all_chars_map_chars, column_char_clean. }
  split.
  { rewrite <- !list_fmap_compose. apply list_fmap_ext. intros _ v _.
    unfold compose. rewrite !normalize_column_map. simpl.
    rewrite strip_fixed_map by apply column_char_nonspace.
    rewrite map_chars_compose. apply map_chars_ext, column_char_idem. }
  split.
  { intros s. rewrite !normalize_column_map. simpl.
    rewrite upper_map, strip_map_chars by apply isspace_upper.
    rewrite map_chars_compose. apply map_chars_ext, column_char_upper. }
  intros a s b Ha Hb. rewrite !normalize_column_map. simpl.
  by rewrite strip_padding.
Qed.

(** X19. [truthy_issue_flag] reads a text cell without regard to the case
    of its letters or to blanks around it; a boolean cell is its own flag,
    and an empty cell is no issue. *)
Theorem truthy_issue_flag_tolerant :
  (forall s, truthy_issue_flag (VStr (upper s)) = truthy_issue_flag (VStr s))
  ∧ (forall s, truthy_issue_flag (VStr (lower s)) = truthy_issue_flag (VStr s))
  ∧ (forall a s b,
        all_chars isspace a = true -> all_chars isspace b = true ->
        truthy_issue_flag (VStr (a +:+ s +:+ b)) = truthy_issue_flag (VStr s))
  ∧ (forall b, truthy_issue_flag (VBool b) = b)
  ∧ (forall v, is_none_or_nan v = true -> truthy_issue_flag v = false).
Proof.
  split; [|split; [|split; [|split]]].
  - intros s. unfold truthy_issue_flag. simpl.
    rewrite upper_map, strip_map_chars by apply isspace_upper.
    rewrite !lower_map, map_chars_compose.
    by rewrite (map_chars_ext _ lower_char) by apply lower_upper_char.
  - intros s. unfold truthy_issue_flag. simpl.
    rewrite !lower_map, strip_map_chars by apply isspace_lower.
    rewrite map_chars_compose.
    by rewrite (map_chars_ext _ lower_char) by apply lower_lower_char.
  - intros a s b Ha Hb. unfold truthy_issue_flag. simpl.
    by rewrite strip_padding.
  - done.
  - by intros [| | | |].
Qed.
